(** * The cloud-managed connector (connectors/managed.py)

    A shallow embedding of [Connector] of [connectors/managed.py]: the two
    authorization loaders, session-secret generation, the pagination
    generator [get_list_of_items], the per-record enrichment of
    [_load_list] and the credential rotation of [_load_iam_list].

    Python objects are JSON-like values.  Numbers are integers, and a
    dictionary has string keys, as a decoded JSON object has.  The
    collaborators that live in [lib/] (call builder, renderer, API
    executor, credential sources) are fields of a record [Externals]; every
    theorem holds for all of them.  Values carry no identity: where the
    code changes a record in place, the entries of the rendering context
    that hold the record are written again ([changed_in_place]). *)

From Stdlib Require Import ZArith Lia.
From stdpp Require Import base gmap strings list.

Local Open Scope string_scope.
Local Open Scope list_scope.

(** ** Python values *)

#[warnings="-register-all"]
Inductive value : Type :=
| VNone
| VBool (b : bool)
| VInt (z : Z)
| VStr (s : string)
| VList (l : list value)
| VDict (d : list (string * value)).

(** [bool(v)], the truth value Python gives an object. *)
Definition truthy (v : value) : bool :=
  match v with
  | VNone => false
  | VBool b => b
  | VInt z => negb (z =? 0)%Z
  | VStr s => match s with EmptyString => false | String _ _ => true end
  | VList l => match l with [] => false | _ :: _ => true end
  | VDict d => match d with [] => false | _ :: _ => true end
  end.

Definition isinstance_str (v : value) : bool :=
  match v with VStr _ => true | _ => false end.

Definition isinstance_dict (v : value) : bool :=
  match v with VDict _ => true | _ => false end.

(** Dictionaries keep insertion order; a key occurs once. *)
Fixpoint dict_get (d : list (string * value)) (k : string) : option value :=
  match d with
  | [] => None
  | (k', v) :: d' => if String.eqb k' k then Some v else dict_get d' k
  end.

Fixpoint dict_set (d : list (string * value)) (k : string) (v : value)
  : list (string * value) :=
  match d with
  | [] => [(k, v)]
  | (k', v') :: d' =>
      if String.eqb k' k then (k, v) :: d' else (k', v') :: dict_set d' k v
  end.

Definition dict_update (d m : list (string * value)) : list (string * value) :=
  fold_left (fun acc kv => dict_set acc (fst kv) (snd kv)) m d.

(** The same value, part by part.  This is not Python's [==], which also
    finds [1 == True]. *)
Fixpoint value_eqb (a b : value) : bool :=
  match a, b with
  | VNone, VNone => true
  | VBool x, VBool y => Bool.eqb x y
  | VInt x, VInt y => (x =? y)%Z
  | VStr x, VStr y => String.eqb x y
  | VList l, VList m =>
      (fix all (l m : list value) : bool :=
         match l, m with
         | [], [] => true
         | x :: l', y :: m' => value_eqb x y && all l' m'
         | _, _ => false
         end) l m
  | VDict d, VDict e =>
      (fix all (d e : list (string * value)) : bool :=
         match d, e with
         | [], [] => true
         | (k, x) :: d', (k', y) :: e' => String.eqb k k' && value_eqb x y && all d' e'
         | _, _ => false
         end) d e
  | _, _ => false
  end.

(** An object changed in place, as seen through a container that holds it.
    Values carry no identity: the object is taken to be the first one, in
    the order of the container, that equals its state [before] the change.
    The flag tells whether it was found. *)
Fixpoint replace_first (before after v : value) : value * bool :=
  if value_eqb v before then (after, true)
  else
    match v with
    | VList l =>
        let '(l', found) :=
          (fix among (l : list value) : list value * bool :=
             match l with
             | [] => ([], false)
             | x :: rest =>
                 let '(x', found) := replace_first before after x in
                 if found then (x' :: rest, true)
                 else let '(rest', found') := among rest in (x :: rest', found')
             end) l in
        (VList l', found)
    | VDict d =>
        let '(d', found) :=
          (fix among (d : list (string * value)) : list (string * value) * bool :=
             match d with
             | [] => ([], false)
             | (k, x) :: rest =>
                 let '(x', found) := replace_first before after x in
                 if found then ((k, x') :: rest, true)
                 else let '(rest', found') := among rest in ((k, x) :: rest', found')
             end) d in
        (VDict d', found)
    | _ => (v, false)
    end.

(** ** Exceptions *)

Inductive exn_class : Type :=
| ConfigError
| ManagedConnectorListGetEmptyInBeginningException
| ManagedConnectorListGetInBeginningException
| ManagedConnectorListGetInMiddleException
| ManagedConnectorListMaxIterationException
| ManagedConnectorDetailsGetException
| ManagedConnectorSoftwareGetException
| ManagedConnectorSaaSGetException
| HTTPError
| TypeError
| KeyError
| AttributeError
| ExternalError.

(** [exn_error] is the argument the exception was built with. *)
Record exn : Type := Exn { exn_cls : exn_class; exn_error : value }.

Inductive Res (A : Type) : Type :=
| Ok (a : A)
| Raise (e : exn).
Arguments Ok {A} a.
Arguments Raise {A} e.

#[global] Instance exn_class_eq_dec : EqDecision exn_class.
Proof. solve_decision. Defined.

(** [isinstance(e, c)]; the classes modelled here have no subclasses among
    themselves. *)
Definition is_class (c : exn_class) (e : exn) : bool :=
  bool_decide (exn_cls e = c).

(** ** Operations on Python objects, with the exceptions Python raises *)

Module Py.

(** [v.get(k, default)] *)
Definition get (v : value) (k : string) (default : value) : Res value :=
  match v with
  | VDict d => Ok (match dict_get d k with Some x => x | None => default end)
  | _ => Raise (Exn AttributeError (VStr "object has no attribute 'get'"))
  end.

(** [v[k]] for a string [k] *)
Definition getitem (v : value) (k : string) : Res value :=
  match v with
  | VDict d =>
      match dict_get d k with
      | Some x => Ok x
      | None => Raise (Exn KeyError (VStr k))
      end
  | VList _ | VStr _ => Raise (Exn TypeError (VStr "indices must be integers"))
  | _ => Raise (Exn TypeError (VStr "object is not subscriptable"))
  end.

(** [v[k] = x] for a string [k] *)
Definition setitem (v : value) (k : string) (x : value) : Res value :=
  match v with
  | VDict d => Ok (VDict (dict_set d k x))
  | VList _ => Raise (Exn TypeError (VStr "list indices must be integers"))
  | _ => Raise (Exn TypeError (VStr "object does not support item assignment"))
  end.

(** [v.update(m)] with [m] splatted into keyword arguments *)
Definition update (v m : value) : Res value :=
  match v with
  | VDict d =>
      match m with
      | VDict e => Ok (VDict (dict_update d e))
      | _ => Raise (Exn TypeError (VStr "argument after ** must be a mapping"))
      end
  | _ => Raise (Exn AttributeError (VStr "object has no attribute 'update'"))
  end.

(** The object [v] splatted into keyword arguments of a call *)
Definition kwargs (v : value) : Res value :=
  match v with
  | VDict d => Ok (VDict d)
  | _ => Raise (Exn TypeError (VStr "argument after ** must be a mapping"))
  end.

Fixpoint is_substring (p s : string) : bool :=
  String.prefix p s
  || match s with
     | EmptyString => false
     | String _ s' => is_substring p s'
     end.

(** [k in v] for a string [k] *)
Definition contains (k : string) (v : value) : Res bool :=
  match v with
  | VDict d => Ok (match dict_get d k with Some _ => true | None => false end)
  | VList l =>
      Ok (existsb (fun x => match x with
                            | VStr s => String.eqb s k
                            | _ => false
                            end) l)
  | VStr s => Ok (is_substring k s)
  | _ => Raise (Exn TypeError (VStr "argument is not iterable"))
  end.

Fixpoint chars (s : string) : list value :=
  match s with
  | EmptyString => []
  | String a s' => VStr (String a EmptyString) :: chars s'
  end.

(** The elements [for x in v] visits. *)
Definition iter (v : value) : Res (list value) :=
  match v with
  | VList l => Ok l
  | VDict d => Ok (map (fun kv => VStr (fst kv)) d)
  | VStr s => Ok (chars s)
  | _ => Raise (Exn TypeError (VStr "object is not iterable"))
  end.

(** A dictionary key; only strings are modelled. *)
Definition key (v : value) : Res string :=
  match v with
  | VStr s => Ok s
  | _ => Raise (Exn TypeError (VStr "keywords must be strings"))
  end.

End Py.

(** ** The connector object *)

Record Connector : Type := {
  ConnectorID : string;
  saas_authorization : value;       (* settings['saas_authorization'] *)
  oomnitza_authorization : value;   (* settings['oomnitza_authorization'] *)
  session_auth_behavior : value;
  list_behavior : value;
  detail_behavior : value;
  software_behavior : value;
  saas_behavior : value
}.

Definition set_saas_authorization (v : value) (c : Connector) : Connector :=
  {| ConnectorID := ConnectorID c;
     saas_authorization := v;
     oomnitza_authorization := oomnitza_authorization c;
     session_auth_behavior := session_auth_behavior c;
     list_behavior := list_behavior c;
     detail_behavior := detail_behavior c;
     software_behavior := software_behavior c;
     saas_behavior := saas_behavior c |}.

Definition set_oomnitza_authorization (v : value) (c : Connector) : Connector :=
  {| ConnectorID := ConnectorID c;
     saas_authorization := saas_authorization c;
     oomnitza_authorization := v;
     session_auth_behavior := session_auth_behavior c;
     list_behavior := list_behavior c;
     detail_behavior := detail_behavior c;
     software_behavior := software_behavior c;
     saas_behavior := saas_behavior c |}.

Definition set_session_auth_behavior (v : value) (c : Connector) : Connector :=
  {| ConnectorID := ConnectorID c;
     saas_authorization := saas_authorization c;
     oomnitza_authorization := oomnitza_authorization c;
     session_auth_behavior := v;
     list_behavior := list_behavior c;
     detail_behavior := detail_behavior c;
     software_behavior := software_behavior c;
     saas_behavior := saas_behavior c |}.

(** ** Authorization loaders *)

Definition saas_not_dict_message (id : string) : string :=
  "Managed connector #" ++ id ++
  ": Information for the authorization in SaaS must be presented in form of dictionary JSON".

Definition saas_invalid_message (id : string) : string :=
  "Managed connector #" ++ id ++ ": SaaS authorization format is invalid. Exiting".

Definition oomnitza_invalid_message (id : string) : string :=
  "Managed connector #" ++ id ++ ": Oomnitza authorization format is invalid. Exiting".

(** [dict.get(k)] and [dict.get(k, {})] on a value known to be a dictionary *)
Definition dget (d : list (string * value)) (k : string) (default : value) : value :=
  match dict_get d k with Some x => x | None => default end.

(** The condition of the third branch of [saas_authorization_loader]. *)
Definition ready_to_use (d : list (string * value)) : bool :=
  (isinstance_dict (dget d "headers" (VDict [])) && truthy (dget d "headers" VNone))
  || (isinstance_dict (dget d "params" (VDict [])) && truthy (dget d "params" VNone)).

Section Loaders.

(** [json.loads] of the standard library. *)
Variable json_loads : string -> Res value.

(** The loader leaves the connector as it is when it raises, except in the
    session branch, which stores the empty settings before it reads
    [value['behavior']]. *)
Definition saas_authorization_loader (c : Connector) : option exn * Connector :=
  let decoded :=
    match saas_authorization c with
    | VStr s => json_loads s
    | v => Ok v
    end in
  match decoded with
  | Raise e => (Some e, c)
  | Ok (VDict d) =>
      if isinstance_str (dget d "credential_id" VNone) then
        (None,
         set_saas_authorization
           (VDict [("credential_id", dget d "credential_id" VNone)]) c)
      else
        match dget d "type" VNone with
        | VStr "session" =>
            let c1 := set_saas_authorization (VDict []) c in
            match dict_get d "behavior" with
            | Some b => (None, set_session_auth_behavior b c1)
            | None => (Some (Exn KeyError (VStr "behavior")), c1)
            end
        | _ =>
            if ready_to_use d then
              (None,
               set_saas_authorization
                 (VDict [("headers", dget d "headers" (VDict []));
                         ("params", dget d "params" (VDict []))]) c)
            else
              (Some (Exn ConfigError (VStr (saas_invalid_message (ConnectorID c)))), c)
        end
  | Ok _ =>
      (Some (Exn ConfigError (VStr (saas_not_dict_message (ConnectorID c)))), c)
  end.

(** [api_token] is [self.OomnitzaConnector.settings['api_token']]. *)
Definition oomnitza_authorization_loader (api_token : value) (c : Connector)
  : option exn * Connector :=
  let value := oomnitza_authorization c in
  if isinstance_str value && truthy value then (None, c)
  else if negb (truthy value) then
    (None, set_oomnitza_authorization api_token c)
  else
    match value with
    | VDict d =>
        if truthy (dget d "token_id" VNone) then
          (None,
           set_oomnitza_authorization
             (VDict [("token_id", dget d "token_id" VNone)]) c)
        else
          (Some (Exn ConfigError (VStr (oomnitza_invalid_message (ConnectorID c)))), c)
    | _ =>
        (Some (Exn ConfigError (VStr (oomnitza_invalid_message (ConnectorID c)))), c)
    end.

End Loaders.

(** ** Collaborators and the state of a run *)

Record Response : Type := {
  text : string;
  headers : value;
  links : value
}.

(** The collaborators of [lib/]: the call builder and the renderer read the
    rendering context, the API executor and the credential sources act on
    the outside world [W].  None of them writes the rendering context: it is
    written by the pagination and the enrichment code only. *)
Record Externals (W : Type) : Type := {
  build_call_specs : value -> gmap string value -> Res value;
  render_to_native : value -> gmap string value -> Res value;
  render_to_string : value -> gmap string value -> Res string;
  perform_api_request : value -> W -> Res Response * W;
  response_to_object : string -> Res value;
  get_secret_by_credential_id : value -> value -> W -> Res value * W;
  get_aws_session_secret : value -> W -> Res value * W;
  init_mtls_ssl_adapter : value -> Res value;
  (* AWSIAM(managed_connector=self, credential_id=...) *)
  AWSIAM : value -> W -> Res unit * W;
  (* one step of the generator iam.get_iam_credentials() *)
  get_iam_credentials : W -> Res (option value) * W;
  (* str(exc) *)
  str : exn -> string
}.
Arguments build_call_specs {W} _ _ _.
Arguments render_to_native {W} _ _ _.
Arguments render_to_string {W} _ _ _.
Arguments perform_api_request {W} _ _ _.
Arguments response_to_object {W} _ _.
Arguments get_secret_by_credential_id {W} _ _ _ _.
Arguments get_aws_session_secret {W} _ _ _.
Arguments init_mtls_ssl_adapter {W} _ _.
Arguments AWSIAM {W} _ _ _.
Arguments get_iam_credentials {W} _ _.
Arguments str {W} _ _.

Record State (W : Type) : Type := {
  rendering_context : gmap string value;
  world : W
}.
Arguments Build_State {W} _ _.
Arguments rendering_context {W} _.
Arguments world {W} _.

(** A computation that reads and writes the state and may raise; what it
    wrote before raising stays written. *)
Definition M (W A : Type) : Type := State W -> Res A * State W.

Definition ret {W A} (a : A) : M W A := fun s => (Ok a, s).

Definition bind {W A B} (m : M W A) (k : A -> M W B) : M W B :=
  fun s =>
    match m s with
    | (Ok a, s') => k a s'
    | (Raise e, s') => (Raise e, s')
    end.

Definition lift {W A} (r : Res A) : M W A := fun s => (r, s).

Definition raise {W A} (e : exn) : M W A := fun s => (Raise e, s).

(** [try: m except Exception as exc: h exc] *)
Definition try_except {W A} (m : M W A) (h : exn -> M W A) : M W A :=
  fun s =>
    match m s with
    | (Ok a, s') => (Ok a, s')
    | (Raise e, s') => h e s'
    end.

Definition reading {W A} (f : gmap string value -> Res A) : M W A :=
  fun s => (f (rendering_context s), s).

Definition acting {W A} (f : W -> Res A * W) : M W A :=
  fun s =>
    let '(r, w) := f (world s) in
    (r, Build_State (rendering_context s) w).

Declare Scope run_scope.
Delimit Scope run_scope with run.
Notation "'do' x <- m ; k" := (bind m (fun x => k))
  (at level 10, x name, m at level 100, k at level 200) : run_scope.
Notation "m ;; k" := (bind m (fun _ => k))
  (at level 100, k at level 200, right associativity) : run_scope.

(** Modelled from the spec: [update_rendering_context] and
    [clear_rendering_context] of [lib/api_caller.py], which the source calls
    but does not define.  The spec's Rendering Context is a mapping from
    name to value whose keys are added or overwritten, and selectively
    cleared. *)
Definition update_context (kvs : list (string * value)) (c : gmap string value)
  : gmap string value :=
  fold_left (fun m kv => <[fst kv := snd kv]> m) kvs c.

Definition clear_context (ks : list string) (c : gmap string value)
  : gmap string value :=
  fold_left (fun m k => delete k m) ks c.

Definition update_rendering_context {W} (kvs : list (string * value)) : M W unit :=
  fun s => (Ok tt, Build_State (update_context kvs (rendering_context s)) (world s)).

Definition clear_rendering_context {W} (ks : list string) : M W unit :=
  fun s => (Ok tt, Build_State (clear_context ks (rendering_context s)) (world s)).

Section Run.

Context {W : Type} (X : Externals W) (self : Connector).

Local Open Scope run_scope.

(** [spec[field].update(extra)], the nested dictionary changed in place *)
Definition update_field (spec : value) (field : string) (extra : value)
  : Res value :=
  match Py.getitem spec field with
  | Raise e => Raise e
  | Ok h =>
      match Py.update h extra with
      | Raise e => Raise e
      | Ok h' => Py.setitem spec field h'
      end
  end.

(** The three statements that layer authorization onto a call
    specification. *)
Definition apply_authorization (spec auth_headers auth_params ssl_adapter : value)
  : Res value :=
  match update_field spec "headers" auth_headers with
  | Raise e => Raise e
  | Ok spec1 =>
      match update_field spec1 "params" auth_params with
      | Raise e => Raise e
      | Ok spec2 => Py.setitem spec2 "ssl_adapter" ssl_adapter
      end
  end.

(** [self.perform_api_request(logger=self.logger, ...)] with the call
    specification as keyword arguments *)
Definition request (spec : value) : M W Response :=
  do kw <- lift (Py.kwargs spec);
  acting (perform_api_request X kw).

(** The comprehension
    [{_["key"]: self.render_to_string(_["value"]) for _ in entries}] *)
Fixpoint render_entries (entries : list value) (acc : list (string * value))
  : M W (list (string * value)) :=
  match entries with
  | [] => ret acc
  | entry :: rest =>
      do k <- lift (Py.getitem entry "key");
      do k' <- lift (Py.key k);
      do v <- lift (Py.getitem entry "value");
      do rendered <- reading (render_to_string X v);
      render_entries rest (dict_set acc k' (VStr rendered))
  end.

Definition render_templates (owner : value) (name : string) : M W value :=
  do templates <- lift (Py.get owner name (VList []));
  do entries <- lift (Py.iter templates);
  do rendered <- render_entries entries [];
  ret (VDict rendered).

Definition generate_session_based_secret : M W value :=
  do api_call_specification <-
    reading (build_call_specs X (session_auth_behavior self));
  do response <- request api_call_specification;
  let response_headers := headers response in
  do response_object <- lift (response_to_object X (text response));
  update_rendering_context
    [("response", response_object); ("response_headers", response_headers)];;
  do result <- lift (Py.getitem (session_auth_behavior self) "result");
  do auth_headers <- render_templates result "headers";
  do result' <- lift (Py.getitem (session_auth_behavior self) "result");
  do auth_params <- render_templates result' "params";
  clear_rendering_context ["response"; "response_headers"];;
  ret (VDict [("headers", auth_headers); ("params", auth_params)]).

(** Returns [(headers, params, ssl_adapter)]. *)
Definition attach_saas_authorization (api_call_specification : value)
  : M W (value * value * value) :=
  do credential_id <- lift (Py.get (saas_authorization self) "credential_id" VNone);
  do secret_adapter <-
    (if truthy credential_id then
       do kw <- lift (Py.kwargs api_call_specification);
       do secret <- acting (get_secret_by_credential_id X credential_id kw);
       do certificates <- lift (Py.getitem secret "certificates");
       if truthy certificates then
         do adapter <- lift (init_mtls_ssl_adapter X certificates);
         ret (secret, adapter)
       else ret (secret, VNone)
     else if truthy (session_auth_behavior self) then
       do secret <- generate_session_based_secret;
       ret (secret, VNone)
     else ret (saas_authorization self, VNone));
  do auth_headers <- lift (Py.getitem (fst secret_adapter) "headers");
  do auth_params <- lift (Py.getitem (fst secret_adapter) "params");
  ret (auth_headers, auth_params, snd secret_adapter).

(** The part shared by the detail and the software call: attach the
    authorization, execute, parse. *)
Definition authorized_call (api_call_specification : value) : M W value :=
  do auth <- attach_saas_authorization api_call_specification;
  let '(auth_headers, auth_params, ssl_adapter) := auth in
  do spec <- lift (apply_authorization api_call_specification
                     auth_headers auth_params ssl_adapter);
  do response <- request spec;
  lift (response_to_object X (text response)).

Definition wrap (cls : exn_class) (e : exn) : exn :=
  Exn cls (VStr (str X e)).

Definition get_detail_of_item (list_response_item : value) : M W value :=
  if truthy (detail_behavior self) then
    try_except
      (update_rendering_context [("list_response_item", list_response_item)];;
       do api_call_specification <-
         reading (build_call_specs X (detail_behavior self));
       do detail_response_object <- authorized_call api_call_specification;
       match detail_response_object with
       | VDict d => ret (VDict (dict_set d "list_response_item" list_response_item))
       | _ => ret detail_response_object
       end)
      (fun exc => raise (wrap ManagedConnectorDetailsGetException exc))
  else ret list_response_item.

(** *** Software and SaaS enrichment *)

Definition _call_endpoint_for_software : M W value :=
  do api_call_specification <-
    reading (build_call_specs X (software_behavior self));
  authorized_call api_call_specification.

Definition _get_software_response (default_response : value) : M W value :=
  do url <- lift (Py.get (software_behavior self) "url" VNone);
  do valid_api_spec <-
    (if truthy url then lift (Py.get (software_behavior self) "http_method" VNone)
     else ret url);
  if truthy valid_api_spec then _call_endpoint_for_software
  else ret default_response.

(** One pass of the loop of [_build_list_of_software]. *)
Definition software_entry (item : value) : M W value :=
  update_rendering_context [("software_response_item", item)];;
  do name_control <- lift (Py.getitem (software_behavior self) "name");
  do name <- reading (render_to_native X name_control);
  do version_control <- lift (Py.getitem (software_behavior self) "version");
  do native_version <- reading (render_to_native X version_control);
  do version <-
    (match native_version with
     | VNone => ret VNone
     | _ =>
         do version_control' <- lift (Py.getitem (software_behavior self) "version");
         do rendered <- reading (render_to_string X version_control');
         ret (VStr rendered)
     end);
  ret (VDict [("name", name); ("version", version); ("path", VNone)]).

Fixpoint software_entries (items : list value) (list_of_software : list value)
  : M W (list value) :=
  match items with
  | [] => ret list_of_software
  | item :: rest =>
      do entry <- software_entry item;
      software_entries rest (list_of_software ++ [entry])
  end.

Definition _build_list_of_software (software_response : value) : M W value :=
  update_rendering_context [("software_response", software_response)];;
  do result_control <- lift (Py.getitem (software_behavior self) "result");
  do result <- reading (render_to_native X result_control);
  do items <- lift (Py.iter result);
  do list_of_software <- software_entries items [];
  ret (VList list_of_software).

(** [url and http_method] of [_get_software_response] is false: the
    software response is the record itself. *)
Definition record_is_software_response : bool :=
  match software_behavior self with
  | VDict d => negb (truthy (dget d "url" VNone) && truthy (dget d "http_method" VNone))
  | _ => false
  end.

(** A record is changed in place (the two assignments [item_details[...] = ...]),
    so every entry of the rendering context that holds this very object
    shows the change:
    - [detail_response], once [_add_desktop_software] has put the record
      there ([aliased]);
    - [software_response], when in addition there is no software endpoint:
      [_get_software_response] has returned the record and
      [_build_list_of_software] has put it there;
    - the page under [list_response], when there is no detail behaviour:
      [get_detail_of_item] has returned [list_response_item], an object of
      the page that the renderer handed out. *)
Definition changed_in_place (aliased : bool) (before after : value) : M W unit :=
  (if aliased then update_rendering_context [("detail_response", after)] else ret tt);;
  (if aliased && record_is_software_response
   then update_rendering_context [("software_response", after)] else ret tt);;
  if truthy (detail_behavior self) then ret tt
  else
    do page <- reading (fun c => Ok (c !! "list_response"));
    match page with
    | Some list_response =>
        update_rendering_context
          [("list_response", fst (replace_first before after list_response))]
    | None => ret tt
    end.

Definition _add_list_of_software (aliased : bool) (item_details software_list : value)
  : M W value :=
  if truthy software_list then
    do item_details' <- lift (Py.setitem item_details "software" software_list);
    changed_in_place aliased item_details item_details';;
    ret item_details'
  else ret item_details.

Definition software_enabled : Res bool :=
  match software_behavior self with
  | VNone => Ok false
  | behavior =>
      match Py.get behavior "enabled" VNone with
      | Ok enabled => Ok (truthy enabled)
      | Raise e => Raise e
      end
  end.

(** Returns [item_details] as the call leaves it. *)
Definition _add_desktop_software (item_details : value) : M W value :=
  try_except
    (do enabled <- lift software_enabled;
     if enabled then
       update_rendering_context [("detail_response", item_details)];;
       do software_response <- _get_software_response item_details;
       do list_of_software <- _build_list_of_software software_response;
       _add_list_of_software true item_details list_of_software
     else ret item_details)
    (fun exc => raise (wrap ManagedConnectorSoftwareGetException exc)).

Definition saas_block (d : list (string * value)) : list (string * value) :=
  let saas := [("sync_key", dget d "sync_key" VNone)] in
  let selected_saas_id := dget d "selected_saas_id" VNone in
  let saas :=
    if truthy selected_saas_id
    then dict_set saas "selected_saas_id" selected_saas_id else saas in
  let saas_name := dget d "name" VNone in
  if truthy saas_name then dict_set saas "name" saas_name else saas.

Definition _add_saas_information (aliased : bool) (item_details : value)
  : M W value :=
  try_except
    (match saas_behavior self with
     | VDict d =>
         if truthy (dget d "enabled" VNone) && truthy (dget d "sync_key" VNone)
         then
           do item_details' <-
             lift (Py.setitem item_details "saas" (VDict (saas_block d)));
           changed_in_place aliased item_details item_details';;
           ret item_details'
         else ret item_details
     | _ => ret item_details
     end)
    (fun exc => raise (wrap ManagedConnectorSaaSGetException exc)).

(** *** The pagination generator *)

(** A generator is run together with the loop that consumes it: [body] is
    what the consumer does with one yielded object before it asks for the
    next one.  [emitted] lists what the consumer made of the objects,
    [outcome] is the exception the run ended with, if any. *)
Record Run (Out : Type) : Type := {
  emitted : list Out;
  outcome : option exn;
  final : State W
}.
Arguments Build_Run {Out} _ _ _.
Arguments emitted {Out} _.
Arguments outcome {Out} _.
Arguments final {Out} _.

Definition MAX_ITERATIONS : nat := 1000.

Inductive page : Type :=
| BreakEarly
| Page (result : value).

Record controls : Type := {
  pagination_dict : value;
  break_early_control : value;
  add_if_control : value;
  result_control : value
}.

(** "Pull the controls out" *)
Definition pull_controls : Res controls :=
  match Py.get (list_behavior self) "pagination" (VDict []) with
  | Raise e => Raise e
  | Ok pagination =>
      match Py.get pagination "break_early" VNone with
      | Raise e => Raise e
      | Ok break_early =>
          match Py.get pagination "add_if" VNone with
          | Raise e => Raise e
          | Ok add_if =>
              match Py.get (list_behavior self) "result" VNone with
              | Raise e => Raise e
              | Ok result => Ok (Build_controls pagination break_early add_if result)
              end
          end
      end
  end.

Definition add_pagination_extras (ctl : controls) (api_call_specification : value)
  : M W value :=
  do add_if <- reading (render_to_native X (add_if_control ctl));
  if truthy add_if then
    do extra_headers <- render_templates (pagination_dict ctl) "headers";
    do extra_params <- render_templates (pagination_dict ctl) "params";
    do spec1 <- lift (update_field api_call_specification "headers" extra_headers);
    lift (update_field spec1 "params" extra_params)
  else ret api_call_specification.

(** Authorization of a list request: [(headers, params, ssl_adapter)]. *)
Definition list_authorization (iam_credentials api_call_specification : value)
  : M W (value * value * value) :=
  if truthy iam_credentials then
    do iam_call_specification <-
      lift (Py.update api_call_specification iam_credentials);
    do kw <- lift (Py.kwargs iam_call_specification);
    do iam_session_secret <- acting (get_aws_session_secret X kw);
    do auth_headers <- lift (Py.getitem iam_session_secret "headers");
    do auth_params <- lift (Py.getitem iam_session_secret "params");
    ret (auth_headers, auth_params, VNone)
  else attach_saas_authorization api_call_specification.

Definition shim_error (list_response : value) : M W unit :=
  if truthy list_response then
    do marked <- lift (Py.contains "shim_error_message" list_response);
    if marked : bool then
      do message <- lift (Py.getitem list_response "shim_error_message");
      raise (Exn HTTPError message)
    else ret tt
  else ret tt.

(** The body of the [while] loop up to the rendered [result]. *)
Definition fetch_page (ctl : controls) (iam_credentials : value) : M W page :=
  do api_call_specification <-
    reading (build_call_specs X (list_behavior self));
  do stop <-
    (if truthy (pagination_dict ctl) then
       do break_early <- reading (render_to_native X (break_early_control ctl));
       ret (truthy break_early)
     else ret false);
  if stop : bool then ret BreakEarly
  else
    do spec1 <-
      (if truthy (pagination_dict ctl)
       then add_pagination_extras ctl api_call_specification
       else ret api_call_specification);
    do auth <- list_authorization iam_credentials spec1;
    let '(auth_headers, auth_params, ssl_adapter) := auth in
    do spec2 <- lift (apply_authorization spec1 auth_headers auth_params ssl_adapter);
    do response <- request spec2;
    do list_response <- lift (response_to_object X (text response));
    shim_error list_response;;
    update_rendering_context
      [("list_response", list_response);
       ("list_response_headers", headers response);
       ("list_response_links", links response)];;
    do result <- reading (render_to_native X (result_control ctl));
    ret (Page result).

(** [for entity in result: yield entity], with the consumer's [body] run at
    each [yield].  An exception of the body is the consumer's own and ends
    the run. *)
Fixpoint emit {Out} (body : value -> M W Out) (entities : list value) (s : State W)
  : list Out * option exn * State W :=
  match entities with
  | [] => ([], None, s)
  | entity :: rest =>
      match body entity s with
      | (Ok out, s1) =>
          let '(outs, e, s2) := emit body rest s1 in (out :: outs, e, s2)
      | (Raise e, s1) => ([], Some e, s1)
      end
  end.

(** How the [try] block was left. *)
Inductive try_exit : Type :=
| Completed               (* the loop ended: guard false or [break] *)
| Caught (e : exn)        (* raised inside the [try] block *)
| Abandoned (e : exn).    (* raised by the consumer between two yields *)

Definition empty_in_beginning : exn :=
  Exn ManagedConnectorListGetEmptyInBeginningException VNone.

Definition set_iteration (iteration : nat) (s : State W) : State W :=
  Build_State
    (update_context [("iteration", VInt (Z.of_nat iteration))] (rendering_context s))
    (world s).

(** The [while] loop.  One unit of [fuel] is spent each time the loop body
    is entered; [None] means the fuel ran out with the guard still true.
    The result carries the value of [iteration] at the exit. *)
Fixpoint while_loop {Out} (body : value -> M W Out) (ctl : controls)
    (iam_credentials : value) (skip_empty_response : bool)
    (fuel iteration : nat) (s : State W)
  : option (list Out * try_exit * nat * State W) :=
  if (iteration <? MAX_ITERATIONS)%nat then
    match fuel with
    | O => None
    | S fuel' =>
        match fetch_page ctl iam_credentials s with
        | (Raise e, s1) => Some ([], Caught e, iteration, s1)
        | (Ok BreakEarly, s1) => Some ([], Completed, iteration, s1)
        | (Ok (Page result), s1) =>
            if negb (truthy result) then
              if (iteration =? 0)%nat && negb skip_empty_response
              then Some ([], Caught empty_in_beginning, iteration, s1)
              else Some ([], Completed, iteration, s1)
            else
              match Py.iter result with
              | Raise e => Some ([], Caught e, iteration, s1)
              | Ok entities =>
                  match emit body entities s1 with
                  | (outs, Some e, s2) => Some (outs, Abandoned e, iteration, s2)
                  | (outs, None, s2) =>
                      match while_loop body ctl iam_credentials skip_empty_response
                              fuel' (S iteration) (set_iteration (S iteration) s2) with
                      | Some (outs', ex, it, s3) => Some (outs ++ outs', ex, it, s3)
                      | None => None
                      end
                  end
              end
        end
    end
  else Some ([], Completed, iteration, s).

(** The two [except] clauses of [get_list_of_items]. *)
Definition classify (iteration : nat) (exc : exn) : exn :=
  if is_class ManagedConnectorListGetEmptyInBeginningException exc then exc
  else if (iteration =? 0)%nat
       then wrap ManagedConnectorListGetInBeginningException exc
       else wrap ManagedConnectorListGetInMiddleException exc.

Definition max_iteration : exn :=
  Exn ManagedConnectorListMaxIterationException (VStr "Reached max iterations").

Definition start_context (s : State W) : State W :=
  Build_State
    (update_context
       [("iteration", VInt 0); ("list_response", VDict []);
        ("list_response_headers", VDict []); ("list_response_links", VDict [])]
       (rendering_context s))
    (world s).

Definition get_list_of_items_fuel {Out} (fuel : nat) (body : value -> M W Out)
    (iam_credentials : value) (skip_empty_response : bool) (s : State W)
  : option (Run Out) :=
  let s0 := start_context s in
  match pull_controls with
  | Raise e => Some (Build_Run [] (Some (classify 0 e)) s0)
  | Ok ctl =>
      match while_loop body ctl iam_credentials skip_empty_response fuel 0 s0 with
      | None => None
      | Some (outs, Caught e, iteration, s1) =>
          Some (Build_Run outs (Some (classify iteration e)) s1)
      | Some (outs, Abandoned e, _, s1) => Some (Build_Run outs (Some e) s1)
      | Some (outs, Completed, iteration, s1) =>
          if (MAX_ITERATIONS <=? iteration)%nat
          then Some (Build_Run outs (Some max_iteration) s1)
          else Some (Build_Run outs None s1)
      end
  end.

(** [MAX_ITERATIONS] units of fuel are enough ([get_list_of_items_total]
    below), so the default of this [match] is never taken. *)
Definition get_list_of_items {Out} (body : value -> M W Out)
    (iam_credentials : value) (skip_empty_response : bool) (s : State W)
  : Run Out :=
  match get_list_of_items_fuel MAX_ITERATIONS body iam_credentials
          skip_empty_response s with
  | Some r => r
  | None => Build_Run [] None s
  end.

(** *** Enrichment of the records, and credential rotation *)

(** What a generator of this class hands to its consumer: a record, a
    [(record, error)] tuple, or a list of such objects. *)
#[warnings="-register-all"]
Inductive yielded : Type :=
| YRecord (item_details : value)
| YError (list_response_item : value) (error : string)
| YList (items : list yielded).

Definition is_single (y : yielded) : bool :=
  match y with
  | YRecord _ | YError _ _ => true
  | YList _ => false
  end.

Definition enrichment_failure (e : exn) : bool :=
  is_class ManagedConnectorSoftwareGetException e
  || is_class ManagedConnectorDetailsGetException e
  || is_class ManagedConnectorSaaSGetException e.

(** The three enrichment steps of the [try] block of [_load_list]. *)
Definition enrich (list_response_item : value) : M W value :=
  do item_details <- get_detail_of_item list_response_item;
  do item_details1 <- _add_desktop_software item_details;
  _add_saas_information
    (match software_enabled with Ok b => b | Raise _ => false end)
    item_details1.

(** The body of the [for] loop of [_load_list]: the object it yields for
    one record. *)
Definition load_list_item (list_response_item : value) : M W yielded :=
  fun s =>
    match enrich list_response_item s with
    | (Ok item_details, s') => (Ok (YRecord item_details), s')
    | (Raise e, s') =>
        if enrichment_failure e
        then (Ok (YError list_response_item (str X e)), s')
        else (Raise e, s')
    end.

(** [deliver] is what the consumer of [_load_list] does with a yielded
    object before it asks for the next one. *)
Definition handing_over (deliver : yielded -> State W -> State W)
    (list_response_item : value) : M W yielded :=
  fun s =>
    match load_list_item list_response_item s with
    | (Ok y, s') => (Ok y, deliver y s')
    | (Raise e, s') => (Raise e, s')
    end.

Definition _load_list (deliver : yielded -> State W -> State W)
    (iam_credentials : value) (skip_empty_response : bool) (s : State W)
  : Run yielded :=
  get_list_of_items (handing_over deliver) iam_credentials skip_empty_response s.

(** [list(...)] takes the objects and does nothing else. *)
Definition collecting : yielded -> State W -> State W := fun _ s => s.

(** The [for] loop of [_load_iam_list] over [iam.get_iam_credentials()].
    The credential source may be unbounded, hence the [fuel]: one unit per
    credential set asked for.  The result carries the lists handed over,
    the exception raised or else [iam_records], and [iteration]. *)
Fixpoint rotate (deliver : yielded -> State W -> State W)
    (fuel iteration iam_records : nat) (s : State W)
  : option (list yielded * Res nat * nat * State W) :=
  match fuel with
  | O => None
  | S fuel' =>
      match acting (get_iam_credentials X) s with
      | (Raise e, s1) => Some ([], Raise e, iteration, s1)
      | (Ok None, s1) => Some ([], Ok iam_records, iteration, s1)
      | (Ok (Some iam_credentials), s1) =>
          let pass := _load_list collecting iam_credentials true s1 in
          match outcome pass with
          | Some e => Some ([], Raise e, iteration, final pass)
          | None =>
              let iam_response := emitted pass in
              let s2 := deliver (YList iam_response) (final pass) in
              match rotate deliver fuel' (S iteration)
                      (iam_records + length iam_response) s2 with
              | Some (ys, r, it, s3) => Some (YList iam_response :: ys, r, it, s3)
              | None => None
              end
          end
      end
  end.

(** The [except] clause of [_load_iam_list]. *)
Definition classify_iam (iteration : nat) (exc : exn) : exn :=
  if (iteration =? 0)%nat
  then wrap ManagedConnectorListGetInBeginningException exc
  else wrap ManagedConnectorListGetInMiddleException exc.

(** The [try] block of [_load_iam_list]. *)
Definition rotating_passes (deliver : yielded -> State W -> State W)
    (fuel : nat) (s : State W)
  : option (list yielded * Res nat * nat * State W) :=
  match Py.getitem (saas_authorization self) "credential_id" with
  | Raise e => Some ([], Raise e, 0, s)
  | Ok credential_id =>
      match acting (AWSIAM X credential_id) s with
      | (Raise e, s1) => Some ([], Raise e, 0, s1)
      | (Ok _, s1) => rotate deliver fuel 0 0 s1
      end
  end.

Definition _load_iam_list (deliver : yielded -> State W -> State W)
    (fuel : nat) (s : State W)
  : option (Run yielded) :=
  match rotating_passes deliver fuel s with
  | None => None
  | Some (ys, Raise e, iteration, s1) =>
      Some (Build_Run ys (Some (classify_iam iteration e)) s1)
  | Some (ys, Ok iam_records, _, s1) =>
      let skip_empty_response := (0 <? iam_records)%nat in
      let default_pass := _load_list deliver VNone skip_empty_response s1 in
      Some (Build_Run (ys ++ emitted default_pass) (outcome default_pass)
              (final default_pass))
  end.

End Run.

Arguments Build_Run {W Out} _ _ _.
Arguments emitted {W Out} _.
Arguments outcome {W Out} _.
Arguments final {W Out} _.

(** ** Vocabulary of the statements *)

(** The input as the loader sees it after decoding a string. *)
Definition decodes_to (json_loads : string -> Res value)
    (v : value) (d : list (string * value)) : Prop :=
  v = VDict d ∨ ∃ s, v = VStr s ∧ json_loads s = Ok (VDict d).

Definition nonempty_mapping (d : list (string * value)) (k : string) : Prop :=
  ∃ m, dict_get d k = Some (VDict m) ∧ m ≠ [].

Definition is_session (d : list (string * value)) : Prop :=
  dget d "type" VNone = VStr "session".

(** A computation that leaves the state as it found it. *)
Definition stateless {W A} (m : M W A) : Prop :=
  ∀ s r s', m s = (r, s') → s' = s.

Section Pages.

Context {W : Type} (X : Externals W) (self : Connector).

(** [n] passes of the loop body, from [iteration] on, each of which fetched a
    non-empty page and yielded all of it: the objects handed over and the
    state in which the loop guard is tested next. *)
Fixpoint full_pages {Out} (body : value → M W Out) (ctl : controls)
    (iam_credentials : value) (n iteration : nat) (s : State W)
  : option (list Out * State W) :=
  match n with
  | O => Some ([], s)
  | S n' =>
      match fetch_page X self ctl iam_credentials s with
      | (Ok (Page result), s1) =>
          if truthy result then
            match Py.iter result with
            | Ok entities =>
                match emit body entities s1 with
                | (outs, None, s2) =>
                    match full_pages body ctl iam_credentials n' (S iteration)
                            (set_iteration (S iteration) s2) with
                    | Some (outs', s3) => Some (outs ++ outs', s3)
                    | None => None
                    end
                | (_, Some _, _) => None
                end
            | Raise _ => None
            end
          else None
      | _ => None
      end
  end.

End Pages.

Definition is_batch (y : yielded) : bool :=
  match y with
  | YList items => forallb is_single items
  | _ => false
  end.

Definition objects_in (y : yielded) : nat :=
  match y with
  | YList items => length items
  | _ => 1
  end.

Definition batch_total (ys : list yielded) : nat :=
  fold_right (fun y n => objects_in y + n) 0 ys.

(** What [_load_list] may yield for the record [r]. *)
Definition yielded_for (r : value) (y : yielded) : Prop :=
  (∃ item_details, y = YRecord item_details) ∨ (∃ error, y = YError r error).

Section Streams.

Context {W : Type} (X : Externals W) (self : Connector).

(** [n] passes of the loop body of [get_list_of_items], from [iteration]
    on, told page by page and without the generator: each pass fetched a
    page whose result is true and a sequence, and the consumer took its
    entities one after the other, [consume] being what it does with one.
    The entities of each page, and the state in which the loop guard is
    tested next. *)
Fixpoint listed_pages (consume : value → State W → State W) (ctl : controls)
    (iam_credentials : value) (n iteration : nat) (s : State W)
  : option (list (list value) * State W) :=
  match n with
  | O => Some ([], s)
  | S n' =>
      match fetch_page X self ctl iam_credentials s with
      | (Ok (Page result), s1) =>
          if truthy result then
            match Py.iter result with
            | Ok entities =>
                let s2 := fold_left (fun s' entity => consume entity s') entities s1 in
                match listed_pages consume ctl iam_credentials n' (S iteration)
                        (set_iteration (S iteration) s2) with
                | Some (pages, s3) => Some (entities :: pages, s3)
                | None => None
                end
            | Raise _ => None
            end
          else None
      | _ => None
      end
  end.

(** The object owed to the consumer for the record [r], given how the three
    enrichment steps ended: the enriched record, or the pair of the record
    as listed and the text of the error. *)
Definition object_for (r : value) (enrichment : Res value) : yielded :=
  match enrichment with
  | Ok item_details => YRecord item_details
  | Raise e => YError r (str X e)
  end.

(** The records of a page enriched one after the other, told without the
    generator: every record gets its object, and is enriched in the state
    the consumer left when it was handed the object of the record before. *)
Fixpoint enriched_page (deliver : yielded → State W → State W)
    (entities : list value) (s : State W) : list yielded * State W :=
  match entities with
  | [] => ([], s)
  | r :: rest =>
      let '(enrichment, s1) := enrich X self r s in
      let y := object_for r enrichment in
      let '(ys, s2) := enriched_page deliver rest (deliver y s1) in
      (y :: ys, s2)
  end.

(** [n] pages listed and enriched, from [iteration] on: the objects owed for
    their records, in order, and the state in which the loop guard is
    tested next. *)
Fixpoint enriched_pages (deliver : yielded → State W → State W) (ctl : controls)
    (iam_credentials : value) (n iteration : nat) (s : State W)
  : option (list yielded * State W) :=
  match n with
  | O => Some ([], s)
  | S n' =>
      match fetch_page X self ctl iam_credentials s with
      | (Ok (Page result), s1) =>
          if truthy result then
            match Py.iter result with
            | Ok entities =>
                let '(ys, s2) := enriched_page deliver entities s1 in
                match enriched_pages deliver ctl iam_credentials n' (S iteration)
                        (set_iteration (S iteration) s2) with
                | Some (ys', s3) => Some (ys ++ ys', s3)
                | None => None
                end
            | Raise _ => None
            end
          else None
      | _ => None
      end
  end.

(** [n] rotating passes of [_load_iam_list] that ran to their end, told
    without the loop over the credentials: a credential set was obtained,
    [_load_list] ran with it and ended without an exception, and the
    consumer was handed the list of everything that pass had yielded.  The
    objects of each pass, and the state after the last list was handed
    over. *)
Fixpoint completed_passes (deliver : yielded → State W → State W)
    (n : nat) (s : State W) : option (list (list yielded) * State W) :=
  match n with
  | O => Some ([], s)
  | S n' =>
      match acting (get_iam_credentials X) s with
      | (Ok (Some iam_credentials), s1) =>
          let pass := _load_list X self collecting iam_credentials true s1 in
          match outcome pass with
          | None =>
              match completed_passes deliver n'
                      (deliver (YList (emitted pass)) (final pass)) with
              | Some (passes, s2) => Some (emitted pass :: passes, s2)
              | None => None
              end
          | Some _ => None
          end
      | _ => None
      end
  end.

End Streams.

(** ** A concrete installation, for the examples

    The API executor counts the requests and answers the [n]-th with the
    object [pages n]; an expression that is a string names a key of the
    rendering context, any other expression is a constant. *)

Module Scenario.

Fixpoint unary (n : nat) : string :=
  match n with
  | O => ""
  | S m => "x" +:+ unary m
  end.

(** Requests made so far, and the credential sets still to come. *)
Definition World : Type := nat * list value.

Definition blank : value := VDict [("headers", VDict []); ("params", VDict [])].

Definition fails_on (behavior : value) (c : gmap string value) : bool :=
  match behavior, c !! "list_response_item" with
  | VDict d, Some (VInt z) =>
      match dict_get d "fail_on" with
      | Some (VInt z') => (z =? z')%Z
      | _ => false
      end
  | _, _ => false
  end.

Definition externals (pages : nat -> value) : Externals World := {|
  build_call_specs := fun behavior c =>
    if fails_on behavior c
    then Raise (Exn ExternalError (VStr "no such item"))
    else Ok blank;
  render_to_native := fun e c =>
    match e with
    | VStr k => Ok (default VNone (c !! k))
    | _ => Ok e
    end;
  render_to_string := fun e c =>
    match e with
    | VStr k => match c !! k with Some (VStr s) => Ok s | _ => Ok k end
    | _ => Ok ""
    end;
  perform_api_request := fun _ w =>
    (Ok {| text := unary (fst w); headers := VDict []; links := VDict [] |},
     (S (fst w), snd w));
  response_to_object := fun t => Ok (pages (String.length t));
  get_secret_by_credential_id := fun _ _ w =>
    (Ok (VDict [("headers", VDict []); ("params", VDict []);
                ("certificates", VNone)]), w);
  get_aws_session_secret := fun _ w => (Ok blank, w);
  init_mtls_ssl_adapter := fun _ => Ok VNone;
  AWSIAM := fun _ w => (Ok tt, w);
  get_iam_credentials := fun w =>
    match snd w with
    | [] => (Ok None, w)
    | c :: rest => (Ok (Some c), (fst w, rest))
    end;
  str := fun e => match exn_error e with VStr s => s | _ => "" end
|}.

Definition connector (list detail : value) : Connector := {|
  ConnectorID := "7";
  saas_authorization := blank;
  oomnitza_authorization := VStr "token";
  session_auth_behavior := VNone;
  list_behavior := list;
  detail_behavior := detail;
  software_behavior := VDict [];
  saas_behavior := VDict []
|}.

Definition start (credentials : list value) : State World :=
  {| rendering_context := ∅; world := (0, credentials) |}.

(** A list behaviour without pagination rules whose result expression selects
    the whole response. *)
Definition plain_list : value := VDict [("result", VStr "list_response")].

(** A list behaviour whose pagination rules always break early. *)
Definition breaking_list : value :=
  VDict [("result", VStr "list_response");
         ("pagination", VDict [("break_early", VBool true)])].

Definition two_then_nothing (n : nat) : value :=
  match n with
  | O => VList [VInt 1; VInt 2]
  | _ => VList []
  end.

Definition always_one (n : nat) : value := VList [VInt 1].

Definition nothing (n : nat) : value := VList [].

(** Request 0 lists the records 5 and 6, request 1 is the detail of 6. *)
Definition five_and_six (n : nat) : value :=
  match n with
  | 0 => VList [VInt 5; VInt 6]
  | 1 => VDict [("name", VStr "six")]
  | _ => VList []
  end.

Definition detail_failing_on_5 : value :=
  VDict [("url", VStr "detail"); ("fail_on", VInt 5)].

(** A session behaviour whose secret is the response itself. *)
Definition session_connector : Connector :=
  set_saas_authorization (VDict [])
    (set_session_auth_behavior
       (VDict [("result",
                VDict [("headers",
                        VList [VDict [("key", VStr "Authorization");
                                      ("value", VStr "response")]])])])
       (connector plain_list (VDict []))).

Definition session_answer (n : nat) : value := VStr "secret-of-the-session".

Definition iam_connector : Connector :=
  set_saas_authorization (VDict [("credential_id", VStr "c")])
    (connector plain_list (VDict [])).

Definition with_saas (v : value) : Connector :=
  set_saas_authorization v (connector plain_list (VDict [])).

Definition with_oomnitza (v : value) : Connector :=
  set_oomnitza_authorization v (connector plain_list (VDict [])).

(** A decoder for the one JSON text the examples use. *)
Definition decode (s : string) : Res value :=
  if String.eqb s "{}" then Ok (VDict [])
  else Raise (Exn ExternalError (VStr "Expecting value")).

(** The consumer that only takes the entities. *)
Definition taking : value → M World value := fun entity => ret entity.

Definition plain_controls : controls :=
  Build_controls (VDict []) VNone VNone (VStr "list_response").

(** One record, then a response that carries the shim's error marker. *)
Definition shim_after_one (n : nat) : value :=
  match n with
  | 0 => VList [VInt 1]
  | _ => VDict [("shim_error_message", VStr "upstream is down")]
  end.

(** Software enrichment without a software endpoint, and SaaS linkage. *)
Definition software_connector : Connector := {|
  ConnectorID := "7";
  saas_authorization := blank;
  oomnitza_authorization := VStr "token";
  session_auth_behavior := VNone;
  list_behavior := plain_list;
  detail_behavior := VDict [];
  software_behavior :=
    VDict [("enabled", VBool true); ("result", VStr "software_response");
           ("name", VStr "software_response_item");
           ("version", VStr "software_response_item")];
  saas_behavior :=
    VDict [("enabled", VBool true); ("sync_key", VStr "k"); ("name", VStr "Slack")]
|}.

Definition one_host (n : nat) : value :=
  match n with
  | 0 => VList [VDict [("vim", VStr "9.1")]]
  | _ => VList []
  end.

End Scenario.

(** ** The sync side: platform token, local inputs, [_load_records] *)

(** The collaborators of the sync: methods of [self.OomnitzaConnector] and
    of [BaseConnector], and [traceback.format_exc].  They act on the outside
    world. *)
Record Platform (W : Type) : Type := {
  get_token_by_token_id : value -> W -> Res value * W;
  (* self.OomnitzaConnector.settings['api_token'] = token *)
  set_api_token : value -> W -> W;
  authenticate : W -> Res unit * W;
  gen_portion_id : W -> Res value * W;
  get_multi_str_input_value : W -> Res value * W;
  (* traceback.format_exc() while the exception is being handled *)
  format_exc : exn -> string;
  (* arguments: connector id, portion id, error, multi_str_input_value,
     is_fatal, test_run *)
  create_synthetic_finalized_failed_portion :
    string -> value -> string -> value -> bool -> bool -> W -> Res unit * W;
  (* arguments: connector id, portion id, multi_str_input_value *)
  create_synthetic_finalized_empty_portion :
    string -> value -> value -> W -> Res unit * W;
  (* arguments: the record, error, is_fatal *)
  send_to_oomnitza : value -> string -> bool -> W -> Res unit * W;
  finalize_processed_portion : W -> Res unit * W
}.
Arguments get_token_by_token_id {W} _ _ _.
Arguments set_api_token {W} _ _ _.
Arguments authenticate {W} _ _.
Arguments gen_portion_id {W} _ _.
Arguments get_multi_str_input_value {W} _ _.
Arguments format_exc {W} _ _.
Arguments create_synthetic_finalized_failed_portion {W} _ _ _ _ _ _ _ _.
Arguments create_synthetic_finalized_empty_portion {W} _ _ _ _ _.
Arguments send_to_oomnitza {W} _ _ _ _ _.
Arguments finalize_processed_portion {W} _ _.

(** The settings and attributes of the connector that [_load_records] reads
    besides those of [Connector]. *)
Record SyncSettings : Type := {
  inputs_from_cloud : value;
  local_inputs : value;     (* settings.get("local_inputs"), None when absent *)
  test_run : value          (* settings.get('test_run') *)
}.

Definition local_inputs_message (id : string) : string :=
  "Managed connector #" +:+ id +:+ ": local inputs have invalid format. Exiting".

Section Sync.

Context {W : Type} (X : Externals W) (P : Platform W) (self : Connector).
Variable json_loads : string -> Res value.
Variable cfg : SyncSettings.

Local Open Scope run_scope.

Definition get_oomnitza_auth_for_sync : M W value :=
  match oomnitza_authorization self with
  | VDict d =>
      do token_id <- lift (Py.getitem (VDict d) "token_id");
      acting (get_token_by_token_id P token_id)
  | access_token => ret access_token
  end.

Definition get_local_inputs : Res value :=
  match local_inputs cfg with
  | VStr s => json_loads s
  | VDict d => Ok (VDict d)
  | _ => Raise (Exn ConfigError (VStr (local_inputs_message (ConnectorID self))))
  end.

(** The comprehension over [self.inputs_from_cloud.items()]. *)
Fixpoint render_inputs (items : list (string * value)) (acc : list (string * value))
  : M W (list (string * value)) :=
  match items with
  | [] => ret acc
  | (k, v) :: rest =>
      do template <- lift (Py.get v "value" VNone);
      do rendered <- reading (render_to_string X template);
      render_inputs rest (dict_set acc k (VStr rendered))
  end.

(** What [_load_records] does before its [try] block. *)
Definition prepare_sync : M W unit :=
  do cloud <-
    (match inputs_from_cloud cfg with
     | VDict d => render_inputs d []
     | _ => raise (Exn AttributeError (VStr "object has no attribute 'items'"))
     end);
  do inputs_from_local <- lift get_local_inputs;
  do inputs <- lift (Py.update (VDict cloud) inputs_from_local);
  update_rendering_context [("inputs", inputs)];;
  do oomnitza_access_token <- get_oomnitza_auth_for_sync;
  (fun s => (Ok tt, Build_State (rendering_context s)
                      (set_api_token P oomnitza_access_token (world s))));;
  acting (authenticate P).





End Sync.

(** ** Vocabulary of the further properties *)

(** The four exceptions of the list phase, those [_load_records] handles. *)
Definition list_phase (e : exn) : bool :=
  is_class ManagedConnectorListGetInBeginningException e
  || is_class ManagedConnectorListGetInMiddleException e
  || is_class ManagedConnectorListGetEmptyInBeginningException e
  || is_class ManagedConnectorListMaxIterationException e.

(** A computation that writes no key of the rendering context outside
    [keys]. *)
Definition writes_only {W A} (keys : list string) (m : M W A) : Prop :=
  ∀ s r s' k, m s = (r, s') → k ∉ keys →
    rendering_context s' !! k = rendering_context s !! k.

Definition session_keys : list string := ["response"; "response_headers"].

Definition page_keys : list string :=
  ["list_response"; "list_response_headers"; "list_response_links";
   "response"; "response_headers"].

Definition enrichment_keys : list string :=
  ["list_response_item"; "detail_response"; "software_response";
   "software_response_item"; "response"; "response_headers"; "list_response"].

(** A dictionary: every key occurs once. *)
Definition keys_once (d : list (string * value)) : Prop := NoDup (map fst d).

(** [m] laid over [d]: the entries of [m], and those of [d] under the other
    keys. *)
Definition overlaid (d m r : list (string * value)) : Prop :=
  ∀ k, dict_get r k = match dict_get m k with
                      | Some v => Some v
                      | None => dict_get d k
                      end.

(** The condition under which [_add_saas_information] attaches its block. *)
Definition saas_enabled (self : Connector) : bool :=
  match saas_behavior self with
  | VDict d => truthy (dget d "enabled" VNone) && truthy (dget d "sync_key" VNone)
  | _ => false
  end.

(** The condition under which [_get_software_response] calls an endpoint. *)
Definition software_endpoint (self : Connector) : bool :=
  match software_behavior self with
  | VDict d => truthy (dget d "url" VNone) && truthy (dget d "http_method" VNone)
  | _ => false
  end.

(** A computation that does not act on the outside world. *)
Definition no_action {W A} (m : M W A) : Prop :=
  ∀ s r s', m s = (r, s') → world s' = world s.

(** An entry of the list [_build_list_of_software] builds. *)
Definition software_entry_shape (entry : value) : Prop :=
  ∃ name version,
    entry = VDict [("name", name); ("version", version); ("path", VNone)]
    ∧ (version = VNone ∨ ∃ t, version = VStr t).

(** [f] applied to what a computation returns. *)
Definition mapped {W A B} (f : A → B) (m : M W A) : M W B :=
  fun s =>
    match m s with
    | (Ok a, s') => (Ok (f a), s')
    | (Raise e, s') => (Raise e, s')
    end.

(** ** The Zendesk connector (connectors/zendesk.py) *)

Module Zendesk.

(** What the connector uses of [UserConnector] and of a response: the URL
    built from the template, [self.get], [raise_for_status] and [json]. *)
Record Api (W R : Type) : Type := {
  (* self.url_template.format(path) *)
  format_url : string -> Res value;
  get : value -> W -> Res R * W;
  raise_for_status : R -> Res unit;
  json : R -> Res value
}.
Arguments format_url {W R} _ _.
Arguments get {W R} _ _ _.
Arguments raise_for_status {W R} _ _.
Arguments json {W R} _ _.

Section Connector.

Context {W R : Type} (api : Api W R).
Variable field_mappings : value.
(** What the consumer does with a user before it asks for the next one. *)
Variable deliver : value -> W -> W.

(** The three statements at the head of both [while] loops. *)
Definition fetch (url : value) (w : W) : Res value * W :=
  match get api url w with
  | (Raise e, w') => (Raise e, w')
  | (Ok response, w') =>
      match raise_for_status api response with
      | Raise e => (Raise e, w')
      | Ok _ => (json api response, w')
      end
  end.

(** ['source' in mapping and mapping['source'] == 'organization_id'] *)
Definition maps_organization (mapping : value) : Res bool :=
  match Py.contains "source" mapping with
  | Raise e => Raise e
  | Ok false => Ok false
  | Ok true =>
      match Py.getitem mapping "source" with
      | Raise e => Raise e
      | Ok (VStr "organization_id") => Ok true
      | Ok _ => Ok false
      end
  end.

(** The [for] loop over [self.field_mappings.items()], left by [break]. *)
Fixpoint mapped_organization (mappings : list (string * value)) : Res bool :=
  match mappings with
  | [] => Ok false
  | (_, mapping) :: rest =>
      match maps_organization mapping with
      | Raise e => Raise e
      | Ok true => Ok true
      | Ok false => mapped_organization rest
      end
  end.

(** A list or a mapping cannot be the key of a dictionary. *)
Definition hashable (v : value) : bool :=
  match v with
  | VList _ | VDict _ => false
  | _ => true
  end.

(** Two keys of a dictionary are the same key when Python finds them
    equal; [True] is the key [1] and [False] the key [0]. *)
Definition key_of (v : value) : value :=
  match v with
  | VBool b => VInt (if b then 1 else 0)
  | _ => v
  end.

Definition same_key (a b : value) : bool :=
  match key_of a, key_of b with
  | VNone, VNone => true
  | VInt x, VInt y => (x =? y)%Z
  | VStr x, VStr y => String.eqb x y
  | _, _ => false
  end.

(** [organization_map]: a dictionary whose keys are the ids as the
    responses give them, which need not be strings. *)
Definition Organizations : Type := list (value * value).

(** [organization_map.get(k)] *)
Fixpoint organizations_get (organization_map : Organizations) (k : value)
  : option value :=
  match organization_map with
  | [] => None
  | (k', v) :: rest => if same_key k' k then Some v else organizations_get rest k
  end.

(** [organization_map[k] = v]: a key already there keeps its place and is
    given the new value. *)
Fixpoint organizations_set (organization_map : Organizations) (k v : value)
  : Organizations :=
  match organization_map with
  | [] => [(k, v)]
  | (k', v') :: rest =>
      if same_key k' k then (k', v) :: rest
      else (k', v') :: organizations_set rest k v
  end.

(** The [for] loop over the organizations of a page.  The value of an
    assignment is evaluated before its target. *)
Fixpoint store_organizations (organizations : list value)
    (organization_map : Organizations) : Res Organizations :=
  match organizations with
  | [] => Ok organization_map
  | organization :: rest =>
      match Py.getitem organization "name" with
      | Raise e => Raise e
      | Ok name =>
          match Py.getitem organization "id" with
          | Raise e => Raise e
          | Ok id =>
              if hashable id
              then store_organizations rest (organizations_set organization_map id name)
              else Raise (Exn TypeError (VStr "unhashable type"))
          end
      end
  end.

(** The [while url] loop of [_load_organizations_if_needed]; one unit of
    [fuel] per entry of its body. *)
Fixpoint organizations_loop (fuel : nat) (url : value)
    (organization_map : Organizations) (w : W)
  : option (Res Organizations * W) :=
  if truthy url then
    match fuel with
    | O => None
    | S fuel' =>
        match fetch url w with
        | (Raise e, w1) => Some (Raise e, w1)
        | (Ok response, w1) =>
            match Py.contains "organizations" response with
            | Raise e => Some (Raise e, w1)
            | Ok false => organizations_loop fuel' VNone organization_map w1
            | Ok true =>
                match Py.getitem response "organizations" with
                | Raise e => Some (Raise e, w1)
                | Ok organizations =>
                    match Py.iter organizations with
                    | Raise e => Some (Raise e, w1)
                    | Ok l =>
                        match store_organizations l organization_map with
                        | Raise e => Some (Raise e, w1)
                        | Ok organization_map' =>
                            match Py.getitem response "next_page" with
                            | Raise e => Some (Raise e, w1)
                            | Ok next_page =>
                                organizations_loop fuel' next_page organization_map' w1
                            end
                        end
                    end
                end
            end
        end
    end
  else Some (Ok organization_map, w).

(** Returns [None], or the dictionary from organization id to organization
    name. *)
Definition _load_organizations_if_needed (fuel : nat) (w : W)
  : option (Res (option Organizations) * W) :=
  match field_mappings with
  | VDict mappings =>
      match mapped_organization mappings with
      | Raise e => Some (Raise e, w)
      | Ok false => Some (Ok None, w)
      | Ok true =>
          match format_url api "v2/organizations.json" with
          | Raise e => Some (Raise e, w)
          | Ok url =>
              match organizations_loop fuel url [] w with
              | None => None
              | Some (Raise e, w') => Some (Raise e, w')
              | Some (Ok organization_map, w') => Some (Ok (Some organization_map), w')
              end
          end
      end
  | _ => Some (Raise (Exn AttributeError (VStr "object has no attribute 'items'")), w)
  end.

(** The name the organizations listed give to [id]: that of the last one
    listed under this id. *)
Fixpoint listed_name (organizations : list value) (id : value) : option value :=
  match organizations with
  | [] => None
  | organization :: rest =>
      match listed_name rest id with
      | Some name => Some name
      | None =>
          match Py.getitem organization "id", Py.getitem organization "name" with
          | Ok id', Ok name => if same_key id' id then Some name else None
          | _, _ => None
          end
      end
  end.

(** [user['organization_id'] =
     organization_map.get(user['organization_id'], user['organization_id'])],
    for a map that is an object of the JSON kind. *)
Definition name_organization (organization_map user : value) : Res value :=
  match organization_map with
  | VDict d =>
      match Py.getitem user "organization_id" with
      | Raise e => Raise e
      | Ok id =>
          match id with
          | VStr k => Py.setitem user "organization_id" (dget d k id)
          | VList _ | VDict _ => Raise (Exn TypeError (VStr "unhashable type"))
          | _ => Py.setitem user "organization_id" id
          end
      end
  | _ => Raise (Exn AttributeError (VStr "object has no attribute 'get'"))
  end.

(** The [for] loop over the users of a page: what is yielded, the exception
    that ended it, the world. *)
Fixpoint emit_users (organization_map : value) (users : list value) (w : W)
  : list value * option exn * W :=
  match users with
  | [] => ([], None, w)
  | user :: rest =>
      match (if truthy organization_map
             then name_organization organization_map user
             else Ok user) with
      | Raise e => ([], Some e, w)
      | Ok user' =>
          let '(ys, e, w') := emit_users organization_map rest (deliver user' w) in
          (user' :: ys, e, w')
      end
  end.

(** The [while url] loop of [_load_records]. *)
Fixpoint users_loop (fuel : nat) (organization_map url : value) (w : W)
  : option (list value * option exn * W) :=
  if truthy url then
    match fuel with
    | O => None
    | S fuel' =>
        match fetch url w with
        | (Raise e, w1) => Some ([], Some e, w1)
        | (Ok response, w1) =>
            match Py.contains "users" response with
            | Raise e => Some ([], Some e, w1)
            | Ok false => users_loop fuel' organization_map VNone w1
            | Ok true =>
                match Py.getitem response "users" with
                | Raise e => Some ([], Some e, w1)
                | Ok users =>
                    match Py.iter users with
                    | Raise e => Some ([], Some e, w1)
                    | Ok l =>
                        match emit_users organization_map l w1 with
                        | (ys, Some e, w2) => Some (ys, Some e, w2)
                        | (ys, None, w2) =>
                            match Py.getitem response "next_page" with
                            | Raise e => Some (ys, Some e, w2)
                            | Ok next_page =>
                                match users_loop fuel' organization_map next_page w2 with
                                | Some (ys', e, w3) => Some (ys ++ ys', e, w3)
                                | None => None
                                end
                            end
                        end
                    end
                end
            end
        end
    end
  else Some ([], None, w).

End Connector.

End Zendesk.

(** ** Further concrete installations *)

Module Fixture.

(** Pagination rules that break as soon as a page has been listed. *)
Definition breaking_after_a_page : value :=
  VDict [("result", VStr "list_response");
         ("pagination", VDict [("break_early", VStr "list_response")])].

Definition breaking_controls : controls :=
  Build_controls (VDict [("break_early", VStr "list_response")])
    (VStr "list_response") VNone (VStr "list_response").

(** A result expression that is the number 5. *)
Definition number_result : value := VDict [("result", VInt 5)].

Definition number_controls : controls :=
  Build_controls (VDict []) VNone VNone (VInt 5).

Definition always_shim (n : nat) : value :=
  VDict [("shim_error_message", VStr "upstream is down")].

(** A session behaviour without the [result] it should have. *)
Definition broken_session_connector : Connector :=
  set_saas_authorization (VDict [])
    (set_session_auth_behavior (VDict [("url", VStr "login")])
       (Scenario.connector Scenario.plain_list (VDict []))).

(** The reports made are read off the request counter. *)
Definition platform : Platform Scenario.World := {|
  get_token_by_token_id := fun _ w => (Ok (VStr "token-of-the-id"), w);
  set_api_token := fun _ w => w;
  authenticate := fun w => (Ok tt, w);
  gen_portion_id := fun w => (Ok (VStr "portion"), w);
  get_multi_str_input_value := fun w => (Ok VNone, w);
  format_exc := fun e => match exn_error e with VStr s => s | _ => "" end;
  create_synthetic_finalized_failed_portion := fun _ _ _ _ _ _ w =>
    (Ok tt, (fst w + 100, snd w));
  create_synthetic_finalized_empty_portion := fun _ _ _ w =>
    (Ok tt, (fst w + 200, snd w));
  send_to_oomnitza := fun _ _ _ w => (Ok tt, (fst w + 400, snd w));
  finalize_processed_portion := fun w => (Ok tt, (fst w + 800, snd w))
|}.

Definition settings : SyncSettings := {|
  inputs_from_cloud :=
    VDict [("region", VDict [("value", VStr "eu")]);
           ("team", VDict [("value", VStr "it")])];
  local_inputs := VDict [("team", VStr "ops")];
  test_run := VBool false
|}.

Definition zendesk_page (n : nat) : value :=
  match n with
  | 0 => VDict [("organizations",
                 VList [VDict [("id", VInt 1); ("name", VStr "Acme")]]);
                ("next_page", VNone)]
  | 1 => VDict [("users",
                 VList [VDict [("name", VStr "ann"); ("organization_id", VInt 1)]]);
                ("next_page", VNone)]
  | _ => VDict []
  end.

(** The world counts the requests; a response is its JSON body. *)
Definition zendesk : Zendesk.Api nat value := {|
  Zendesk.format_url := fun path => Ok (VStr path);
  Zendesk.get := fun _ w => (Ok (zendesk_page w), S w);
  Zendesk.raise_for_status := fun _ => Ok tt;
  Zendesk.json := fun response => Ok response
|}.

Definition organization_is_mapped : value :=
  VDict [("EMAIL", VDict [("source", VStr "email")]);
         ("ORGANIZATION", VDict [("source", VStr "organization_id")])].

Definition counting : value -> nat -> nat := fun _ w => w.

End Fixture.

Local Open Scope nat_scope.

(** * Properties *)

(** ** Dictionaries *)

Lemma dict_get_set_eq d k v : dict_get (dict_set d k v) k = Some v.
Proof.
  induction d as [|[k' v'] d IH]; simpl.
  - by rewrite String.eqb_refl.
  - destruct (String.eqb k' k) eqn:E; simpl.
    + by rewrite String.eqb_refl.
    + by rewrite E.
Qed.

Lemma getitem_setitem d k v :
  Py.getitem (VDict (dict_set d k v)) k = Ok v.
Proof. simpl. by rewrite dict_get_set_eq. Qed.

(** ** The authorization loaders *)

Section LoaderFacts.

Variable json_loads : string -> Res value.

Lemma ready_to_use_spec d :
  ready_to_use d = true ↔ nonempty_mapping d "headers" ∨ nonempty_mapping d "params".
Proof.
  unfold ready_to_use, nonempty_mapping, dget.
  rewrite orb_true_iff, !andb_true_iff. split.
  - intros [[Hd H]|[Hd H]]; [left|right].
    + destruct (dict_get d "headers") as [x|]; [|done].
      destruct x as [| | | |l|m]; try done.
      exists m. by destruct m.
    + destruct (dict_get d "params") as [x|]; [|done].
      destruct x as [| | | |l|m]; try done.
      exists m. by destruct m.
  - intros [(m & -> & Hm)|(m & -> & Hm)]; [left|right]; by destruct m.
Qed.

(** The loader on an input that is, or decodes to, the mapping [d]. *)
Lemma saas_loader_on_mapping c d :
  decodes_to json_loads (saas_authorization c) d →
  saas_authorization_loader json_loads c =
    if isinstance_str (dget d "credential_id" VNone) then
      (None,
       set_saas_authorization
         (VDict [("credential_id", dget d "credential_id" VNone)]) c)
    else
      match dget d "type" VNone with
      | VStr "session" =>
          match dict_get d "behavior" with
          | Some b =>
              (None, set_session_auth_behavior b (set_saas_authorization (VDict []) c))
          | None =>
              (Some (Exn KeyError (VStr "behavior")),
               set_saas_authorization (VDict []) c)
          end
      | _ =>
          if ready_to_use d then
            (None,
             set_saas_authorization
               (VDict [("headers", dget d "headers" (VDict []));
                       ("params", dget d "params" (VDict []))]) c)
          else
            (Some (Exn ConfigError (VStr (saas_invalid_message (ConnectorID c)))), c)
      end.
Proof.
  intros [H|(s & H & Hs)]; unfold saas_authorization_loader; rewrite H; [done|].
  by rewrite Hs.
Qed.

Lemma not_session d :
  ¬ is_session d →
  ∀ A (x y : A),
    match dget d "type" VNone with VStr "session" => x | _ => y end = y.
Proof.
  unfold is_session. intros H A x y.
  destruct (dget d "type" VNone) as [| | |t| |]; try done.
  destruct (String.eqb_spec t "session") as [->|Hne]; [done|].
  clear H. revert Hne.
  repeat (match goal with
          | |- context [match ?t with EmptyString => _ | String _ _ => _ end] =>
              destruct t as [|[[] [] [] [] [] [] [] []] ?]; try done
          end).
Qed.

(** C3 (amended): on an input that is a mapping, or a string that decodes
    to one, [saas_authorization_loader] takes the first of the three modes
    that matches, in the order credential lookup ([credential_id] is a
    string), session-generated ([type] is "session", the nested [behavior]
    is stored), static ([headers] or [params] is a non-empty mapping); a
    mapping that is not of type "session" and matches none raises a
    configuration error that names the connector, and so does a decoded
    input that is not a mapping. *)
Theorem saas_authorization_loader_modes (c : Connector) :
  (∀ d, decodes_to json_loads (saas_authorization c) d →
     (∀ id, dict_get d "credential_id" = Some (VStr id) →
        saas_authorization_loader json_loads c =
          (None, set_saas_authorization (VDict [("credential_id", VStr id)]) c))
     ∧ (isinstance_str (dget d "credential_id" VNone) = false →
        is_session d →
        ∀ b, dict_get d "behavior" = Some b →
          saas_authorization_loader json_loads c =
            (None, set_session_auth_behavior b (set_saas_authorization (VDict []) c)))
     ∧ (isinstance_str (dget d "credential_id" VNone) = false →
        ¬ is_session d →
        nonempty_mapping d "headers" ∨ nonempty_mapping d "params" →
        saas_authorization_loader json_loads c =
          (None,
           set_saas_authorization
             (VDict [("headers", dget d "headers" (VDict []));
                     ("params", dget d "params" (VDict []))]) c))
     ∧ (isinstance_str (dget d "credential_id" VNone) = false →
        ¬ is_session d →
        ¬ (nonempty_mapping d "headers" ∨ nonempty_mapping d "params") →
        saas_authorization_loader json_loads c =
          (Some (Exn ConfigError
                   (VStr ("Managed connector #" +:+ ConnectorID c +:+
                          ": SaaS authorization format is invalid. Exiting"))), c)))
  ∧ (∀ v, match saas_authorization c with VStr s => json_loads s | x => Ok x end = Ok v →
          isinstance_dict v = false →
          saas_authorization_loader json_loads c =
            (Some (Exn ConfigError
                     (VStr ("Managed connector #" +:+ ConnectorID c +:+
                            ": Information for the authorization in SaaS must be presented in form of dictionary JSON"))),
             c)).
Proof.
  split.
  - intros d Hd. rewrite (saas_loader_on_mapping c d Hd).
    repeat split.
    + intros id Hid. unfold dget. by rewrite Hid.
    + intros Hc Hs b Hb. rewrite Hc, Hs, Hb. done.
    + intros Hc Hs Hr. rewrite Hc, (not_session d Hs).
      apply ready_to_use_spec in Hr. by rewrite Hr.
    + intros Hc Hs Hr. rewrite Hc, (not_session d Hs).
      destruct (ready_to_use d) eqn:E; [|done].
      apply ready_to_use_spec in E. done.
  - intros v Hv Hnd. unfold saas_authorization_loader.
    rewrite Hv. destruct v; try done.
Qed.

End LoaderFacts.

(** C3, inputs on which the claim as stated fails.  The first mapping has
    [type] "session" and a nested [behavior], and a string [credential_id]:
    the loader selects the credential lookup and does not store the
    behavior.  The second contains non-empty [headers] that are not a
    mapping: the loader raises the configuration error. *)
Lemma saas_loader_prefers_credential_id :
  let input :=
    VDict [("credential_id", VStr "abc"); ("type", VStr "session");
           ("behavior", VDict [("url", VStr "login")])] in
  let c := Scenario.with_saas input in
  let c' := Scenario.with_saas (VDict [("headers", VStr "Bearer abc")]) in
  saas_authorization_loader Scenario.decode c =
    (None, set_saas_authorization (VDict [("credential_id", VStr "abc")]) c)
  ∧ session_auth_behavior (snd (saas_authorization_loader Scenario.decode c)) = VNone
  ∧ saas_authorization_loader Scenario.decode c' =
      (Some (Exn ConfigError
               (VStr "Managed connector #7: SaaS authorization format is invalid. Exiting")),
       c').
Proof. repeat split; reflexivity. Qed.

(** The setting as an installation file gives it, a string: it is decoded
    first; the empty mapping selects no mode. *)
Example saas_loader_decodes_a_string :
  let c := Scenario.with_saas (VStr "{}") in
  saas_authorization_loader Scenario.decode c =
    (Some (Exn ConfigError
             (VStr "Managed connector #7: SaaS authorization format is invalid. Exiting")),
     c).
Proof. reflexivity. Qed.

Lemma saas_authorization_loader_modes_witness :
  saas_authorization_loader Scenario.decode
    (Scenario.with_saas (VDict [("type", VStr "session"); ("behavior", VStr "b")])) =
  (None,
   set_session_auth_behavior (VStr "b")
     (set_saas_authorization (VDict [])
        (Scenario.with_saas (VDict [("type", VStr "session"); ("behavior", VStr "b")])))).
Proof.
  pose proof (saas_authorization_loader_modes Scenario.decode
    (Scenario.with_saas (VDict [("type", VStr "session"); ("behavior", VStr "b")])))
    as [H _].
  destruct (H [("type", VStr "session"); ("behavior", VStr "b")]) as (_ & Hs & _).
  - left. reflexivity.
  - apply Hs; reflexivity.
Defined.

(** C9 (amended): [oomnitza_authorization_loader] keeps a non-empty string;
    replaces every other false value (the empty string, [None], the empty
    mapping or list, zero, [False]) by the platform's token; keeps of a
    mapping whose [token_id] is true the mapping of that [token_id] alone;
    and raises a configuration error on everything else, a mapping whose
    [token_id] is missing or false included. *)
Theorem oomnitza_authorization_loader_cases (api_token : value) (c : Connector) :
  (∀ s, oomnitza_authorization c = VStr s → s ≠ "" →
     oomnitza_authorization_loader api_token c = (None, c))
  ∧ (truthy (oomnitza_authorization c) = false →
     oomnitza_authorization_loader api_token c =
       (None, set_oomnitza_authorization api_token c))
  ∧ (∀ d t, oomnitza_authorization c = VDict d →
       dict_get d "token_id" = Some t → truthy t = true →
       oomnitza_authorization_loader api_token c =
         (None, set_oomnitza_authorization (VDict [("token_id", t)]) c))
  ∧ (truthy (oomnitza_authorization c) = true →
     isinstance_str (oomnitza_authorization c) = false →
     (∀ d, oomnitza_authorization c = VDict d →
           truthy (dget d "token_id" VNone) = false) →
     oomnitza_authorization_loader api_token c =
       (Some (Exn ConfigError
                (VStr ("Managed connector #" +:+ ConnectorID c +:+
                       ": Oomnitza authorization format is invalid. Exiting"))), c)).
Proof.
  unfold oomnitza_authorization_loader. repeat split.
  - intros s -> Hs. destruct s; done.
  - intros Hf. rewrite Hf, andb_false_r. done.
  - intros d t -> Ht Htt. simpl. unfold dget. rewrite Ht.
    destruct d; [done|]. simpl. by rewrite Htt.
  - intros Ht Hs Hd. rewrite Ht, Hs. simpl.
    destruct (oomnitza_authorization c) eqn:E; try done.
    by rewrite (Hd _ eq_refl).
Qed.

(** C9, an input on which the claim as stated fails: a mapping that
    contains [token_id], with the value 0, is not kept; the loader raises
    the configuration error. *)
Lemma oomnitza_loader_rejects_token_id_zero :
  let c := Scenario.with_oomnitza (VDict [("token_id", VInt 0)]) in
  dict_get [("token_id", VInt 0)] "token_id" = Some (VInt 0)
  ∧ oomnitza_authorization_loader (VStr "platform-token") c =
      (Some (Exn ConfigError
               (VStr "Managed connector #7: Oomnitza authorization format is invalid. Exiting")),
       c).
Proof. split; reflexivity. Qed.

Lemma oomnitza_authorization_loader_cases_witness :
  oomnitza_authorization_loader (VStr "platform-token")
    (Scenario.with_oomnitza (VDict [("token_id", VInt 12)])) =
  (None,
   set_oomnitza_authorization (VDict [("token_id", VInt 12)])
     (Scenario.with_oomnitza (VDict [("token_id", VInt 12)]))).
Proof.
  destruct (oomnitza_authorization_loader_cases (VStr "platform-token")
              (Scenario.with_oomnitza (VDict [("token_id", VInt 12)])))
    as (_ & _ & H & _).
  apply (H [("token_id", VInt 12)] (VInt 12)); reflexivity.
Defined.

(** ** Computations *)

Section Computations.

Context {W : Type}.

Lemma bind_ok {A B} (m : M W A) (k : A → M W B) s b s' :
  bind m k s = (Ok b, s') →
  ∃ a s1, m s = (Ok a, s1) ∧ k a s1 = (Ok b, s').
Proof.
  unfold bind. destruct (m s) as [[a|e] s1]; [eauto|done].
Qed.

Lemma stateless_ret {A} (a : A) : stateless (W:=W) (ret a).
Proof. intros s r s' [= _ <-]. done. Qed.

Lemma stateless_lift {A} (r : Res A) : stateless (W:=W) (lift r).
Proof. intros s r' s' [= _ <-]. done. Qed.

Lemma stateless_reading {A} (f : gmap string value → Res A) : stateless (W:=W) (reading f).
Proof. intros s r s' [= _ <-]. done. Qed.

Lemma stateless_bind {A B} (m : M W A) (k : A → M W B) :
  stateless m → (∀ a, stateless (k a)) → stateless (bind m k).
Proof.
  intros Hm Hk s r s'. unfold bind.
  destruct (m s) as [[a|e] s1] eqn:E.
  - intros H. apply Hk in H. apply Hm in E. congruence.
  - intros [= _ <-]. by apply Hm in E.
Qed.

End Computations.

Create HintDb stateless.
#[global] Hint Resolve stateless_ret stateless_lift stateless_reading : stateless.

Section RunFacts.

Context {W : Type} (X : Externals W) (self : Connector).

Lemma stateless_render_entries entries acc :
  stateless (render_entries X entries acc).
Proof.
  revert acc. induction entries as [|entry rest IH]; intros acc; simpl.
  - apply stateless_ret.
  - repeat (apply stateless_bind; [auto with stateless|intros ?]). apply IH.
Qed.

Lemma stateless_render_templates owner name :
  stateless (render_templates X owner name).
Proof.
  unfold render_templates.
  repeat (apply stateless_bind; [auto using stateless_render_entries with stateless|intros ?]).
  apply stateless_ret.
Qed.

(** C6: when [generate_session_based_secret] returns, the rendering context
    has neither [response] nor [response_headers]; the headers and params of
    the secret it returns were rendered in a context that had both. *)
Theorem session_secret_clears_response (s s' : State W) (secret : value) :
  generate_session_based_secret X self s = (Ok secret, s') →
  rendering_context s' !! "response" = None
  ∧ rendering_context s' !! "response_headers" = None
  ∧ ∃ (mid : State W) (result auth_headers auth_params : value),
      is_Some (rendering_context mid !! "response")
      ∧ is_Some (rendering_context mid !! "response_headers")
      ∧ Py.getitem (session_auth_behavior self) "result" = Ok result
      ∧ render_templates X result "headers" mid = (Ok auth_headers, mid)
      ∧ render_templates X result "params" mid = (Ok auth_params, mid)
      ∧ secret = VDict [("headers", auth_headers); ("params", auth_params)]
      ∧ rendering_context s' =
          clear_context ["response"; "response_headers"] (rendering_context mid)
      ∧ world s' = world mid.
Proof.
  unfold generate_session_based_secret. intros H.
  apply bind_ok in H as (spec & s1 & _ & H).
  apply bind_ok in H as (response & s2 & _ & H).
  apply bind_ok in H as (object & s3 & _ & H).
  apply bind_ok in H as ([] & mid & Hup & H).
  apply bind_ok in H as (result & s5 & Hres & H).
  apply bind_ok in H as (auth_headers & s6 & Hh & H).
  apply bind_ok in H as (result' & s7 & Hres' & H).
  apply bind_ok in H as (auth_params & s8 & Hp & H).
  apply bind_ok in H as ([] & s9 & Hclear & H).
  injection Hup as <-. injection Hres as Hres <-.
  pose proof (stateless_render_templates _ _ _ _ _ Hh) as ->.
  injection Hres' as Hres' <-.
  pose proof (stateless_render_templates _ _ _ _ _ Hp) as ->.
  injection Hclear as <-. injection H as <- <-.
  assert (result' = result) as -> by congruence.
  simpl. rewrite lookup_delete_eq.
  rewrite lookup_delete_ne, lookup_delete_eq by done.
  split; [done|]. split; [done|].
  eexists _, result, auth_headers, auth_params.
  split; [|split; [|split; [exact Hres|split; [exact Hh|split; [exact Hp|done]]]]]; simpl.
  - rewrite lookup_insert_ne, lookup_insert_eq by done. eauto.
  - rewrite lookup_insert_eq. eauto.
Qed.

Lemma try_except_ok {A} (m : M W A) (h : exn → M W A) s a s' :
  (∀ e s1, ∃ e', h e s1 = (Raise e', s1)) →
  try_except m h s = (Ok a, s') → m s = (Ok a, s').
Proof.
  intros Hh. unfold try_except. destruct (m s) as [[x|e] s1]; [done|].
  destruct (Hh e s1) as [e' ->]. done.
Qed.

(** C8 (amended): without a detail behaviour [get_detail_of_item] returns
    the record as it is; with one, it returns the parsed detail response,
    and that response holds the original record under [list_response_item]
    when it is a mapping, and is returned as it is, without the record,
    when it is not; a failure is raised as the details-phase exception. *)
Theorem get_detail_of_item_result (list_response_item : value) (s : State W) :
  (truthy (detail_behavior self) = false →
     get_detail_of_item X self list_response_item s = (Ok list_response_item, s))
  ∧ (truthy (detail_behavior self) = true →
     ∀ v s', get_detail_of_item X self list_response_item s = (Ok v, s') →
       ∃ spec detail_response_object,
         let s1 := Build_State
                     (<["list_response_item" := list_response_item]>
                        (rendering_context s)) (world s) in
         build_call_specs X (detail_behavior self) (rendering_context s1) = Ok spec
         ∧ authorized_call X self spec s1 = (Ok detail_response_object, s')
         ∧ ((∃ d, detail_response_object = VDict d
                  ∧ v = VDict (dict_set d "list_response_item" list_response_item)
                  ∧ Py.getitem v "list_response_item" = Ok list_response_item)
            ∨ (isinstance_dict detail_response_object = false
               ∧ v = detail_response_object)))
  ∧ (truthy (detail_behavior self) = true →
     ∀ e s', get_detail_of_item X self list_response_item s = (Raise e, s') →
       exn_cls e = ManagedConnectorDetailsGetException).
Proof.
  unfold get_detail_of_item. split; [|split].
  - intros ->. done.
  - intros -> v s' H. apply try_except_ok in H; [|intros; eexists; reflexivity].
    apply bind_ok in H as ([] & s1 & Hup & H). injection Hup as <-.
    apply bind_ok in H as (spec & s2 & Hspec & H).
    injection Hspec as Hspec <-.
    apply bind_ok in H as (obj & s3 & Hcall & H).
    exists spec, obj. simpl. split; [exact Hspec|]. 
    destruct obj; injection H as <- <-; (split; [exact Hcall|]);
      try (right; done).
    left. eexists. split; [done|]. split; [done|]. apply getitem_setitem.
  - intros -> e s'. unfold try_except.
    match goal with |- context [bind ?m ?k s] => destruct (bind m k s) as [[x|e0] s1] end.
    + done.
    + intros [= <- _]. done.
Qed.

End RunFacts.

(** C8, an input on which the claim as stated fails: the detail response
    is a list, so the value returned is that list and the original record is
    not in it. *)
Lemma detail_response_list_drops_record :
  let X := Scenario.externals (fun _ => VList [VStr "a"; VStr "b"]) in
  let self := Scenario.connector Scenario.plain_list (VDict [("url", VStr "detail")]) in
  let record := VDict [("id", VInt 5)] in
  truthy (detail_behavior self) = true
  ∧ fst (get_detail_of_item X self record (Scenario.start [])) =
      Ok (VList [VStr "a"; VStr "b"]).
Proof. split; reflexivity. Qed.

Lemma get_detail_of_item_result_witness :
  get_detail_of_item (Scenario.externals Scenario.nothing)
    (Scenario.connector Scenario.plain_list (VDict []))
    (VDict [("id", VInt 5)]) (Scenario.start []) =
  (Ok (VDict [("id", VInt 5)]), Scenario.start []).
Proof.
  apply (proj1 (get_detail_of_item_result (Scenario.externals Scenario.nothing)
                  (Scenario.connector Scenario.plain_list (VDict []))
                  (VDict [("id", VInt 5)]) (Scenario.start []))).
  reflexivity.
Defined.

Lemma session_secret_clears_response_witness :
  let X := Scenario.externals Scenario.session_answer in
  let run := generate_session_based_secret X Scenario.session_connector (Scenario.start []) in
  fst run =
    Ok (VDict [("headers", VDict [("Authorization", VStr "secret-of-the-session")]);
               ("params", VDict [])])
  ∧ rendering_context (snd run) !! "response" = None
  ∧ rendering_context (snd run) !! "response_headers" = None.
Proof.
  intros X run.
  assert (run = (Ok (VDict [("headers", VDict [("Authorization", VStr "secret-of-the-session")]);
                            ("params", VDict [])]), snd run)) as E
    by (vm_compute; reflexivity).
  split; [rewrite E; reflexivity|].
  destruct (session_secret_clears_response X Scenario.session_connector _ _ _ E)
    as (H1 & H2 & _).
  split; assumption.
Defined.

Section Loop.

Context {W : Type} (X : Externals W) (self : Connector).
Context {Out : Type} (body : value → M W Out).
Variables (ctl : controls) (iam_credentials : value) (skip_empty_response : bool).

Abbreviation loop := (while_loop X self body ctl iam_credentials skip_empty_response).
Abbreviation pages := (full_pages X self body ctl iam_credentials).

Lemma while_loop_eq fuel iteration s :
  loop fuel iteration s =
  if (iteration <? MAX_ITERATIONS)%nat then
    match fuel with
    | O => None
    | S fuel' =>
        match fetch_page X self ctl iam_credentials s with
        | (Raise e, s1) => Some ([], Caught e, iteration, s1)
        | (Ok BreakEarly, s1) => Some ([], Completed, iteration, s1)
        | (Ok (Page result), s1) =>
            if negb (truthy result) then
              if (iteration =? 0)%nat && negb skip_empty_response
              then Some ([], Caught empty_in_beginning, iteration, s1)
              else Some ([], Completed, iteration, s1)
            else
              match Py.iter result with
              | Raise e => Some ([], Caught e, iteration, s1)
              | Ok entities =>
                  match emit body entities s1 with
                  | (outs, Some e, s2) => Some (outs, Abandoned e, iteration, s2)
                  | (outs, None, s2) =>
                      match loop fuel' (S iteration) (set_iteration (S iteration) s2) with
                      | Some (outs', ex, it, s3) => Some (outs ++ outs', ex, it, s3)
                      | None => None
                      end
                  end
              end
        end
    end
  else Some ([], Completed, iteration, s).
Proof. destruct fuel; reflexivity. Qed.

Lemma while_loop_enough_fuel fuel :
  ∀ iteration s, MAX_ITERATIONS ≤ fuel + iteration →
    is_Some (loop fuel iteration s).
Proof.
  induction fuel as [|fuel IH]; intros iteration s Hfuel; rewrite while_loop_eq;
    destruct (Nat.ltb_spec iteration MAX_ITERATIONS) as [Hlt|Hge]; eauto; [lia|].
  destruct (fetch_page X self ctl iam_credentials s) as [[[|result]|e] s1]; eauto.
  destruct (truthy result); simpl; [|destruct (_ && _); eauto].
  destruct (Py.iter result) as [entities|e]; eauto.
  destruct (emit body entities s1) as [[outs [e|]] s2]; eauto.
  destruct (IH (S iteration) (set_iteration (S iteration) s2)) as [[[[outs' ex] it] s3] ->];
    [lia|eauto].
Qed.

Lemma while_loop_more_fuel fuel :
  ∀ iteration s r, loop fuel iteration s = Some r →
    ∀ fuel', fuel ≤ fuel' → loop fuel' iteration s = Some r.
Proof.
  induction fuel as [|fuel IH]; intros iteration s r H fuel' Hle;
    rewrite while_loop_eq in H; rewrite while_loop_eq;
    destruct (iteration <? MAX_ITERATIONS); try done.
  destruct fuel' as [|fuel']; [lia|].
  destruct (fetch_page X self ctl iam_credentials s) as [[[|result]|e] s1]; try done.
  destruct (negb (truthy result)); [done|].
  destruct (Py.iter result) as [entities|e]; [|done].
  destruct (emit body entities s1) as [[outs [e|]] s2]; [done|].
  destruct (loop fuel (S iteration) _) as [r'|] eqn:E; [|by destruct r].
  rewrite (IH _ _ _ E fuel') by lia. done.
Qed.

Lemma while_loop_full_pages n :
  ∀ fuel iteration s outs s',
    pages n iteration s = Some (outs, s') →
    iteration + n ≤ MAX_ITERATIONS →
    loop (n + fuel) iteration s =
      match loop fuel (iteration + n) s' with
      | Some (outs', ex, it, s'') => Some (outs ++ outs', ex, it, s'')
      | None => None
      end.
Proof.
  induction n as [|n IH]; intros fuel iteration s outs s' Hp Hle.
  - injection Hp as <- <-. rewrite Nat.add_0_r. simpl.
    destruct (loop fuel iteration s) as [[[[? ?] ?] ?]|]; done.
  - simpl in Hp. change (S n + fuel) with (S (n + fuel)). rewrite while_loop_eq.
    destruct (Nat.ltb_spec iteration MAX_ITERATIONS) as [Hlt|Hge]; [|lia].
    destruct (fetch_page X self ctl iam_credentials s) as [[[|result]|e] s1]; try done.
    destruct (truthy result); [|done]. simpl.
    destruct (Py.iter result) as [entities|e]; [|done].
    destruct (emit body entities s1) as [[outs1 [e|]] s2]; [done|].
    destruct (pages n (S iteration) (set_iteration (S iteration) s2))
      as [[outs2 s3]|] eqn:E; [|done].
    injection Hp as <- <-.
    rewrite (IH fuel _ _ _ _ E) by lia.
    replace (S iteration + n) with (iteration + S n) by lia.
    destruct (loop fuel (iteration + S n) s3) as [[[[? ?] ?] ?]|]; [|done].
    by rewrite app_assoc.
Qed.

End Loop.

Lemma max_iterations_succ : MAX_ITERATIONS = S (MAX_ITERATIONS - 1).
Proof. reflexivity. Qed.

Section Pagination.

Context {W : Type} (X : Externals W) (self : Connector).
Context {Out : Type} (body : value → M W Out).
Variables (iam_credentials : value) (skip_empty_response : bool).

Abbreviation items :=
  (get_list_of_items X self body iam_credentials skip_empty_response).

Lemma get_list_of_items_total s :
  ∃ r, get_list_of_items_fuel X self MAX_ITERATIONS body iam_credentials
         skip_empty_response s = Some r
       ∧ items s = r.
Proof.
  unfold get_list_of_items, get_list_of_items_fuel.
  destruct (pull_controls self) as [ctl|e]; [|eauto].
  destruct (while_loop_enough_fuel X self body ctl iam_credentials
              skip_empty_response MAX_ITERATIONS 0 (start_context s))
    as [[[[outs ex] it] s1] ->]; [lia|].
  destruct ex; [destruct (_ <=? _)|..]; eauto.
Qed.

Lemma get_list_of_items_more_fuel s fuel :
  MAX_ITERATIONS ≤ fuel →
  get_list_of_items_fuel X self fuel body iam_credentials skip_empty_response s
    = Some (items s).
Proof.
  intros Hfuel. destruct (get_list_of_items_total s) as (r & Hr & ->).
  rewrite <- Hr. unfold get_list_of_items_fuel.
  destruct (pull_controls self) as [ctl|e]; [|done].
  destruct (while_loop_enough_fuel X self body ctl iam_credentials
              skip_empty_response MAX_ITERATIONS 0 (start_context s))
    as [r' E]; [lia|].
  rewrite E.
  by rewrite (while_loop_more_fuel X self body ctl iam_credentials
                skip_empty_response _ _ _ _ E fuel Hfuel).
Qed.

(** The run, once the controls are known and [n] full pages are behind. *)
Lemma get_list_of_items_after_pages ctl n s outs s1 :
  pull_controls self = Ok ctl →
  full_pages X self body ctl iam_credentials n 0 (start_context s) = Some (outs, s1) →
  n ≤ MAX_ITERATIONS →
  items s =
    match while_loop X self body ctl iam_credentials skip_empty_response
            (MAX_ITERATIONS - n) n s1 with
    | Some (outs', Caught e, iteration, s2) =>
        Build_Run (outs ++ outs') (Some (classify X iteration e)) s2
    | Some (outs', Abandoned e, _, s2) => Build_Run (outs ++ outs') (Some e) s2
    | Some (outs', Completed, iteration, s2) =>
        if (MAX_ITERATIONS <=? iteration)%nat
        then Build_Run (outs ++ outs') (Some max_iteration) s2
        else Build_Run (outs ++ outs') None s2
    | None => Build_Run [] None s
    end.
Proof.
  intros Hctl Hpages Hn.
  unfold get_list_of_items, get_list_of_items_fuel. rewrite Hctl.
  replace MAX_ITERATIONS with (n + (MAX_ITERATIONS - n)) at 1 by lia.
  rewrite (while_loop_full_pages X self body ctl iam_credentials skip_empty_response
             n _ 0 _ _ _ Hpages) by lia.
  rewrite Nat.add_0_l.
  destruct (while_loop _ _ _ _ _ _ _ _ _) as [[[[outs' ex] it] s2]|]; [|done].
  destruct ex; [destruct (_ <=? _)|..]; done.
Qed.

(** C1: the loop body of [get_list_of_items] is entered at most
    [MAX_ITERATIONS] = 1000 times, whatever the configuration and the
    responses: fuel for 1000 entries always gives the run its result, and
    no larger amount of fuel changes it; and a run whose first 1000 passes
    each fetched and yielded a non-empty page ends with the max-iteration
    exception. *)
Theorem pagination_bounded (s : State W) :
  MAX_ITERATIONS = 1000
  ∧ (∀ fuel, MAX_ITERATIONS ≤ fuel →
       get_list_of_items_fuel X self fuel body iam_credentials skip_empty_response s
         = Some (items s))
  ∧ (∀ ctl outs s1,
       pull_controls self = Ok ctl →
       full_pages X self body ctl iam_credentials MAX_ITERATIONS 0 (start_context s)
         = Some (outs, s1) →
       items s = Build_Run outs (Some max_iteration) s1).
Proof.
  split; [reflexivity|]. split; [intros fuel; apply get_list_of_items_more_fuel|].
  intros ctl outs s1 Hctl Hpages.
  rewrite (get_list_of_items_after_pages ctl _ s outs s1 Hctl Hpages) by lia.
  rewrite Nat.sub_diag, while_loop_eq, Nat.ltb_irrefl, Nat.leb_refl.
  by rewrite app_nil_r.
Qed.

Lemma run_ending_on_empty_page (s : State W) ctl n outs s1 result s2 :
  pull_controls self = Ok ctl →
  full_pages X self body ctl iam_credentials n 0 (start_context s) = Some (outs, s1) →
  n < MAX_ITERATIONS →
  fetch_page X self ctl iam_credentials s1 = (Ok (Page result), s2) →
  truthy result = false →
  items s =
    Build_Run outs
      (if (n =? 0) && negb skip_empty_response
       then Some empty_in_beginning else None) s2.
Proof.
  intros Hctl Hpages Hn Hfetch Hempty.
  rewrite (get_list_of_items_after_pages ctl _ s outs s1 Hctl Hpages) by lia.
  destruct (MAX_ITERATIONS - n) as [|fuel] eqn:Hfuel; [lia|].
  rewrite while_loop_eq, Hfetch, Hempty.
  destruct (Nat.ltb_spec n MAX_ITERATIONS) as [_|?]; [|lia].
  change (negb false) with true. cbv iota.
  destruct ((n =? 0) && negb skip_empty_response); rewrite app_nil_r; [done|].
  destruct (Nat.leb_spec MAX_ITERATIONS n); [lia|done].
Qed.

(** C10: with pagination rules present, a break-early predicate that renders
    true on the first pass ends the run at once: nothing is handed over, no
    exception is raised whatever [skip_empty_response] is, and no request
    has been made. *)
Theorem break_early_at_start (s : State W) ctl spec verdict :
  pull_controls self = Ok ctl →
  truthy (pagination_dict ctl) = true →
  build_call_specs X (list_behavior self) (rendering_context (start_context s)) = Ok spec →
  render_to_native X (break_early_control ctl) (rendering_context (start_context s))
    = Ok verdict →
  truthy verdict = true →
  items s = Build_Run [] None (start_context s)
  ∧ world (final (items s)) = world s.
Proof.
  intros Hctl Hpag Hspec Hrender Hverdict.
  assert (fetch_page X self ctl iam_credentials (start_context s)
          = (Ok BreakEarly, start_context s)) as Hfetch.
  { unfold fetch_page, bind, reading, ret. rewrite Hspec, Hpag, Hrender, Hverdict. done. }
  assert (items s = Build_Run [] None (start_context s)) as ->; [|done].
  unfold get_list_of_items, get_list_of_items_fuel. rewrite Hctl.
  rewrite max_iterations_succ at 1. rewrite while_loop_eq, Hfetch.
  done.
Qed.

End Pagination.

Section Listing.

Context {W : Type} (X : Externals W) (self : Connector).
Variable consume : value → State W → State W.

(** The consumer of [get_list_of_items] that takes every entity and does
    [consume] with it before it asks for the next one. *)
Abbreviation consuming :=
  (λ (entity : value) (s : State W), (Ok entity, consume entity s)).

Lemma emit_consuming entities : ∀ s,
  emit consuming entities s =
    (entities, None, fold_left (λ s' entity, consume entity s') entities s).
Proof.
  induction entities as [|entity rest IH]; intros s; simpl; [done|]. by rewrite IH.
Qed.

Lemma full_pages_listed ctl creds n : ∀ iteration s pages s1,
  listed_pages X self consume ctl creds n iteration s = Some (pages, s1) →
  full_pages X self consuming ctl creds n iteration s = Some (concat pages, s1)
  ∧ length pages = n
  ∧ Forall (λ entities, entities ≠ []) pages.
Proof.
  induction n as [|n IH]; intros iteration s pages s1 H; simpl in H |- *.
  - injection H as <- <-. done.
  - destruct (fetch_page X self ctl creds s) as [[[|result]|e] s2]; try done.
    destruct (truthy result) eqn:Ht; [|done].
    destruct (Py.iter result) as [entities|e] eqn:Hi; [|done].
    rewrite emit_consuming.
    destruct (listed_pages _ _ _ _ _ n _ _) as [[pages' s3]|] eqn:E; [|done].
    injection H as <- <-. apply IH in E as (-> & <- & Hne).
    split; [done|]. split; [done|]. constructor; [|done].
    intros ->. destruct result as [| | |[]|[]|[]]; done.
Qed.

(** C2: when a page renders an empty (false) result after [n] pages that
    were not empty, the generator has yielded exactly the entities of
    those [n] pages, page after page and in the order of each page; it
    raises the empty-at-start exception when [n] is 0 and
    [skip_empty_response] is false, with nothing yielded, and ends without
    an exception when [n] is 0 and [skip_empty_response] is true, or when
    [n] is positive. *)
Theorem empty_page_ends_pagination creds skip (s : State W) ctl n pages s1 result s2 :
  let run := get_list_of_items X self consuming creds skip s in
  pull_controls self = Ok ctl →
  listed_pages X self consume ctl creds n 0 (start_context s) = Some (pages, s1) →
  n < MAX_ITERATIONS →
  fetch_page X self ctl creds s1 = (Ok (Page result), s2) →
  truthy result = false →
  emitted run = concat pages
  ∧ length pages = n
  ∧ Forall (λ entities, entities ≠ []) pages
  ∧ final run = s2
  ∧ (n = 0 → skip = false →
     emitted run = [] ∧ outcome run = Some empty_in_beginning)
  ∧ (n = 0 → skip = true → emitted run = [] ∧ outcome run = None)
  ∧ (0 < n → outcome run = None).
Proof.
  intros run Hctl Hpages Hn Hfetch Hempty. subst run.
  apply full_pages_listed in Hpages as (Hpages & Hlen & Hne).
  rewrite (run_ending_on_empty_page X self consuming creds skip s ctl n (concat pages)
             s1 result s2) by done.
  split; [done|]. split; [done|]. split; [done|]. split; [done|].
  split; [|split].
  - intros -> ->. by destruct pages.
  - intros -> ->. by destruct pages.
  - intros Hpos. destruct n; [lia|done].
Qed.

End Listing.

Section Enrichment.

Context {W : Type} (X : Externals W) (self : Connector).

Lemma try_except_wrap {A} (m : M W A) cls s e s' :
  try_except m (fun exc => raise (wrap X cls exc)) s = (Raise e, s') →
  exn_cls e = cls.
Proof.
  unfold try_except. destruct (m s) as [[a|e0] s1]; [done|].
  intros [= <- _]. done.
Qed.

Lemma bind_raise {A B} (m : M W A) (k : A → M W B) s e s' :
  bind m k s = (Raise e, s') →
  m s = (Raise e, s') ∨ ∃ a s1, m s = (Ok a, s1) ∧ k a s1 = (Raise e, s').
Proof.
  unfold bind. destruct (m s) as [[a|e0] s1]; [eauto|]. intros [= <- <-]. eauto.
Qed.

Lemma get_detail_of_item_raises r s e s' :
  get_detail_of_item X self r s = (Raise e, s') →
  exn_cls e = ManagedConnectorDetailsGetException.
Proof.
  unfold get_detail_of_item. destruct (truthy (detail_behavior self)); [|done].
  apply try_except_wrap.
Qed.

Lemma enrich_raises r s e s' :
  enrich X self r s = (Raise e, s') → enrichment_failure e = true.
Proof.
  unfold enrich, enrichment_failure, is_class. intros H.
  apply bind_raise in H as [H|(d & s1 & _ & H)].
  { apply get_detail_of_item_raises in H as ->. done. }
  apply bind_raise in H as [H|(d1 & s2 & _ & H)].
  { apply try_except_wrap in H as ->. done. }
  apply try_except_wrap in H as ->. done.
Qed.

Lemma load_list_item_yields r s :
  ∃ y s', load_list_item X self r s = (Ok y, s') ∧ yielded_for r y.
Proof.
  unfold load_list_item, yielded_for.
  destruct (enrich X self r s) as [[d|e] s1] eqn:E; [eauto 6|].
  rewrite (enrich_raises _ _ _ _ E). eauto 6.
Qed.

Section Consumer.

Variable deliver : yielded → State W → State W.

Lemma handing_over_yields r s :
  ∃ y s', handing_over X self deliver r s = (Ok y, s') ∧ yielded_for r y.
Proof.
  unfold handing_over.
  destruct (load_list_item_yields r s) as (y & s1 & -> & Hy). eauto.
Qed.

Lemma emit_handing_over entities :
  ∀ s, ∃ outs s',
    emit (handing_over X self deliver) entities s = (outs, None, s')
    ∧ Forall2 yielded_for entities outs.
Proof.
  induction entities as [|r rest IH]; intros s; simpl.
  - eauto.
  - destruct (handing_over_yields r s) as (y & s1 & -> & Hy).
    destruct (IH s1) as (outs & s2 & -> & Hall). eauto.
Qed.

Lemma yielded_for_single r y : yielded_for r y → is_single y = true.
Proof. intros [[? ->]|[? ->]]; done. Qed.

Lemma emit_singles entities s outs e s' :
  emit (handing_over X self deliver) entities s = (outs, e, s') →
  e = None ∧ Forall (λ y, is_single y = true) outs.
Proof.
  intros H. destruct (emit_handing_over entities s) as (outs' & s1 & E & Hall).
  rewrite E in H. injection H as <- <- <-. split; [done|].
  clear E. induction Hall; constructor; eauto using yielded_for_single.
Qed.

Lemma while_loop_singles ctl creds skip fuel :
  ∀ iteration s outs ex it s',
    while_loop X self (handing_over X self deliver) ctl creds skip fuel iteration s
      = Some (outs, ex, it, s') →
    Forall (λ y, is_single y = true) outs ∧ ∀ e, ex ≠ Abandoned e.
Proof.
  induction fuel as [|fuel IH]; intros iteration s outs ex it s'; rewrite while_loop_eq;
    destruct (iteration <? MAX_ITERATIONS); try done;
    try (intros [= <- <- <- <-]; done).
  destruct (fetch_page X self ctl creds s) as [[[|result]|e] s1];
    try (intros [= <- <- <- <-]; done).
  destruct (truthy result); cbv beta iota delta [negb];
    [|destruct (_ && _); intros [= <- <- <- <-]; done].
  destruct (Py.iter result) as [entities|e]; [|intros [= <- <- <- <-]; done].
  destruct (emit _ entities s1) as [[outs1 e] s2] eqn:E.
  apply emit_singles in E as [-> Hs1].
  destruct (while_loop _ _ _ _ _ _ fuel _ _) as [[[[outs2 ex2] it2] s3]|] eqn:E2; [|done].
  intros [= <- <- <- <-]. apply IH in E2 as [Hs2 Hex].
  split; [by apply Forall_app|done].
Qed.

Lemma _load_list_singles creds skip s :
  Forall (λ y, is_single y = true) (emitted (_load_list X self deliver creds skip s)).
Proof.
  unfold _load_list, get_list_of_items, get_list_of_items_fuel.
  destruct (pull_controls self) as [ctl|e]; [|by constructor].
  destruct (while_loop _ _ _ _ _ _ _ _ _) as [[[[outs ex] it] s1]|] eqn:E;
    [|by constructor].
  apply while_loop_singles in E as [Hs _].
  destruct ex; [destruct (_ <=? _)|..]; done.
Qed.

Lemma classify_not_enrichment iteration e :
  enrichment_failure (classify X iteration e) = false.
Proof.
  unfold classify.
  destruct (is_class ManagedConnectorListGetEmptyInBeginningException e) eqn:E.
  - unfold enrichment_failure, is_class in *. destruct (exn_cls e); done.
  - destruct (iteration =? 0); done.
Qed.

Lemma _load_list_outcome creds skip s e :
  outcome (_load_list X self deliver creds skip s) = Some e →
  enrichment_failure e = false.
Proof.
  unfold _load_list, get_list_of_items, get_list_of_items_fuel.
  destruct (pull_controls self) as [ctl|e0].
  2:{ intros [= <-]. apply classify_not_enrichment. }
  destruct (while_loop _ _ _ _ _ _ _ _ _) as [[[[outs ex] it] s1]|] eqn:E; [|done].
  apply while_loop_singles in E as [_ Hex].
  destruct ex as [|e0|e0]; [destruct (_ <=? _)|..]; try done.
  - intros [= <-]. done.
  - intros [= <-]. apply classify_not_enrichment.
  - by destruct (Hex e0).
Qed.

Lemma handing_over_object r s :
  handing_over X self deliver r s =
    let '(enrichment, s1) := enrich X self r s in
    (Ok (object_for X r enrichment), deliver (object_for X r enrichment) s1).
Proof.
  unfold handing_over, load_list_item.
  destruct (enrich X self r s) as [[d|e] s1] eqn:E; [done|].
  by rewrite (enrich_raises _ _ _ _ E).
Qed.

Lemma emit_enriched_page entities : ∀ s,
  emit (handing_over X self deliver) entities s =
    (fst (enriched_page X self deliver entities s), None,
     snd (enriched_page X self deliver entities s)).
Proof.
  induction entities as [|r rest IH]; intros s; simpl; [done|].
  rewrite handing_over_object.
  destruct (enrich X self r s) as [enrichment s1].
  rewrite IH. by destruct (enriched_page X self deliver rest _).
Qed.

Lemma enriched_page_length entities : ∀ s,
  length (fst (enriched_page X self deliver entities s)) = length entities.
Proof.
  induction entities as [|r rest IH]; intros s; simpl; [done|].
  destruct (enrich X self r s) as [enrichment s1].
  specialize (IH (deliver (object_for X r enrichment) s1)).
  destruct (enriched_page X self deliver rest _). simpl in *. by rewrite IH.
Qed.

Lemma full_pages_enriched ctl creds n : ∀ iteration s objects s1,
  enriched_pages X self deliver ctl creds n iteration s = Some (objects, s1) →
  full_pages X self (handing_over X self deliver) ctl creds n iteration s
    = Some (objects, s1).
Proof.
  induction n as [|n IH]; intros iteration s objects s1 H; simpl in H |- *; [done|].
  destruct (fetch_page X self ctl creds s) as [[[|result]|e] s2]; try done.
  destruct (truthy result); [|done].
  destruct (Py.iter result) as [entities|e]; [|done].
  rewrite emit_enriched_page.
  destruct (enriched_page X self deliver entities s2) as [ys s3]. simpl.
  destruct (enriched_pages _ _ _ _ _ n _ _) as [[ys' s4]|] eqn:E; [|done].
  by rewrite (IH _ _ _ _ E).
Qed.

Lemma _load_list_after_pages creds skip s ctl n objects s1 :
  pull_controls self = Ok ctl →
  enriched_pages X self deliver ctl creds n 0 (start_context s) = Some (objects, s1) →
  n ≤ MAX_ITERATIONS →
  ∃ rest, emitted (_load_list X self deliver creds skip s) = objects ++ rest.
Proof.
  intros Hctl Hpages Hn. apply full_pages_enriched in Hpages. unfold _load_list.
  rewrite (get_list_of_items_after_pages X self _ creds skip ctl n s objects s1
             Hctl Hpages Hn).
  destruct (while_loop_enough_fuel X self (handing_over X self deliver) ctl creds skip
              (MAX_ITERATIONS - n) n s1) as [[[[outs ex] it] s2] ->]; [lia|].
  exists outs. destruct ex; [destruct (_ <=? _)|..]; done.
Qed.

(** C5: whenever one of the three enrichment steps raises for a record, the
    exception is one of the three phase exceptions, the object yielded for
    that record is the pair of the record as listed and the text of the
    error, and the records after it in the page are enriched and yielded
    as if nothing had happened.  So every record of a page gets its
    object, in order: the enriched record, or the pair when its enrichment
    failed.  The stream of [_load_list] begins with the objects of the
    pages listed so far; after an empty page it is exactly those objects;
    and it is never ended by an enrichment exception. *)
Theorem enrichment_failure_is_isolated :
  (∀ r s e s1,
     enrich X self r s = (Raise e, s1) →
     enrichment_failure e = true
     ∧ ∀ rest,
         emit (handing_over X self deliver) (r :: rest) s =
           let '(objects, s2) :=
             enriched_page X self deliver rest (deliver (YError r (str X e)) s1) in
           (YError r (str X e) :: objects, None, s2))
  ∧ (∀ entities s,
       emit (handing_over X self deliver) entities s =
         (fst (enriched_page X self deliver entities s), None,
          snd (enriched_page X self deliver entities s))
       ∧ length (fst (enriched_page X self deliver entities s)) = length entities)
  ∧ (∀ creds skip s ctl n objects s1,
       pull_controls self = Ok ctl →
       enriched_pages X self deliver ctl creds n 0 (start_context s) = Some (objects, s1) →
       n ≤ MAX_ITERATIONS →
       ∃ rest, emitted (_load_list X self deliver creds skip s) = objects ++ rest)
  ∧ (∀ creds skip s ctl n objects s1 result s2,
       pull_controls self = Ok ctl →
       enriched_pages X self deliver ctl creds n 0 (start_context s) = Some (objects, s1) →
       0 < n < MAX_ITERATIONS →
       fetch_page X self ctl creds s1 = (Ok (Page result), s2) →
       truthy result = false →
       _load_list X self deliver creds skip s = Build_Run objects None s2)
  ∧ (∀ creds skip s e,
       outcome (_load_list X self deliver creds skip s) = Some e →
       enrichment_failure e = false).
Proof.
  split; [|split; [|split; [|split]]].
  - intros r s e s1 H. split; [exact (enrich_raises _ _ _ _ H)|].
    intros rest. rewrite emit_enriched_page. simpl. rewrite H. simpl.
    by destruct (enriched_page X self deliver rest _).
  - intros entities s. split; [apply emit_enriched_page|apply enriched_page_length].
  - intros *. apply _load_list_after_pages.
  - intros creds skip s ctl n objects s1 result s2 Hctl Hpages [Hpos Hn] Hfetch Hempty.
    apply full_pages_enriched in Hpages. unfold _load_list.
    rewrite (run_ending_on_empty_page X self _ creds skip s ctl n objects s1 result s2)
      by done.
    destruct n; [lia|done].
  - intros *. apply _load_list_outcome.
Qed.

End Consumer.

End Enrichment.

(** The scenario of the spec: the detail fetch fails for record 5 and
    succeeds for record 6. *)
Example detail_fails_for_5_not_for_6 :
  let X := Scenario.externals Scenario.five_and_six in
  let self := Scenario.connector Scenario.plain_list Scenario.detail_failing_on_5 in
  let run := _load_list X self collecting VNone false (Scenario.start []) in
  emitted run =
    [YError (VInt 5) "no such item";
     YRecord (VDict [("name", VStr "six"); ("list_response_item", VInt 6)])]
  ∧ outcome run = None.
Proof. split; vm_compute; reflexivity. Qed.

Lemma enrichment_failure_is_isolated_witness :
  let X := Scenario.externals Scenario.five_and_six in
  let self := Scenario.connector Scenario.plain_list Scenario.detail_failing_on_5 in
  emitted (_load_list X self collecting VNone false (Scenario.start [])) =
    [YError (VInt 5) "no such item";
     YRecord (VDict [("name", VStr "six"); ("list_response_item", VInt 6)])].
Proof.
  intros X self.
  pose (listed := enriched_pages X self collecting Scenario.plain_controls VNone 1 0
                    (start_context (Scenario.start []))).
  pose (s1 := default (Scenario.start []) (snd <$> listed)).
  assert (listed =
          Some ([YError (VInt 5) "no such item";
                 YRecord (VDict [("name", VStr "six"); ("list_response_item", VInt 6)])],
                s1)) as E by (vm_compute; reflexivity).
  assert (fetch_page X self Scenario.plain_controls VNone s1
          = (Ok (Page (VList [])),
             snd (fetch_page X self Scenario.plain_controls VNone s1))) as F
    by (vm_compute; reflexivity).
  destruct (enrichment_failure_is_isolated X self collecting) as (_ & _ & _ & H & _).
  rewrite (H VNone false (Scenario.start []) Scenario.plain_controls 1 _ _ _ _ eq_refl E
             ltac:(unfold MAX_ITERATIONS; lia) F eq_refl).
  reflexivity.
Defined.

Section Rotation.

Context {W : Type} (X : Externals W) (self : Connector).
Variable deliver : yielded → State W → State W.

Lemma forallb_singles (ys : list yielded) :
  Forall (λ y, is_single y = true) ys → forallb is_single ys = true.
Proof. induction 1 as [|y ys Hy _ IH]; simpl; [done|]. by rewrite Hy, IH. Qed.

Lemma rotate_batches fuel :
  ∀ iteration iam_records s ys r it s',
    rotate X self deliver fuel iteration iam_records s = Some (ys, r, it, s') →
    Forall (λ y, is_batch y = true) ys
    ∧ ∀ n, r = Ok n → n = iam_records + batch_total ys.
Proof.
  induction fuel as [|fuel IH]; intros iteration iam_records s ys r it s'; simpl; [done|].
  destruct (acting (get_iam_credentials X) s) as [[[creds|]|e] s1].
  - destruct (outcome (_load_list X self collecting creds true s1)) as [e|].
    + intros [= <- <- <- <-]. split; [constructor|done].
    + destruct (rotate X self deliver fuel _ _ _) as [[[[ys' r'] it'] s3]|] eqn:E; [|done].
      intros [= <- <- <- <-]. apply IH in E as [Hb Hn]. split.
      * constructor; [|done]. simpl.
        apply forallb_singles, _load_list_singles.
      * intros n ->. rewrite (Hn n eq_refl). simpl. lia.
  - intros [= <- <- <- <-]. split; [constructor|]. intros n [= <-]. simpl. lia.
  - intros [= <- <- <- <-]. split; [constructor|done].
Qed.

Lemma rotating_passes_batches fuel s ys r it s' :
  rotating_passes X self deliver fuel s = Some (ys, r, it, s') →
  Forall (λ y, is_batch y = true) ys
  ∧ ∀ n, r = Ok n → n = batch_total ys.
Proof.
  unfold rotating_passes.
  destruct (Py.getitem _ _) as [credential_id|e];
    [|intros [= <- <- <- <-]; split; [constructor|done]].
  destruct (acting _ s) as [[[]|e] s1];
    [|intros [= <- <- <- <-]; split; [constructor|done]].
  intros H. apply rotate_batches in H as [Hb Hn]. split; [done|].
  intros n Hr. by rewrite (Hn n Hr).
Qed.

(** C4: a rotating pass is run with [skip_empty_response] true: when its
    first page is empty it ends without an exception, its empty list is
    handed over and the rotation goes on.  Once the credential sets are
    exhausted, the default pass is run with [skip_empty_response] true if
    and only if the rotating passes yielded at least one object; an empty
    first page of the default pass therefore raises the empty-at-start
    exception exactly when they yielded none. *)
Theorem default_pass_tolerance (fuel : nat) (s : State W) :
  (∀ iteration iam_records creds s1 ctl result s2,
     acting (get_iam_credentials X) s = (Ok (Some creds), s1) →
     pull_controls self = Ok ctl →
     fetch_page X self ctl creds (start_context s1) = (Ok (Page result), s2) →
     truthy result = false →
     _load_list X self collecting creds true s1 = Build_Run [] None s2
     ∧ rotate X self deliver (S fuel) iteration iam_records s =
         match rotate X self deliver fuel (S iteration) iam_records
                 (deliver (YList []) s2) with
         | Some (ys, r, it, s3) => Some (YList [] :: ys, r, it, s3)
         | None => None
         end)
  ∧ (∀ ys iam_records iteration s1,
       rotating_passes X self deliver fuel s = Some (ys, Ok iam_records, iteration, s1) →
       iam_records = batch_total ys
       ∧ (let default_pass :=
            _load_list X self deliver VNone (0 <? batch_total ys) s1 in
          _load_iam_list X self deliver fuel s =
            Some (Build_Run (ys ++ emitted default_pass) (outcome default_pass)
                    (final default_pass)))
       ∧ (∀ ctl result s2,
            pull_controls self = Ok ctl →
            fetch_page X self ctl VNone (start_context s1) = (Ok (Page result), s2) →
            truthy result = false →
            _load_iam_list X self deliver fuel s =
              Some (Build_Run ys
                      (if 0 <? batch_total ys then None else Some empty_in_beginning)
                      s2))).
Proof.
  split.
  - intros iteration iam_records creds s1 ctl result s2 Hnext Hctl Hfetch Hempty.
    assert (_load_list X self collecting creds true s1 = Build_Run [] None s2) as Hpass.
    { unfold _load_list.
      rewrite (run_ending_on_empty_page X self _ creds true s1 ctl 0 []
                 (start_context s1) result s2);
        try done; unfold MAX_ITERATIONS; lia. }
    split; [done|]. simpl. rewrite Hnext, Hpass. simpl. by rewrite Nat.add_0_r.
  - intros ys iam_records iteration s1 Hrot.
    destruct (rotating_passes_batches _ _ _ _ _ _ Hrot) as [_ Hn].
    rewrite <- (Hn _ eq_refl). split; [done|]. split.
    + unfold _load_iam_list. by rewrite Hrot.
    + intros ctl result s2 Hctl Hfetch Hempty. unfold _load_iam_list. rewrite Hrot.
      unfold _load_list.
      rewrite (run_ending_on_empty_page X self _ VNone (0 <? iam_records) s1 ctl 0 []
                 (start_context s1) result s2);
        try done; [|unfold MAX_ITERATIONS; lia].
      simpl. rewrite app_nil_r. by destruct (0 <? iam_records).
Qed.

Lemma rotate_completed n : ∀ fuel iteration iam_records s passes s1,
  completed_passes X self deliver n s = Some (passes, s1) →
  rotate X self deliver (n + fuel) iteration iam_records s =
    match rotate X self deliver fuel (iteration + n)
            (iam_records + length (concat passes)) s1 with
    | Some (ys, r, it, s2) => Some (map YList passes ++ ys, r, it, s2)
    | None => None
    end.
Proof.
  induction n as [|n IH]; intros fuel iteration iam_records s passes s1 H; simpl in H.
  - injection H as <- <-. simpl. rewrite !Nat.add_0_r.
    by destruct (rotate X self deliver fuel iteration iam_records s) as [[[[? ?] ?] ?]|].
  - change (S n + fuel) with (S (n + fuel)). simpl.
    destruct (acting (get_iam_credentials X) s) as [[[creds|]|e] s2]; try done.
    destruct (outcome (_load_list X self collecting creds true s2)); [done|].
    destruct (completed_passes X self deliver n _) as [[passes' s3]|] eqn:E; [|done].
    injection H as <- <-. rewrite (IH fuel _ _ _ _ _ E). simpl.
    rewrite length_app, Nat.add_assoc.
    replace (iteration + S n) with (S (iteration + n)) by lia.
    by destruct (rotate X self deliver fuel _ _ s3) as [[[[? ?] ?] ?]|].
Qed.

Lemma completed_passes_singles n : ∀ s passes s1,
  completed_passes X self deliver n s = Some (passes, s1) →
  length passes = n
  ∧ Forall (Forall (λ y, is_single y = true)) passes.
Proof.
  induction n as [|n IH]; intros s passes s1 H; simpl in H.
  - injection H as <- _. done.
  - destruct (acting (get_iam_credentials X) s) as [[[creds|]|e] s2]; try done.
    destruct (outcome (_load_list X self collecting creds true s2)); [done|].
    destruct (completed_passes X self deliver n _) as [[passes' s3]|] eqn:E; [|done].
    injection H as <- _. apply IH in E as [<- Hall]. split; [done|].
    constructor; [apply _load_list_singles|done].
Qed.

(** C7 (amended): every object [_load_list] hands over is a single record
    or a single (record, error) pair, and the consumer has it before the
    next record of the page is enriched.  [_load_iam_list] hands over each
    completed rotating pass as one list, the list of all the objects of
    that pass: after [n] completed passes the consumer has been handed
    exactly [n] lists, one for each pass and in their order, whatever
    follows; and when the credential sets are exhausted after them, the
    run is these [n] lists followed by the single objects of the default
    pass. *)
Theorem yielded_objects_shape :
  (∀ creds skip s,
     Forall (λ y, is_single y = true) (emitted (_load_list X self deliver creds skip s)))
  ∧ (∀ entities s,
       emit (handing_over X self deliver) entities s =
         (fst (enriched_page X self deliver entities s), None,
          snd (enriched_page X self deliver entities s)))
  ∧ (∀ n fuel s credential_id s0 passes s1 run,
       Py.getitem (saas_authorization self) "credential_id" = Ok credential_id →
       acting (AWSIAM X credential_id) s = (Ok tt, s0) →
       completed_passes X self deliver n s0 = Some (passes, s1) →
       _load_iam_list X self deliver (n + fuel) s = Some run →
       length passes = n
       ∧ Forall (Forall (λ y, is_single y = true)) passes
       ∧ ∃ rest, emitted run = map YList passes ++ rest)
  ∧ (∀ n fuel s credential_id s0 passes s1 s2,
       Py.getitem (saas_authorization self) "credential_id" = Ok credential_id →
       acting (AWSIAM X credential_id) s = (Ok tt, s0) →
       completed_passes X self deliver n s0 = Some (passes, s1) →
       acting (get_iam_credentials X) s1 = (Ok None, s2) →
       n < fuel →
       let default_pass :=
         _load_list X self deliver VNone (0 <? length (concat passes)) s2 in
       _load_iam_list X self deliver fuel s =
         Some (Build_Run (map YList passes ++ emitted default_pass)
                 (outcome default_pass) (final default_pass))
       ∧ Forall (λ y, is_single y = true) (emitted default_pass)).
Proof.
  split; [|split; [|split]].
  - intros. apply _load_list_singles.
  - intros. apply emit_enriched_page.
  - intros n fuel s credential_id s0 passes s1 run Hid Hiam Hpasses.
    destruct (completed_passes_singles _ _ _ _ Hpasses) as [Hlen Hall].
    unfold _load_iam_list, rotating_passes. rewrite Hid, Hiam.
    rewrite (rotate_completed _ _ _ _ _ _ _ Hpasses).
    destruct (rotate X self deliver fuel _ _ s1) as [[[[ys [records|e]] it] s2]|];
      [| |done]; intros [= <-]; (split; [done|]); (split; [done|]); simpl.
    + rewrite <- app_assoc. eauto.
    + eauto.
  - intros n fuel s credential_id s0 passes s1 s2 Hid Hiam Hpasses Hend Hfuel default_pass.
    split; [|apply _load_list_singles].
    unfold _load_iam_list, rotating_passes. rewrite Hid, Hiam.
    replace fuel with (n + S (fuel - n - 1)) by lia.
    rewrite (rotate_completed _ _ _ _ _ _ _ Hpasses). simpl. rewrite Hend.
    by rewrite app_nil_r.
Qed.

End Rotation.

(** C7, a run on which the claim as stated fails: with one credential set
    whose pass finds two records, the consumer of [_load_iam_list] is handed
    the list of both as one object. *)
Lemma rotating_pass_is_handed_over_as_a_list :
  let X := Scenario.externals Scenario.two_then_nothing in
  emitted <$> _load_iam_list X Scenario.iam_connector collecting 2
                (Scenario.start [VDict [("role", VStr "audit")]])
    = Some [YList [YRecord (VInt 1); YRecord (VInt 2)]]
  ∧ is_single (YList [YRecord (VInt 1); YRecord (VInt 2)]) = false.
Proof. split; vm_compute; reflexivity. Qed.

(** The scenario of the spec: two records, then the empty page that ends
    the loop. *)
Example two_records_then_the_end :
  let X := Scenario.externals Scenario.two_then_nothing in
  let self := Scenario.connector Scenario.plain_list (VDict []) in
  let run := get_list_of_items X self Scenario.taking VNone false (Scenario.start []) in
  emitted run = [VInt 1; VInt 2] ∧ outcome run = None ∧ world (final run) = (2, []).
Proof. repeat split; vm_compute; reflexivity. Qed.

(** A failure after the first page is raised as the in-the-middle
    exception, with the records of the first page already handed over. *)
Example shim_error_in_the_middle :
  let X := Scenario.externals Scenario.shim_after_one in
  let self := Scenario.connector Scenario.plain_list (VDict []) in
  let run := get_list_of_items X self Scenario.taking VNone false (Scenario.start []) in
  emitted run = [VInt 1]
  ∧ outcome run =
      Some (Exn ManagedConnectorListGetInMiddleException (VStr "upstream is down")).
Proof. split; vm_compute; reflexivity. Qed.

(** The scenario of the spec: software enrichment without a software
    endpoint reads the record already fetched; the two requests made are the
    two list pages. *)
Example software_from_the_fetched_record :
  let X := Scenario.externals Scenario.one_host in
  let run := _load_list X Scenario.software_connector collecting VNone false
               (Scenario.start []) in
  emitted run =
    [YRecord
       (VDict [("vim", VStr "9.1");
               ("software",
                VList [VDict [("name", VStr "vim"); ("version", VStr "vim");
                              ("path", VNone)]]);
               ("saas", VDict [("sync_key", VStr "k"); ("name", VStr "Slack")])])]
  ∧ outcome run = None
  ∧ world (final run) = (2, []).
Proof. repeat split; vm_compute; reflexivity. Qed.

(** The record is changed in place: after the run, the page under
    [list_response], [detail_response] and [software_response] all show the
    record with its software and its SaaS block. *)
Example record_changed_in_place :
  let X := Scenario.externals Scenario.one_host in
  let self := Scenario.software_connector in
  let enriched :=
    VDict [("vim", VStr "9.1");
           ("software",
            VList [VDict [("name", VStr "vim"); ("version", VStr "vim");
                          ("path", VNone)]]);
           ("saas", VDict [("sync_key", VStr "k"); ("name", VStr "Slack")])] in
  let page := VList [VDict [("vim", VStr "9.1")]] in
  let s := Build_State (<["list_response" := page]> ∅) (0, []) in
  let after := snd (enrich X self (VDict [("vim", VStr "9.1")]) s) in
  rendering_context after !! "list_response" = Some (VList [enriched])
  ∧ rendering_context after !! "detail_response" = Some enriched
  ∧ rendering_context after !! "software_response" = Some enriched.
Proof. repeat split; vm_compute; reflexivity. Qed.

Lemma pagination_bounded_witness :
  let X := Scenario.externals Scenario.always_one in
  let self := Scenario.connector Scenario.plain_list (VDict []) in
  outcome (get_list_of_items X self Scenario.taking VNone false (Scenario.start []))
    = Some max_iteration.
Proof.
  intros X self.
  pose (pages := full_pages X self Scenario.taking Scenario.plain_controls VNone MAX_ITERATIONS 0
                   (start_context (Scenario.start []))).
  assert (pages = Some (default [] (fst <$> pages),
                        default (Scenario.start []) (snd <$> pages))) as E
    by (vm_compute; reflexivity).
  destruct (pagination_bounded X self Scenario.taking VNone false (Scenario.start []))
    as (_ & _ & H).
  rewrite (H Scenario.plain_controls _ _ eq_refl E). reflexivity.
Defined.

Lemma empty_page_ends_pagination_witness :
  let X := Scenario.externals Scenario.two_then_nothing in
  let self := Scenario.connector Scenario.plain_list (VDict []) in
  let run := get_list_of_items X self Scenario.taking VNone false (Scenario.start []) in
  emitted run = [VInt 1; VInt 2] ∧ outcome run = None.
Proof.
  intros X self run.
  pose (listed := listed_pages X self (λ _ s, s) Scenario.plain_controls VNone 1 0
                    (start_context (Scenario.start []))).
  pose (s1 := default (Scenario.start []) (snd <$> listed)).
  assert (listed = Some ([[VInt 1; VInt 2]], s1)) as E by (vm_compute; reflexivity).
  assert (fetch_page X self Scenario.plain_controls VNone s1
          = (Ok (Page (VList [])),
             snd (fetch_page X self Scenario.plain_controls VNone s1))) as F
    by (vm_compute; reflexivity).
  destruct (empty_page_ends_pagination X self (λ _ s, s) VNone false (Scenario.start [])
              Scenario.plain_controls 1 _ _ _ _ eq_refl E
              ltac:(unfold MAX_ITERATIONS; lia) F eq_refl)
    as (Hout & _ & _ & _ & _ & _ & H).
  split; [exact Hout|]. apply H. lia.
Defined.

Lemma break_early_at_start_witness :
  let X := Scenario.externals Scenario.always_one in
  let self := Scenario.connector Scenario.breaking_list (VDict []) in
  get_list_of_items X self Scenario.taking VNone false (Scenario.start [])
    = Build_Run [] None (start_context (Scenario.start [])).
Proof.
  intros X self.
  apply (break_early_at_start X self Scenario.taking VNone false (Scenario.start [])
           (Build_controls (VDict [("break_early", VBool true)]) (VBool true) VNone
              (VStr "list_response"))
           Scenario.blank (VBool true)); reflexivity.
Defined.

Lemma default_pass_tolerance_witness :
  let X := Scenario.externals Scenario.nothing in
  let s := Scenario.start [VDict [("role", VStr "audit")]] in
  (emitted <$> _load_iam_list X Scenario.iam_connector collecting 2 s) = Some [YList []]
  ∧ (outcome <$> _load_iam_list X Scenario.iam_connector collecting 2 s)
      = Some (Some empty_in_beginning).
Proof.
  intros X s.
  pose (passes := rotating_passes X Scenario.iam_connector collecting 2 s).
  pose (s1 := default s ((λ p, snd p) <$> passes)).
  assert (passes = Some ([YList []], Ok 0, 1, s1)) as E by (vm_compute; reflexivity).
  assert (fetch_page X Scenario.iam_connector Scenario.plain_controls VNone (start_context s1)
          = (Ok (Page (VList [])),
             snd (fetch_page X Scenario.iam_connector Scenario.plain_controls VNone
                    (start_context s1)))) as F
    by (vm_compute; reflexivity).
  destruct (default_pass_tolerance X Scenario.iam_connector collecting 2 s) as [_ H].
  destruct (H _ _ _ _ E) as (_ & _ & Hrun).
  rewrite (Hrun Scenario.plain_controls (VList []) _ eq_refl F eq_refl).
  split; reflexivity.
Defined.

Lemma yielded_objects_shape_witness :
  let X := Scenario.externals Scenario.two_then_nothing in
  let s := Scenario.start [VDict [("role", VStr "audit")]] in
  emitted <$> _load_iam_list X Scenario.iam_connector collecting 2 s
    = Some [YList [YRecord (VInt 1); YRecord (VInt 2)]].
Proof.
  intros X s.
  pose (passes := completed_passes X Scenario.iam_connector collecting 1 s).
  pose (s1 := default s (snd <$> passes)).
  assert (passes = Some ([[YRecord (VInt 1); YRecord (VInt 2)]], s1)) as E
    by (vm_compute; reflexivity).
  destruct (yielded_objects_shape X Scenario.iam_connector collecting) as (_ & _ & _ & H).
  destruct (H 1 2 s (VStr "c") s _ s1 s1 eq_refl eq_refl E
              ltac:(vm_compute; reflexivity) ltac:(lia)) as [-> _].
  vm_compute. reflexivity.
Defined.

(** * Further properties *)

(** ** Dictionaries *)

Lemma dict_get_set_ne d k k' v : k ≠ k' → dict_get (dict_set d k v) k' = dict_get d k'.
Proof.
  intros Hne. induction d as [|[k0 v0] d IH]; simpl.
  - destruct (String.eqb_spec k k'); [done|done].
  - destruct (String.eqb_spec k0 k) as [->|Hk0]; simpl.
    + destruct (String.eqb_spec k k'); [done|done].
    + destruct (String.eqb_spec k0 k'); [done|]. apply IH.
Qed.

Lemma dict_get_set d k v k' :
  dict_get (dict_set d k v) k' = if String.eqb k k' then Some v else dict_get d k'.
Proof.
  destruct (String.eqb_spec k k') as [->|Hne].
  - apply dict_get_set_eq.
  - by apply dict_get_set_ne.
Qed.

Lemma dict_get_not_in d k : k ∉ map fst d → dict_get d k = None.
Proof.
  induction d as [|[k0 v0] d IH]; simpl; [done|].
  intros Hk. apply not_elem_of_cons in Hk as [Hne Hk].
  destruct (String.eqb_spec k0 k) as [->|_]; [done|]. by apply IH.
Qed.

Lemma overlaid_update m : ∀ d, keys_once m → overlaid d m (dict_update d m).
Proof.
  unfold keys_once, overlaid, dict_update.
  induction m as [|[k0 v0] m IH]; intros d Hm k; simpl; [done|].
  inversion Hm as [|? ? Hk0 Hm']; subst.
  rewrite (IH _ Hm'). destruct (String.eqb_spec k0 k) as [->|Hne].
  - rewrite dict_get_not_in by done. apply dict_get_set_eq.
  - destruct (dict_get m k); [done|]. by apply dict_get_set_ne.
Qed.

(** ** Failures of the pagination *)

Section Failures.

Context {W : Type} (X : Externals W) (self : Connector).

Lemma classify_list_phase iteration e : list_phase (classify X iteration e) = true.
Proof.
  unfold classify, list_phase.
  destruct (is_class ManagedConnectorListGetEmptyInBeginningException e) eqn:E.
  - rewrite E. by rewrite !orb_true_r.
  - destruct (iteration =? 0); done.
Qed.

Lemma classify_other iteration e :
  is_class ManagedConnectorListGetEmptyInBeginningException e = false →
  classify X iteration e =
    Exn (if iteration =? 0
         then ManagedConnectorListGetInBeginningException
         else ManagedConnectorListGetInMiddleException)
      (VStr (str X e)).
Proof. unfold classify. intros ->. by destruct (iteration =? 0). Qed.

Section Consumer.

Context {Out : Type} (body : value → M W Out).
Variables (iam_credentials : value) (skip_empty_response : bool).

Abbreviation items :=
  (get_list_of_items X self body iam_credentials skip_empty_response).

(** X1: a failure of the request for page [n] (the call builder, the
    authorization, the executor, the parser, the shim marker or the
    renderer raising) ends the run with what the [n] pages before it
    yielded; it is raised as the in-beginning exception when [n] is 0 and as
    the in-middle exception otherwise, with [str] of the original exception
    as its error. *)
Theorem failure_is_classified_by_iteration (s : State W) ctl n outs s1 e s2 :
  pull_controls self = Ok ctl →
  full_pages X self body ctl iam_credentials n 0 (start_context s) = Some (outs, s1) →
  n < MAX_ITERATIONS →
  fetch_page X self ctl iam_credentials s1 = (Raise e, s2) →
  is_class ManagedConnectorListGetEmptyInBeginningException e = false →
  items s =
    Build_Run outs
      (Some (Exn (if n =? 0
                  then ManagedConnectorListGetInBeginningException
                  else ManagedConnectorListGetInMiddleException)
               (VStr (str X e))))
      s2.
Proof.
  intros Hctl Hpages Hn Hfetch Hcls.
  rewrite (get_list_of_items_after_pages X self body iam_credentials
             skip_empty_response ctl _ s outs s1 Hctl Hpages) by lia.
  destruct (MAX_ITERATIONS - n) as [|fuel] eqn:Hfuel; [lia|].
  rewrite while_loop_eq, Hfetch.
  destruct (Nat.ltb_spec n MAX_ITERATIONS) as [_|?]; [|lia].
  by rewrite app_nil_r, classify_other.
Qed.

(** X2: a page whose result is true but cannot be iterated (a number,
    [True]) is a failure of the same kind: the [TypeError] of the [for]
    statement is classified by the iteration, and nothing of that page is
    yielded. *)
Theorem result_that_is_no_sequence (s : State W) ctl n outs s1 result s2 :
  pull_controls self = Ok ctl →
  full_pages X self body ctl iam_credentials n 0 (start_context s) = Some (outs, s1) →
  n < MAX_ITERATIONS →
  fetch_page X self ctl iam_credentials s1 = (Ok (Page result), s2) →
  truthy result = true →
  (∀ l, result ≠ VList l) → (∀ d, result ≠ VDict d) → (∀ t, result ≠ VStr t) →
  ∃ error,
    items s =
      Build_Run outs
        (Some (Exn (if n =? 0
                    then ManagedConnectorListGetInBeginningException
                    else ManagedConnectorListGetInMiddleException)
                 (VStr (str X (Exn TypeError error)))))
        s2.
Proof.
  intros Hctl Hpages Hn Hfetch Htrue Hl Hd Ht.
  rewrite (get_list_of_items_after_pages X self body iam_credentials
             skip_empty_response ctl _ s outs s1 Hctl Hpages) by lia.
  destruct (MAX_ITERATIONS - n) as [|fuel] eqn:Hfuel; [lia|].
  rewrite while_loop_eq, Hfetch, Htrue.
  destruct (Nat.ltb_spec n MAX_ITERATIONS) as [_|?]; [|lia].
  change (negb true) with false. cbv iota.
  destruct result; try done; try (by destruct (Hl l)); try (by destruct (Hd d));
    try (by destruct (Ht s0)); simpl; eexists; by rewrite app_nil_r, classify_other.
Qed.

(** X3: when the break-early predicate renders true before page [n], the run
    ends without an exception with what the [n] pages before yielded, for
    every [n] below the cap. *)
Theorem break_early_after_pages (s : State W) ctl n outs s1 s2 :
  pull_controls self = Ok ctl →
  full_pages X self body ctl iam_credentials n 0 (start_context s) = Some (outs, s1) →
  n < MAX_ITERATIONS →
  fetch_page X self ctl iam_credentials s1 = (Ok BreakEarly, s2) →
  items s = Build_Run outs None s2.
Proof.
  intros Hctl Hpages Hn Hfetch.
  rewrite (get_list_of_items_after_pages X self body iam_credentials
             skip_empty_response ctl _ s outs s1 Hctl Hpages) by lia.
  destruct (MAX_ITERATIONS - n) as [|fuel] eqn:Hfuel; [lia|].
  rewrite while_loop_eq, Hfetch.
  destruct (Nat.ltb_spec n MAX_ITERATIONS) as [_|?]; [|lia].
  rewrite app_nil_r. destruct (Nat.leb_spec MAX_ITERATIONS n); [lia|done].
Qed.

End Consumer.

Lemma contains_in_list k l :
  ∃ b, Py.contains k (VList l) = Ok b ∧ (b = true ↔ VStr k ∈ l).
Proof.
  eexists. split; [reflexivity|]. rewrite existsb_exists. split.
  - intros (x & Hx & Hm). destruct x; try done.
    apply String.eqb_eq in Hm as ->. by apply list_elem_of_In.
  - intros Hin. exists (VStr k). split; [by apply list_elem_of_In|].
    apply String.eqb_refl.
Qed.

(** The marker of the shim service. *)
Lemma shim_error_stateless list_response : stateless (shim_error (W:=W) list_response).
Proof.
  unfold shim_error. destruct (truthy list_response); [|apply stateless_ret].
  apply stateless_bind; [apply stateless_lift|]. intros [].
  - apply stateless_bind; [apply stateless_lift|]. intros m s r s'.
    unfold raise. by intros [= _ <-].
  - apply stateless_ret.
Qed.

(** X4: the shim check lets a response pass exactly when it is false or does
    not contain the marker; a mapping that has the key
    [shim_error_message] raises [HTTPError] with the value under that key;
    a list that has the marker among its elements, or a string that has it
    as a substring, raises a [TypeError] instead, and so does a true
    response that is no container; a list without the marker among its
    elements and a string without the marker in it pass. *)
Theorem shim_marker (list_response : value) (s : State W) :
  (truthy list_response = false → shim_error list_response s = (Ok tt, s))
  ∧ (∀ d message, list_response = VDict d →
       dict_get d "shim_error_message" = Some message →
       shim_error list_response s = (Raise (Exn HTTPError message), s))
  ∧ (∀ d, list_response = VDict d →
       dict_get d "shim_error_message" = None →
       shim_error list_response s = (Ok tt, s))
  ∧ (∀ l, list_response = VList l → l ≠ [] →
       (VStr "shim_error_message" ∈ l →
          ∃ error, shim_error list_response s = (Raise (Exn TypeError error), s))
       ∧ (VStr "shim_error_message" ∉ l → shim_error list_response s = (Ok tt, s)))
  ∧ (∀ t, list_response = VStr t →
       Py.is_substring "shim_error_message" t = true →
       ∃ error, shim_error list_response s = (Raise (Exn TypeError error), s))
  ∧ (∀ t, list_response = VStr t →
       Py.is_substring "shim_error_message" t = false →
       shim_error list_response s = (Ok tt, s))
  ∧ (truthy list_response = true →
     (∀ l, list_response ≠ VList l) → (∀ d, list_response ≠ VDict d) →
     (∀ t, list_response ≠ VStr t) →
     ∃ error, shim_error list_response s = (Raise (Exn TypeError error), s)).
Proof.
  unfold shim_error. split; [|split; [|split; [|split; [|split; [|split]]]]].
  - intros ->. done.
  - intros d message -> Hm. destruct d; [done|].
    unfold bind, lift, raise, Py.contains, Py.getitem; simpl truthy; cbv iota.
    by rewrite Hm.
  - intros d -> Hm. destruct d; [done|].
    unfold bind, lift, raise, Py.contains; simpl truthy; cbv iota. by rewrite Hm.
  - intros l -> Hl. destruct l as [|v l]; [done|]. simpl truthy. cbv iota.
    unfold bind, lift.
    destruct (contains_in_list "shim_error_message" (v :: l)) as (b & -> & Hb).
    split.
    + intros Hin. apply Hb in Hin as ->. simpl. eauto.
    + intros Hnin. destruct b; [by destruct Hnin; apply Hb|done].
  - intros t -> Hsub. destruct t; [done|]. simpl truthy. cbv iota.
    unfold bind, lift, Py.contains. rewrite Hsub. simpl. eauto.
  - intros t -> Hsub. destruct t; [done|]. simpl truthy. cbv iota.
    unfold bind, lift, Py.contains. by rewrite Hsub.
  - intros Htrue Hl Hd Ht. rewrite Htrue.
    destruct list_response; try done; try (by destruct (Hl l));
      try (by destruct (Hd d)); try (by destruct (Ht s0)); simpl; eauto.
Qed.

End Failures.

(** ** Authorization of a request *)

Section Authorization.

Context {W : Type} (X : Externals W).



(** A specification without a [headers] entry cannot be authorized. *)
Lemma authorization_needs_headers d ah ap ssl_adapter :
  dict_get d "headers" = None →
  apply_authorization (VDict d) ah ap ssl_adapter = Raise (Exn KeyError (VStr "headers")).
Proof. intros H. unfold apply_authorization, update_field. simpl. by rewrite H. Qed.

Section Loaded.

Variable json_loads : string → Res value.

(** X6: the static mode round trip.  When the loader accepts ready-to-use
    headers and params, [attach_saas_authorization] hands out, for every
    request, exactly the [headers] and [params] entries of the input (an
    absent one as the empty mapping), with no TLS adapter, without a request
    and without touching the state. *)
Theorem static_authorization_round_trip (c : Connector) d :
  decodes_to json_loads (saas_authorization c) d →
  isinstance_str (dget d "credential_id" VNone) = false →
  ¬ is_session d →
  nonempty_mapping d "headers" ∨ nonempty_mapping d "params" →
  truthy (session_auth_behavior c) = false →
  ∃ c', saas_authorization_loader json_loads c = (None, c')
        ∧ ∀ spec (s : State W),
            attach_saas_authorization X c' spec s =
              (Ok (dget d "headers" (VDict []), dget d "params" (VDict []), VNone), s).
Proof.
  intros Hd Hc Hs Hr Hb. eexists. split.
  - rewrite (saas_loader_on_mapping json_loads c d Hd), Hc, (not_session d Hs).
    apply ready_to_use_spec in Hr. by rewrite Hr.
  - intros spec s. unfold attach_saas_authorization, bind, lift, ret. simpl.
    by rewrite Hb.
Qed.


End Loaded.

Section Session.

Variable self : Connector.

(** X8: [generate_session_based_secret] clears the two keys on its last
    line only: when it raises, the rendering context is either as it was
    (the request failed) or still holds [response] and [response_headers]
    of the session request (a template failed). *)
Theorem failed_session_secret_keeps_response (s s' : State W) e :
  generate_session_based_secret X self s = (Raise e, s') →
  rendering_context s' = rendering_context s
  ∨ ∃ response response_headers,
      rendering_context s' =
        <["response_headers" := response_headers]>
          (<["response" := response]> (rendering_context s))
      ∧ rendering_context s' !! "response" = Some response
      ∧ rendering_context s' !! "response_headers" = Some response_headers.
Proof.
  unfold generate_session_based_secret. intros H.
  apply bind_raise in H as [H|(spec & s1 & Hspec & H)].
  { left. by injection H as _ <-. }
  injection Hspec as _ <-.
  apply bind_raise in H as [H|(response & s2 & Hreq & H)].
  { left. unfold request, bind, lift, acting in H.
    destruct (Py.kwargs spec); [|by injection H as _ <-].
    destruct (perform_api_request X a (world s)). by injection H as _ <-. }
  assert (rendering_context s2 = rendering_context s) as Hs2.
  { unfold request, bind, lift, acting in Hreq.
    destruct (Py.kwargs spec); [|done].
    destruct (perform_api_request X a (world s)). by injection Hreq as _ <-. }
  apply bind_raise in H as [H|(object & s3 & Hobj & H)].
  { left. injection H as _ <-. done. }
  injection Hobj as _ <-.
  right. exists object, (headers response).
  assert (rendering_context s' =
            <["response_headers" := headers response]>
              (<["response" := object]> (rendering_context s))) as ->.
  { rewrite <- Hs2.
    apply bind_raise in H as [H|([] & s4 & Hup & H)]; [done|].
    injection Hup as <-.
    apply bind_raise in H as [H|(result & s5 & Hres & H)].
    { by injection H as _ <-. }
    injection Hres as _ <-.
    apply bind_raise in H as [H|(ah & s6 & Hh & H)].
    { by apply stateless_render_templates in H as ->. }
    apply stateless_render_templates in Hh as ->.
    apply bind_raise in H as [H|(result' & s7 & Hres' & H)].
    { by injection H as _ <-. }
    injection Hres' as _ <-.
    apply bind_raise in H as [H|(ap & s8 & Hp & H)].
    { by apply stateless_render_templates in H as ->. }
    apply bind_raise in H as [H|([] & s9 & _ & H)]; done. }
  split; [done|]. split.
  - rewrite lookup_insert_ne, lookup_insert_eq; done.
  - apply lookup_insert_eq.
Qed.

End Session.

End Authorization.

(** ** What is written to the rendering context *)

Section Frame.

Context {W : Type}.

Lemma update_context_other kvs : ∀ (c : gmap string value) k,
  k ∉ map fst kvs → update_context kvs c !! k = c !! k.
Proof.
  unfold update_context. induction kvs as [|[k0 v0] kvs IH]; intros c k Hk; simpl; [done|].
  apply not_elem_of_cons in Hk as [Hne Hk].
  rewrite IH by done. by apply lookup_insert_ne.
Qed.

Lemma clear_context_other ks : ∀ (c : gmap string value) k,
  k ∉ ks → clear_context ks c !! k = c !! k.
Proof.
  unfold clear_context. induction ks as [|k0 ks IH]; intros c k Hk; simpl; [done|].
  apply not_elem_of_cons in Hk as [Hne Hk].
  rewrite IH by done. by apply lookup_delete_ne.
Qed.

Lemma writes_only_stateless {A} keys (m : M W A) : stateless m → writes_only keys m.
Proof. intros Hm s r s' k H _. by rewrite (Hm _ _ _ H). Qed.

Lemma writes_only_acting {A} keys (f : W → Res A * W) : writes_only keys (acting f).
Proof.
  intros s r s' k H _. unfold acting in H.
  destruct (f (world s)). by injection H as _ <-.
Qed.

Lemma writes_only_raise {A} keys e : writes_only keys (raise (W:=W) (A:=A) e).
Proof. intros s r s' k [= _ <-] _. done. Qed.

Lemma writes_only_update keys kvs :
  (∀ k, k ∈ map fst kvs → k ∈ keys) →
  writes_only keys (update_rendering_context (W:=W) kvs).
Proof.
  intros Hsub s r s' k [= _ <-] Hk. simpl.
  apply update_context_other. intros Hin. by apply Hk, Hsub.
Qed.

Lemma writes_only_clear keys ks :
  (∀ k, k ∈ ks → k ∈ keys) →
  writes_only keys (clear_rendering_context (W:=W) ks).
Proof.
  intros Hsub s r s' k [= _ <-] Hk. simpl.
  apply clear_context_other. intros Hin. by apply Hk, Hsub.
Qed.

Lemma writes_only_bind {A B} keys (m : M W A) (f : A → M W B) :
  writes_only keys m → (∀ a, writes_only keys (f a)) → writes_only keys (bind m f).
Proof.
  intros Hm Hf s r s' k H Hk. unfold bind in H.
  destruct (m s) as [[a|e] s1] eqn:E.
  - rewrite (Hf a _ _ _ _ H Hk). by apply (Hm _ _ _ _ E).
  - injection H as _ <-. by apply (Hm _ _ _ _ E).
Qed.

Lemma writes_only_try {A} keys (m : M W A) (h : exn → M W A) :
  writes_only keys m → (∀ e, writes_only keys (h e)) → writes_only keys (try_except m h).
Proof.
  intros Hm Hh s r s' k H Hk. unfold try_except in H.
  destruct (m s) as [[a|e] s1] eqn:E.
  - injection H as _ <-. by apply (Hm _ _ _ _ E).
  - rewrite (Hh e _ _ _ _ H Hk). by apply (Hm _ _ _ _ E).
Qed.

Lemma writes_only_weaken {A} keys keys' (m : M W A) :
  (∀ k, k ∈ keys → k ∈ keys') → writes_only keys m → writes_only keys' m.
Proof. intros Hsub Hm s r s' k H Hk. apply (Hm _ _ _ _ H). intros Hin. by apply Hk, Hsub. Qed.

End Frame.

Ltac solve_keys :=
  unfold session_keys, page_keys, enrichment_keys; simpl;
  rewrite ?elem_of_cons, ?elem_of_nil; intuition (try discriminate; auto).

Ltac frame_step :=
  first
    [ apply writes_only_stateless;
      first [ apply stateless_ret | apply stateless_lift | apply stateless_reading
            | apply stateless_render_templates | apply stateless_render_entries ]
    | apply writes_only_acting
    | apply writes_only_raise
    | apply writes_only_update; intros ?; solve_keys
    | apply writes_only_clear; intros ?; solve_keys
    | apply writes_only_try; [|intros ?]
    | apply writes_only_bind; [|intros ?] ].

Section FrameOfTheRun.

Context {W : Type} (X : Externals W) (self : Connector).

Lemma request_writes keys spec : writes_only keys (request X spec).
Proof. unfold request. repeat frame_step. Qed.

Lemma session_secret_writes keys :
  (∀ k, k ∈ session_keys → k ∈ keys) →
  writes_only keys (generate_session_based_secret X self).
Proof.
  intros Hsub. apply (writes_only_weaken session_keys); [done|].
  unfold generate_session_based_secret, session_keys.
  repeat first [apply request_writes | frame_step | progress cbv zeta].
Qed.

Lemma attach_writes keys spec :
  (∀ k, k ∈ session_keys → k ∈ keys) →
  writes_only keys (attach_saas_authorization X self spec).
Proof.
  intros Hsub. unfold attach_saas_authorization.
  apply writes_only_bind; [frame_step|intros credential_id].
  apply writes_only_bind.
  - destruct (truthy credential_id).
    + apply writes_only_bind; [frame_step|intros ?].
      apply writes_only_bind; [frame_step|intros ?].
      apply writes_only_bind; [frame_step|intros certificates].
      destruct (truthy certificates); repeat frame_step.
    + destruct (truthy (session_auth_behavior self)); [|frame_step].
      apply writes_only_bind; [by apply session_secret_writes|intros ?]. frame_step.
  - intros ?. repeat frame_step.
Qed.

Lemma authorized_call_writes keys spec :
  (∀ k, k ∈ session_keys → k ∈ keys) →
  writes_only keys (authorized_call X self spec).
Proof.
  intros Hsub. unfold authorized_call.
  apply writes_only_bind; [by apply attach_writes|intros [[? ?] ?]].
  repeat first [apply request_writes | frame_step].
Qed.

Lemma session_in_enrichment k : k ∈ session_keys → k ∈ enrichment_keys.
Proof. solve_keys. Qed.

Lemma session_in_page k : k ∈ session_keys → k ∈ page_keys.
Proof. solve_keys. Qed.

Lemma get_detail_of_item_writes r :
  writes_only enrichment_keys (get_detail_of_item X self r).
Proof.
  unfold get_detail_of_item. destruct (truthy (detail_behavior self)); [|frame_step].
  apply writes_only_try; [|intros ?; frame_step].
  apply writes_only_bind; [unfold enrichment_keys; frame_step|intros ?].
  apply writes_only_bind; [frame_step|intros ?].
  apply writes_only_bind;
    [apply authorized_call_writes, session_in_enrichment|intros object].
  destruct object; frame_step.
Qed.

Lemma changed_in_place_writes aliased before after :
  writes_only enrichment_keys (changed_in_place (W:=W) self aliased before after).
Proof.
  unfold changed_in_place, enrichment_keys.
  apply writes_only_bind; [destruct aliased; frame_step|intros ?].
  apply writes_only_bind; [destruct (_ && _); frame_step|intros ?].
  destruct (truthy (detail_behavior self)); [frame_step|].
  apply writes_only_bind; [frame_step|intros [page|]]; frame_step.
Qed.

Lemma software_entries_writes items : ∀ acc,
  writes_only enrichment_keys (software_entries X self items acc).
Proof.
  induction items as [|item rest IH]; intros acc; simpl; [frame_step|].
  apply writes_only_bind; [|intros ?; apply IH].
  unfold software_entry.
  apply writes_only_bind; [unfold enrichment_keys; frame_step|intros ?].
  do 4 (apply writes_only_bind; [frame_step|intros ?]).
  apply writes_only_bind; [|intros ?; frame_step].
  match goal with |- context [match ?v with VNone => _ | _ => _ end] => destruct v end;
    repeat frame_step.
Qed.

Lemma _add_desktop_software_writes item_details :
  writes_only enrichment_keys (_add_desktop_software X self item_details).
Proof.
  unfold _add_desktop_software.
  apply writes_only_try; [|intros ?; frame_step].
  apply writes_only_bind; [frame_step|intros enabled].
  destruct enabled; [|frame_step].
  apply writes_only_bind; [unfold enrichment_keys; frame_step|intros ?].
  apply writes_only_bind.
  { unfold _get_software_response.
    apply writes_only_bind; [frame_step|intros url].
    apply writes_only_bind; [destruct (truthy url); frame_step|intros valid].
    destruct (truthy valid); [|frame_step].
    unfold _call_endpoint_for_software.
    apply writes_only_bind; [frame_step|intros ?].
    apply authorized_call_writes, session_in_enrichment. }
  intros software_response. apply writes_only_bind.
  { unfold _build_list_of_software.
    apply writes_only_bind; [unfold enrichment_keys; frame_step|intros ?].
    do 3 (apply writes_only_bind; [frame_step|intros ?]).
    apply writes_only_bind; [apply software_entries_writes|intros ?]. frame_step. }
  intros list_of_software. unfold _add_list_of_software.
  destruct (truthy list_of_software); [|frame_step].
  apply writes_only_bind; [frame_step|intros ?].
  apply writes_only_bind; [apply changed_in_place_writes|intros ?].
  frame_step.
Qed.

Lemma _add_saas_information_writes aliased item_details :
  writes_only enrichment_keys (_add_saas_information X self aliased item_details).
Proof.
  unfold _add_saas_information.
  apply writes_only_try; [|intros ?; frame_step].
  destruct (saas_behavior self); try frame_step.
  destruct (_ && _); [|frame_step].
  apply writes_only_bind; [frame_step|intros ?].
  apply writes_only_bind; [|intros ?; frame_step].
  apply changed_in_place_writes.
Qed.

Lemma load_list_item_writes r :
  writes_only enrichment_keys (load_list_item X self r).
Proof.
  assert (writes_only enrichment_keys (enrich X self r)) as He.
  { unfold enrich.
    apply writes_only_bind; [apply get_detail_of_item_writes|intros ?].
    apply writes_only_bind; [apply _add_desktop_software_writes|intros ?].
    apply _add_saas_information_writes. }
  intros s res s' k H Hk. unfold load_list_item in H.
  destruct (enrich X self r s) as [[d|e] s1] eqn:E.
  - injection H as _ <-. by apply (He _ _ _ _ E).
  - destruct (enrichment_failure e); injection H as _ <-; by apply (He _ _ _ _ E).
Qed.

(** X9: the enrichment of the records of a page writes seven keys of the
    rendering context and no other: [list_response_item],
    [detail_response], [software_response], [software_response_item],
    [response] and [response_headers], and [list_response], whose page
    holds the records that are changed in place.  Whatever the enrichment
    does and however it fails, [iteration], [list_response_headers],
    [list_response_links] and [inputs] are, after the page, what they were
    before, for a consumer that leaves the context alone. *)
Theorem enrichment_keeps_pagination_state
    (deliver : yielded → State W → State W) (entities : list value) :
  (∀ y s, rendering_context (deliver y s) = rendering_context s) →
  ∀ s outs e s' k,
    emit (handing_over X self deliver) entities s = (outs, e, s') →
    k ∉ enrichment_keys →
    rendering_context s' !! k = rendering_context s !! k.
Proof.
  intros Hdeliver. induction entities as [|r rest IH]; intros s outs e s' k; simpl.
  - by intros [= _ _ <-].
  - unfold handing_over at 1.
    destruct (load_list_item X self r s) as [[y|e0] s1] eqn:E.
    + destruct (emit _ rest (deliver y s1)) as [[outs' e'] s2] eqn:E2.
      intros [= _ _ <-] Hk. rewrite (IH _ _ _ _ _ E2 Hk), Hdeliver.
      by apply (load_list_item_writes _ _ _ _ _ E).
    + intros [= _ _ <-] Hk. by apply (load_list_item_writes _ _ _ _ _ E).
Qed.

Lemma fetch_page_writes ctl creds :
  writes_only page_keys (fetch_page X self ctl creds).
Proof.
  unfold fetch_page.
  apply writes_only_bind; [frame_step|intros spec].
  apply writes_only_bind.
  { destruct (truthy (pagination_dict ctl)); repeat frame_step. }
  intros [|]; [frame_step|].
  apply writes_only_bind.
  { destruct (truthy (pagination_dict ctl)); [|frame_step].
    unfold add_pagination_extras.
    apply writes_only_bind; [frame_step|intros add_if].
    destruct (truthy add_if); repeat frame_step. }
  intros spec1. apply writes_only_bind.
  { unfold list_authorization. destruct (truthy creds); [repeat frame_step|].
    apply attach_writes, session_in_page. }
  intros [[? ?] ?].
  apply writes_only_bind; [frame_step|intros ?].
  apply writes_only_bind; [apply request_writes|intros ?].
  apply writes_only_bind; [frame_step|intros ?].
  apply writes_only_bind;
    [apply writes_only_stateless, shim_error_stateless|intros ?].
  apply writes_only_bind; [unfold page_keys; frame_step|intros ?].
  repeat frame_step.
Qed.

Lemma full_pages_succ {Out} (body : value → M W Out) ctl creds n iteration s :
  full_pages X self body ctl creds (S n) iteration s =
  match fetch_page X self ctl creds s with
  | (Ok (Page result), s1) =>
      if truthy result then
        match Py.iter result with
        | Ok entities =>
            match emit body entities s1 with
            | (outs, None, s2) =>
                match full_pages X self body ctl creds n (S iteration)
                        (set_iteration (S iteration) s2) with
                | Some (outs', s3) => Some (outs ++ outs', s3)
                | None => None
                end
            | (_, Some _, _) => None
            end
        | Raise _ => None
        end
      else None
  | _ => None
  end.
Proof. reflexivity. Qed.

Lemma full_pages_iteration {Out} (body : value → M W Out) ctl creds n :
  ∀ iteration s outs s1,
    rendering_context s !! "iteration" = Some (VInt (Z.of_nat iteration)) →
    full_pages X self body ctl creds n iteration s = Some (outs, s1) →
    rendering_context s1 !! "iteration" = Some (VInt (Z.of_nat (iteration + n))).
Proof.
  induction n as [|n IH]; intros iteration s outs s1 Hs H.
  - injection H as _ <-. by rewrite Nat.add_0_r.
  - rewrite full_pages_succ in H.
    destruct (fetch_page X self ctl creds s) as [[[|result]|e0] s3]; try done.
    destruct (truthy result); [|done].
    destruct (Py.iter result) as [entities|]; [|done].
    destruct (emit body entities s3) as [[o [e1|]] s4]; [done|].
    destruct (full_pages _ _ _ _ _ n _ _) as [[o' s5]|] eqn:E; [|done].
    injection H as _ <-. apply IH in E.
    + rewrite E. do 3 f_equal. lia.
    + apply lookup_insert_eq.
Qed.

(** X10: the request for a page writes the three [list_response] keys (and,
    through a session authorization, [response] and [response_headers]) and
    nothing else; in particular the result expression of page [n] is
    rendered in a context whose [iteration] is [n]. *)
Theorem page_is_rendered_with_its_iteration {Out} (body : value → M W Out)
    ctl creds n s outs s1 r s2 :
  full_pages X self body ctl creds n 0 (start_context s) = Some (outs, s1) →
  fetch_page X self ctl creds s1 = (r, s2) →
  rendering_context s2 !! "iteration" = Some (VInt (Z.of_nat n))
  ∧ ∀ k, k ∉ page_keys → rendering_context s2 !! k = rendering_context s1 !! k.
Proof.
  intros Hpages Hfetch.
  assert (∀ k, k ∉ page_keys → rendering_context s2 !! k = rendering_context s1 !! k)
    as Hframe by (intros k; apply (fetch_page_writes _ _ _ _ _ _ Hfetch)).
  split; [|done]. rewrite Hframe by solve_keys.
  apply (full_pages_iteration body ctl creds n 0 _ _ _) in Hpages; [done|].
  simpl. do 3 (rewrite lookup_insert_ne by done). apply lookup_insert_eq.
Qed.

End FrameOfTheRun.

(** ** The enrichment steps *)

Section Mapped.

Context {W : Type} (X : Externals W) (self : Connector).
Context {A B : Type} (f : A → B) (body : value → M W A).

Lemma emit_mapped entities : ∀ s,
  emit (λ v, mapped f (body v)) entities s =
    let '(outs, e, s') := emit body entities s in (map f outs, e, s').
Proof.
  induction entities as [|v rest IH]; intros s; simpl; [done|].
  unfold mapped at 1. destruct (body v s) as [[a|e] s1]; [|done].
  rewrite IH. by destruct (emit body rest s1) as [[outs e] s2].
Qed.

Lemma while_loop_mapped ctl creds skip fuel : ∀ iteration s,
  while_loop X self (λ v, mapped f (body v)) ctl creds skip fuel iteration s =
    match while_loop X self body ctl creds skip fuel iteration s with
    | Some (outs, ex, it, s') => Some (map f outs, ex, it, s')
    | None => None
    end.
Proof.
  induction fuel as [|fuel IH]; intros iteration s; rewrite !while_loop_eq;
    destruct (iteration <? MAX_ITERATIONS); try done.
  destruct (fetch_page X self ctl creds s) as [[[|result]|e] s1]; try done.
  destruct (negb (truthy result)); [by destruct (_ && _)|].
  destruct (Py.iter result) as [entities|e]; [|done].
  rewrite emit_mapped. destruct (emit body entities s1) as [[outs [e|]] s2]; [done|].
  rewrite IH.
  destruct (while_loop X self body ctl creds skip fuel _ _) as [[[[outs' ex] it] s3]|];
    [|done].
  by rewrite map_app.
Qed.

Lemma get_list_of_items_mapped creds skip s :
  get_list_of_items X self (λ v, mapped f (body v)) creds skip s =
    let run := get_list_of_items X self body creds skip s in
    Build_Run (map f (emitted run)) (outcome run) (final run).
Proof.
  unfold get_list_of_items, get_list_of_items_fuel.
  destruct (pull_controls self) as [ctl|e]; [|done].
  rewrite while_loop_mapped.
  destruct (while_loop X self body _ _ _ _ _ _) as [[[[outs ex] it] s1]|]; [|done].
  destruct ex; [destruct (_ <=? _)|..]; done.
Qed.

End Mapped.

Section Steps.

Context {W : Type} (X : Externals W) (self : Connector).

Lemma emit_ext {Out} (body body' : value → M W Out) :
  (∀ v s, body v s = body' v s) →
  ∀ entities s, emit body entities s = emit body' entities s.
Proof.
  intros Hext. induction entities as [|v rest IH]; intros s; simpl; [done|].
  rewrite Hext. destruct (body' v s) as [[a|e] s1]; [|done]. by rewrite IH.
Qed.

Lemma while_loop_ext {Out} (body body' : value → M W Out) ctl creds skip :
  (∀ v s, body v s = body' v s) →
  ∀ fuel iteration s,
    while_loop X self body ctl creds skip fuel iteration s =
    while_loop X self body' ctl creds skip fuel iteration s.
Proof.
  intros Hext. induction fuel as [|fuel IH]; intros iteration s; rewrite !while_loop_eq;
    destruct (iteration <? MAX_ITERATIONS); try done.
  destruct (fetch_page X self ctl creds s) as [[[|result]|e] s1]; try done.
  destruct (negb (truthy result)); [done|].
  destruct (Py.iter result) as [entities|e]; [|done].
  rewrite (emit_ext body body' Hext).
  destruct (emit body' entities s1) as [[outs [e|]] s2]; [done|]. by rewrite IH.
Qed.

Lemma get_list_of_items_ext {Out} (body body' : value → M W Out) creds skip s :
  (∀ v s, body v s = body' v s) →
  get_list_of_items X self body creds skip s =
  get_list_of_items X self body' creds skip s.
Proof.
  intros Hext. unfold get_list_of_items, get_list_of_items_fuel.
  destruct (pull_controls self) as [ctl|e]; [|done].
  by rewrite (while_loop_ext body body' ctl creds skip Hext).
Qed.

Lemma enrich_nothing_configured r s :
  truthy (detail_behavior self) = false →
  software_enabled self = Ok false →
  saas_enabled self = false →
  enrich X self r s = (Ok r, s).
Proof.
  intros Hd Hs Ha. unfold enrich, get_detail_of_item, _add_desktop_software,
    _add_saas_information, bind, try_except, lift, ret.
  rewrite Hd, Hs. simpl. unfold saas_enabled in Ha.
  destruct (saas_behavior self); try done. by rewrite Ha.
Qed.

(** X11: with no detail behaviour, software enrichment off and SaaS
    linkage off, [_load_list] is [get_list_of_items]: it hands over every
    listed record as it is, in the same order, makes the same requests and
    ends the same way. *)
Theorem load_list_without_enrichment
    (deliver : yielded → State W → State W) creds skip s :
  truthy (detail_behavior self) = false →
  software_enabled self = Ok false →
  saas_enabled self = false →
  let listing :=
    get_list_of_items X self (λ v s, (Ok v, deliver (YRecord v) s)) creds skip s in
  _load_list X self deliver creds skip s =
    Build_Run (map YRecord (emitted listing)) (outcome listing) (final listing).
Proof.
  intros Hd Hs Ha listing. unfold _load_list.
  etransitivity;
    [|exact (get_list_of_items_mapped X self YRecord
               (λ v s, (Ok v, deliver (YRecord v) s)) creds skip s)].
  apply get_list_of_items_ext. intros v s0.
  unfold handing_over, load_list_item, mapped.
  by rewrite (enrich_nothing_configured v s0 Hd Hs Ha).
Qed.

Lemma changed_in_place_ok aliased before after (s : State W) :
  ∃ s', changed_in_place self aliased before after s = (Ok tt, s')
        ∧ world s' = world s.
Proof.
  unfold changed_in_place, bind, reading, ret, update_rendering_context.
  destruct aliased, (record_is_software_response self),
    (truthy (detail_behavior self)); simpl;
    try (match goal with |- context [?c !! "list_response"] =>
           destruct (c !! "list_response") end); eauto.
Qed.

(** X12: on a record that is a mapping, enabled SaaS linkage cannot fail:
    the record comes back with the block under [saas] and every other key
    as it was; the block has the [sync_key], and [selected_saas_id] and
    [name] exactly when they are set to something true; the outside world
    is not touched.  On a record that is not a mapping it raises the
    SaaS-phase exception. *)
Theorem saas_block_is_attached aliased d s :
  saas_behavior self = VDict d →
  truthy (dget d "enabled" VNone) = true →
  truthy (dget d "sync_key" VNone) = true →
  (∀ item, ∃ item' s',
     _add_saas_information X self aliased (VDict item) s = (Ok (VDict item'), s')
     ∧ world s' = world s
     ∧ dict_get item' "saas" = Some (VDict (saas_block d))
     ∧ (∀ k, k ≠ "saas" → dict_get item' k = dict_get item k))
  ∧ dict_get (saas_block d) "sync_key" = Some (dget d "sync_key" VNone)
  ∧ dict_get (saas_block d) "selected_saas_id" =
      (if truthy (dget d "selected_saas_id" VNone)
       then Some (dget d "selected_saas_id" VNone) else None)
  ∧ dict_get (saas_block d) "name" =
      (if truthy (dget d "name" VNone) then Some (dget d "name" VNone) else None)
  ∧ (∀ record, isinstance_dict record = false →
       ∃ e s', _add_saas_information X self aliased record s = (Raise e, s')
               ∧ exn_cls e = ManagedConnectorSaaSGetException).
Proof.
  intros Hb He Hk.
  split; [|split; [|split; [|split]]].
  - intros item. unfold _add_saas_information, try_except, bind, lift. rewrite Hb, He, Hk.
    simpl.
    destruct (changed_in_place_ok aliased (VDict item)
                (VDict (dict_set item "saas" (VDict (saas_block d)))) s)
      as (s' & -> & Hw).
    eexists _, _; (split; [reflexivity|]);
      (split; [done|]); (split; [apply dict_get_set_eq|]);
      intros k Hne; by apply dict_get_set_ne.
  - unfold saas_block.
    destruct (truthy (dget d "selected_saas_id" VNone)), (truthy (dget d "name" VNone));
      done.
  - unfold saas_block.
    destruct (truthy (dget d "selected_saas_id" VNone)), (truthy (dget d "name" VNone));
      done.
  - unfold saas_block.
    destruct (truthy (dget d "selected_saas_id" VNone)), (truthy (dget d "name" VNone));
      done.
  - intros record Hr. unfold _add_saas_information, try_except, bind, lift, raise.
    rewrite Hb, He, Hk. destruct record; try done; simpl; eauto.
Qed.

End Steps.

(** ** Software enrichment *)

Section NoAction.

Context {W : Type}.

Lemma no_action_stateless {A} (m : M W A) : stateless m → no_action m.
Proof. intros Hm s r s' H. by rewrite (Hm _ _ _ H). Qed.

Lemma no_action_update kvs : no_action (update_rendering_context (W:=W) kvs).
Proof. by intros s r s' [= _ <-]. Qed.

Lemma no_action_raise {A} e : no_action (raise (W:=W) (A:=A) e).
Proof. by intros s r s' [= _ <-]. Qed.

Lemma no_action_bind {A B} (m : M W A) (f : A → M W B) :
  no_action m → (∀ a, no_action (f a)) → no_action (bind m f).
Proof.
  intros Hm Hf s r s' H. unfold bind in H.
  destruct (m s) as [[a|e] s1] eqn:E.
  - rewrite (Hf a _ _ _ H). by apply (Hm _ _ _ E).
  - injection H as _ <-. by apply (Hm _ _ _ E).
Qed.

Lemma no_action_try {A} (m : M W A) (h : exn → M W A) :
  no_action m → (∀ e, no_action (h e)) → no_action (try_except m h).
Proof.
  intros Hm Hh s r s' H. unfold try_except in H.
  destruct (m s) as [[a|e] s1] eqn:E.
  - injection H as _ <-. by apply (Hm _ _ _ E).
  - rewrite (Hh e _ _ _ H). by apply (Hm _ _ _ E).
Qed.

End NoAction.

Ltac quiet_step :=
  first
    [ apply no_action_stateless;
      first [ apply stateless_ret | apply stateless_lift | apply stateless_reading ]
    | apply no_action_update
    | apply no_action_raise
    | apply no_action_try; [|intros ?]
    | apply no_action_bind; [|intros ?] ].

Section Software.

Context {W : Type} (X : Externals W) (self : Connector).

Lemma software_entry_result item s entry s' :
  software_entry X self item s = (Ok entry, s') → software_entry_shape entry.
Proof.
  unfold software_entry. intros H.
  apply bind_ok in H as ([] & s1 & _ & H).
  apply bind_ok in H as (name_control & s2 & _ & H).
  apply bind_ok in H as (name & s3 & _ & H).
  apply bind_ok in H as (version_control & s4 & _ & H).
  apply bind_ok in H as (native & s5 & _ & H).
  apply bind_ok in H as (version & s6 & Hv & H).
  injection H as <- _. exists name, version. split; [done|].
  destruct native; try (by injection Hv as <- _; left);
    apply bind_ok in Hv as (? & ? & _ & Hv);
    apply bind_ok in Hv as (t & ? & _ & Hv);
    injection Hv as <- _; right; eauto.
Qed.

Lemma no_action_software_entry item : no_action (software_entry X self item).
Proof.
  unfold software_entry.
  do 5 (apply no_action_bind; [quiet_step|intros ?]).
  apply no_action_bind; [|intros ?; quiet_step].
  match goal with |- context [match ?v with VNone => _ | _ => _ end] => destruct v end;
    repeat quiet_step.
Qed.

Lemma no_action_software_entries items : ∀ acc,
  no_action (software_entries X self items acc).
Proof.
  induction items as [|item rest IH]; intros acc; simpl; [quiet_step|].
  apply no_action_bind; [apply no_action_software_entry|intros ?; apply IH].
Qed.

Lemma same_result_bind {A B} (m : M W A) (k : A → M W B) (s s0 : State W) :
  stateless m → fst (m s) = fst (m s0) →
  (∀ a, fst (k a s) = fst (k a s0)) →
  fst (bind m k s) = fst (bind m k s0).
Proof.
  intros Hm Hr Hk. unfold bind.
  destruct (m s) as [r s1] eqn:E, (m s0) as [r0 s2] eqn:E0.
  apply Hm in E as ->. apply Hm in E0 as ->. simpl in Hr. subst r0.
  destruct r; [apply Hk|done].
Qed.

Lemma bind_update {A} kvs (k : unit → M W A) (s : State W) :
  bind (update_rendering_context kvs) k s =
    k tt (Build_State (update_context kvs (rendering_context s)) (world s)).
Proof. reflexivity. Qed.

Lemma software_entry_reads item (s s0 : State W) :
  <["software_response_item" := item]> (rendering_context s) =
    <["software_response_item" := item]> (rendering_context s0) →
  fst (software_entry X self item s) = fst (software_entry X self item s0)
  ∧ snd (software_entry X self item s) =
      Build_State (<["software_response_item" := item]> (rendering_context s)) (world s).
Proof.
  intros H. unfold software_entry. rewrite !bind_update.
  cbn [update_context fold_left fst snd]. rewrite H.
  match goal with
  | |- fst (?m ?t) = fst (?m ?t0) ∧ _ =>
      assert (stateless m) as Hm; [|assert (fst (m t) = fst (m t0)) as Hr]
  end.
  - repeat (apply stateless_bind; [solve [auto with stateless]|intros ?]).
    apply stateless_bind; [|intros ?; apply stateless_ret].
    match goal with |- context [match ?v with VNone => _ | _ => _ end] => destruct v end;
      repeat (apply stateless_bind; [solve [auto with stateless]|intros ?]);
      apply stateless_ret.
  - repeat (apply same_result_bind; [solve [auto with stateless]|done|intros ?]).
    apply same_result_bind; [| |done];
      match goal with |- context [match ?v with VNone => _ | _ => _ end] => destruct v end;
      try done; try apply stateless_ret;
      repeat (apply stateless_bind; [solve [auto with stateless]|intros ?]);
      try apply stateless_ret;
      repeat (apply same_result_bind; [solve [auto with stateless]|done|intros ?]); done.
  - split; [exact Hr|].
    match goal with |- snd (?m ?t) = _ => destruct (m t) as [r t'] eqn:E end.
    by apply Hm in E as ->.
Qed.

Lemma software_entries_each items (base : State W) : ∀ acc s entries s',
  software_entries X self items acc s = (Ok entries, s') →
  (∀ item, <["software_response_item" := item]> (rendering_context s) =
           <["software_response_item" := item]> (rendering_context base)) →
  ∃ new, entries = acc ++ new
         ∧ Forall2 (λ item entry, fst (software_entry X self item base) = Ok entry)
             items new.
Proof.
  induction items as [|item rest IH]; intros acc s entries s' H Hs; simpl in H.
  - injection H as <- _. exists []. split; [by rewrite app_nil_r|constructor].
  - apply bind_ok in H as (entry & s1 & He & H).
    destruct (software_entry_reads item s base (Hs item)) as [Hr Hc].
    rewrite He in Hr, Hc. simpl in Hr, Hc. subst s1.
    apply IH in H as (new & -> & Hall).
    + exists (entry :: new). split; [by rewrite <- app_assoc|].
      constructor; done.
    + intros item'. simpl. rewrite insert_insert_eq. apply Hs.
Qed.

Lemma Forall2_entries_shape items entries (base : State W) :
  Forall2 (λ item entry, fst (software_entry X self item base) = Ok entry) items entries →
  Forall software_entry_shape entries.
Proof.
  induction 1 as [|item entry items entries He _ IH]; constructor; [|done].
  destruct (software_entry X self item base) as [r s1] eqn:E. simpl in He. subst r.
  by apply software_entry_result in E.
Qed.

(** X13: the list [_build_list_of_software] returns is built from the
    items of the result expression of the software behaviour, rendered
    with the software response in the context: it has one entry for each
    item, in order, and the entry of an item is rendered with that item
    alone under [software_response_item], whatever the items before it
    were; every entry has a [name], a [version] that is [None] or a
    string, and a [path] that is always [None]. *)
Theorem software_list_shape software_response (s : State W) v s' :
  _build_list_of_software X self software_response s = (Ok v, s') →
  let base :=
    Build_State (<["software_response" := software_response]> (rendering_context s))
      (world s) in
  ∃ control result items entries,
    Py.getitem (software_behavior self) "result" = Ok control
    ∧ render_to_native X control (rendering_context base) = Ok result
    ∧ Py.iter result = Ok items
    ∧ v = VList entries
    ∧ length entries = length items
    ∧ Forall2 (λ item entry, fst (software_entry X self item base) = Ok entry)
        items entries
    ∧ Forall software_entry_shape entries.
Proof.
  intros H. cbv zeta. unfold _build_list_of_software in H.
  apply bind_ok in H as ([] & s1 & Hup & H). injection Hup as <-.
  apply bind_ok in H as (control & s2 & Hc & H). injection Hc as Hc <-.
  apply bind_ok in H as (result & s3 & Hr & H). injection Hr as Hr <-.
  apply bind_ok in H as (items & s4 & Hi & H). injection Hi as Hi <-.
  apply bind_ok in H as (entries & s5 & He & H).
  injection H as <- _.
  apply (software_entries_each items
           (Build_State (<["software_response" := software_response]> (rendering_context s))
              (world s))) in He as (new & -> & Hall); [|done].
  exists control, result, items, new. simpl app.
  split; [done|]. split; [done|]. split; [done|]. split; [done|].
  split; [symmetry; by eapply Forall2_length|].
  split; [done|]. by eapply Forall2_entries_shape.
Qed.

(** X14: without an endpoint of its own (no [url], or no [http_method]) the
    software enrichment works on the record it is given:
    [_get_software_response] returns that record, and
    [_add_desktop_software] as a whole makes no request, however it ends. *)
Theorem software_without_endpoint item_details s :
  software_endpoint self = false →
  (∀ d, software_behavior self = VDict d →
        _get_software_response X self item_details s = (Ok item_details, s))
  ∧ ∀ r s', _add_desktop_software X self item_details s = (r, s') →
            world s' = world s.
Proof.
  intros Hend. unfold software_endpoint in Hend. split.
  - intros d Hd. rewrite Hd in Hend.
    unfold _get_software_response, bind, lift, ret. rewrite Hd. simpl.
    fold (dget d "url" VNone). destruct (truthy (dget d "url" VNone)) eqn:Hu.
    + fold (dget d "http_method" VNone). simpl in Hend. by rewrite Hend.
    + by rewrite Hu.
  - assert (no_action (_get_software_response X self item_details)) as Hresp.
    { intros s0 r0 s0'. unfold _get_software_response, bind, lift, ret.
      destruct (software_behavior self) as [| | | | |d] eqn:Hd; simpl;
        try (by intros [= _ <-]).
      fold (dget d "url" VNone). destruct (truthy (dget d "url" VNone)) eqn:Hu.
      - fold (dget d "http_method" VNone). simpl in Hend. rewrite Hend.
        by intros [= _ <-].
      - rewrite Hu. by intros [= _ <-]. }
    apply no_action_try; [|intros ?; quiet_step].
    apply no_action_bind; [quiet_step|intros enabled].
    destruct enabled; [|quiet_step].
    apply no_action_bind; [quiet_step|intros ?].
    apply no_action_bind; [apply Hresp|intros ?].
    apply no_action_bind.
    { unfold _build_list_of_software.
      do 4 (apply no_action_bind; [quiet_step|intros ?]).
      apply no_action_bind; [apply no_action_software_entries|intros ?]. quiet_step. }
    intros list_of_software. unfold _add_list_of_software.
    destruct (truthy list_of_software); [|quiet_step].
    apply no_action_bind; [quiet_step|intros changed].
    apply no_action_bind; [|intros ?; quiet_step].
    intros s0 r0 s0' H0.
    destruct (changed_in_place_ok self true item_details changed s0) as (s1 & E & Hw).
    rewrite E in H0. by injection H0 as _ <-.
Qed.

End Software.

(** ** Credential rotation and the sync *)

Section RotationFailures.

Context {W : Type} (X : Externals W) (self : Connector).
Variable deliver : yielded → State W → State W.

Lemma rotate_iteration fuel : ∀ iteration iam_records s ys r it s',
  rotate X self deliver fuel iteration iam_records s = Some (ys, r, it, s') →
  it = iteration + length ys.
Proof.
  induction fuel as [|fuel IH]; intros iteration iam_records s ys r it s'; simpl; [done|].
  destruct (acting (get_iam_credentials X) s) as [[[creds|]|e] s1];
    try (intros [= <- _ <- _]; simpl; lia).
  destruct (outcome (_load_list X self collecting creds true s1)) as [e|];
    [intros [= <- _ <- _]; simpl; lia|].
  destruct (rotate X self deliver fuel _ _ _) as [[[[ys' r'] it'] s3]|] eqn:E; [|done].
  intros [= <- _ <- _]. apply IH in E. simpl. lia.
Qed.

(** X15: when a rotating pass, or the credential source, raises, the
    objects of the failing pass are not handed over: the consumer of
    [_load_iam_list] has the lists of the passes completed before, the
    default pass is not run, and the exception, whatever its class, the
    max-iteration exception included, is raised anew as the in-beginning
    exception when no pass had completed and as the in-middle exception
    otherwise. *)
Theorem failed_rotation (fuel : nat) (s : State W) ys e iteration s1 :
  rotating_passes X self deliver fuel s = Some (ys, Raise e, iteration, s1) →
  iteration = length ys
  ∧ Forall (λ y, is_batch y = true) ys
  ∧ _load_iam_list X self deliver fuel s =
      Some (Build_Run ys
              (Some (Exn (match ys with
                          | [] => ManagedConnectorListGetInBeginningException
                          | _ :: _ => ManagedConnectorListGetInMiddleException
                          end)
                       (VStr (str X e))))
              s1).
Proof.
  intros H.
  assert (iteration = length ys) as ->.
  { unfold rotating_passes in H.
    destruct (Py.getitem _ _); [|by injection H as <- _ <- _].
    destruct (acting _ s) as [[[]|?] ?]; [|by injection H as <- _ <- _].
    by apply rotate_iteration in H. }
  split; [done|]. split; [by apply rotating_passes_batches in H as [? _]|].
  unfold _load_iam_list. rewrite H. unfold classify_iam, wrap. by destruct ys.
Qed.

Lemma load_list_raises_list_phase creds skip s e :
  outcome (_load_list X self deliver creds skip s) = Some e → list_phase e = true.
Proof.
  unfold _load_list, get_list_of_items, get_list_of_items_fuel.
  destruct (pull_controls self) as [ctl|e0].
  2:{ intros [= <-]. apply classify_list_phase. }
  destruct (while_loop _ _ _ _ _ _ _ _ _) as [[[[outs ex] it] s1]|] eqn:E; [|done].
  apply while_loop_singles in E as [_ Hex].
  destruct ex as [|e0|e0]; [destruct (_ <=? _)|..]; try done.
  - intros [= <-]. done.
  - intros [= <-]. apply classify_list_phase.
  - by destruct (Hex e0).
Qed.

Lemma load_iam_list_raises_list_phase fuel s run e :
  _load_iam_list X self deliver fuel s = Some run →
  outcome run = Some e →
  list_phase e = true.
Proof.
  unfold _load_iam_list.
  destruct (rotating_passes X self deliver fuel s) as [[[[ys [n|e0]] it] s1]|]; [| |done].
  - intros [= <-]. apply load_list_raises_list_phase.
  - intros [= <-] [= <-]. unfold classify_iam. by destruct (it =? 0).
Qed.

(** X16: an exception that ends [_load_list] or [_load_iam_list] is always
    one of the four exceptions of the list phase (in-beginning, in-middle,
    empty-in-beginning, max-iteration): nothing else leaves these
    generators. *)
Theorem only_list_phase_exceptions :
  (∀ creds skip s e,
     outcome (_load_list X self deliver creds skip s) = Some e →
     list_phase e = true)
  ∧ (∀ fuel s run e,
       _load_iam_list X self deliver fuel s = Some run →
       outcome run = Some e →
       list_phase e = true).
Proof.
  split.
  - apply load_list_raises_list_phase.
  - apply load_iam_list_raises_list_phase.
Qed.

End RotationFailures.

Section SyncFacts.

Context {W : Type} (X : Externals W) (P : Platform W) (self : Connector).
Variable json_loads : string → Res value.
Variable cfg : SyncSettings.

(** X17: after [oomnitza_authorization_loader] has accepted the setting
    (and the platform's own token is no mapping), [get_oomnitza_auth_for_sync]
    cannot fail on the setting: it either returns the stored token without
    acting, or it is the platform's lookup of a [token_id] that is true. *)
Theorem platform_token_after_loading (api_token : value) (c c' : Connector) :
  oomnitza_authorization_loader api_token c = (None, c') →
  isinstance_dict api_token = false →
  (isinstance_dict (oomnitza_authorization c') = false
   ∧ ∀ s : State W,
       get_oomnitza_auth_for_sync P c' s = (Ok (oomnitza_authorization c'), s))
  ∨ (∃ token_id,
       oomnitza_authorization c' = VDict [("token_id", token_id)]
       ∧ truthy token_id = true
       ∧ ∀ s : State W,
           get_oomnitza_auth_for_sync P c' s =
             acting (get_token_by_token_id P token_id) s).
Proof.
  unfold oomnitza_authorization_loader. intros H Htok.
  destruct (isinstance_str (oomnitza_authorization c) && truthy (oomnitza_authorization c))
    eqn:Hstr.
  { injection H as <-. left. apply andb_true_iff in Hstr as [Hs _].
    destruct (oomnitza_authorization c) as [| | |t| |] eqn:E; try done.
    split; [done|]. intros s. unfold get_oomnitza_auth_for_sync. by rewrite E. }
  destruct (negb (truthy (oomnitza_authorization c))).
  { injection H as <-. left. simpl. split; [done|]. intros s.
    unfold get_oomnitza_auth_for_sync. simpl. by destruct api_token. }
  destruct (oomnitza_authorization c) as [| | | | |d]; try done.
  destruct (truthy (dget d "token_id" VNone)) eqn:Ht; [|done].
  injection H as <-. right. exists (dget d "token_id" VNone).
  split; [done|]. split; [done|]. intros s.
  unfold get_oomnitza_auth_for_sync, bind, lift. simpl. done.
Qed.

Lemma stateless_render_inputs items : ∀ acc, stateless (render_inputs X items acc).
Proof.
  induction items as [|[k v] rest IH]; intros acc; simpl; [apply stateless_ret|].
  apply stateless_bind; [apply stateless_lift|intros ?].
  apply stateless_bind; [apply stateless_reading|intros ?]. apply IH.
Qed.

Lemma get_oomnitza_auth_writes keys :
  writes_only keys (get_oomnitza_auth_for_sync P self).
Proof.
  unfold get_oomnitza_auth_for_sync.
  destruct (oomnitza_authorization self); repeat frame_step.
Qed.

(** X18: [_load_records] puts under [inputs] the cloud inputs, each
    rendered to a string, with the local inputs laid over them: an input
    given locally replaces the cloud input of the same name. *)
Theorem local_inputs_override_cloud_inputs (s s1 : State W) :
  prepare_sync X P self json_loads cfg s = (Ok tt, s1) →
  ∃ d cloud local,
    inputs_from_cloud cfg = VDict d
    ∧ render_inputs X d [] s = (Ok cloud, s)
    ∧ get_local_inputs self json_loads cfg = Ok (VDict local)
    ∧ rendering_context s1 !! "inputs" = Some (VDict (dict_update cloud local))
    ∧ (keys_once local → overlaid cloud local (dict_update cloud local)).
Proof.
  unfold prepare_sync. intros H.
  apply bind_ok in H as (cloud & s2 & Hc & H).
  destruct (inputs_from_cloud cfg) as [| | | | |d] eqn:Hd; try done.
  pose proof (stateless_render_inputs _ _ _ _ _ Hc) as ->.
  apply bind_ok in H as (inputs_from_local & s3 & Hl & H). injection Hl as Hl <-.
  apply bind_ok in H as (inputs & s4 & Hi & H). injection Hi as Hi <-.
  destruct inputs_from_local as [| | | | |local]; try done. injection Hi as <-.
  apply bind_ok in H as ([] & s5 & Hu & H). injection Hu as <-.
  apply bind_ok in H as (token & s6 & Ht & H).
  apply bind_ok in H as ([] & s7 & Hs & H). injection Hs as <-.
  exists d, cloud, local. split; [done|]. split; [done|]. split; [done|]. split.
  - unfold acting in H. simpl in H.
    destruct (authenticate P _) as [r w]. injection H as _ <-. simpl.
    rewrite (get_oomnitza_auth_writes [] _ _ _ "inputs" Ht) by apply not_elem_of_nil.
    simpl. apply lookup_insert_eq.
  - apply overlaid_update.
Qed.


End SyncFacts.

(** ** The Zendesk connector *)

Lemma same_key_true a b :
  Zendesk.same_key a b = true → Zendesk.key_of a = Zendesk.key_of b.
Proof.
  unfold Zendesk.same_key.
  destruct (Zendesk.key_of a), (Zendesk.key_of b); try done.
  - by intros ->%Z.eqb_eq.
  - by intros ->%String.eqb_eq.
Qed.

Lemma same_key_keys a a' b b' :
  Zendesk.key_of a = Zendesk.key_of a' → Zendesk.key_of b = Zendesk.key_of b' →
  Zendesk.same_key a b = Zendesk.same_key a' b'.
Proof. unfold Zendesk.same_key. by intros -> ->. Qed.

Lemma organizations_get_set m k v id :
  Zendesk.organizations_get (Zendesk.organizations_set m k v) id =
    if Zendesk.same_key k id then Some v else Zendesk.organizations_get m id.
Proof.
  induction m as [|[k' v'] m IH]; simpl; [done|].
  destruct (Zendesk.same_key k' k) eqn:Hk; simpl.
  - apply same_key_true in Hk. rewrite (same_key_keys k' k id id Hk eq_refl).
    by destruct (Zendesk.same_key k id).
  - rewrite IH. destruct (Zendesk.same_key k' id) eqn:Hid; [|done].
    destruct (Zendesk.same_key k id) eqn:Hk'; [|done].
    pose proof (same_key_true _ _ Hid) as E1. pose proof (same_key_true _ _ Hk') as E2.
    rewrite (same_key_keys k' k k id) in Hk by congruence. congruence.
Qed.

Section ZendeskFacts.

Context {W R : Type} (api : Zendesk.Api W R).
Variable field_mappings : value.
Variable deliver : value → W → W.

Lemma store_organizations_names organizations : ∀ m m',
  Zendesk.store_organizations organizations m = Ok m' →
  ∀ id, Zendesk.organizations_get m' id =
          match Zendesk.listed_name organizations id with
          | Some name => Some name
          | None => Zendesk.organizations_get m id
          end.
Proof.
  induction organizations as [|organization rest IH]; intros m m' H id; simpl in H |- *.
  - by injection H as <-.
  - destruct (Py.getitem organization "name") as [name|e]; [|by destruct (Py.getitem _ _)].
    destruct (Py.getitem organization "id") as [id'|e]; [|done].
    destruct (Zendesk.hashable id'); [|done].
    rewrite (IH _ _ H id), organizations_get_set.
    by destruct (Zendesk.listed_name rest id), (Zendesk.same_key id' id).
Qed.

(** X20: [_load_organizations_if_needed] asks for the organizations only
    when some field mapping has the source [organization_id]: otherwise it
    returns [None] and makes no request.  When one has, what it returns is
    the dictionary its loop built, never [None].  A page of organizations
    adds its organizations to the dictionary and the loop goes on with
    [next_page]: after the page, an id is mapped to the name of the last
    organization of the page listed under it, and an id the page does not
    list is mapped as before.  A page without the key [organizations] ends
    the loop with the dictionary as it is. *)
Theorem organizations_by_id (fuel : nat) (w : W) :
  (∀ mappings,
     field_mappings = VDict mappings →
     Zendesk.mapped_organization mappings = Ok false →
     Zendesk._load_organizations_if_needed api field_mappings fuel w = Some (Ok None, w))
  ∧ (∀ mappings r w',
       field_mappings = VDict mappings →
       Zendesk.mapped_organization mappings = Ok true →
       Zendesk._load_organizations_if_needed api field_mappings fuel w = Some (Ok r, w') →
       ∃ url organization_map,
         Zendesk.format_url api "v2/organizations.json" = Ok url
         ∧ Zendesk.organizations_loop api fuel url [] w = Some (Ok organization_map, w')
         ∧ r = Some organization_map)
  ∧ (∀ url response w1 listed organizations organization_map organization_map' next_page,
       truthy url = true →
       Zendesk.fetch api url w = (Ok response, w1) →
       Py.contains "organizations" response = Ok true →
       Py.getitem response "organizations" = Ok listed →
       Py.iter listed = Ok organizations →
       Zendesk.store_organizations organizations organization_map = Ok organization_map' →
       Py.getitem response "next_page" = Ok next_page →
       Zendesk.organizations_loop api (S fuel) url organization_map w =
         Zendesk.organizations_loop api fuel next_page organization_map' w1
       ∧ ∀ id, Zendesk.organizations_get organization_map' id =
                 match Zendesk.listed_name organizations id with
                 | Some name => Some name
                 | None => Zendesk.organizations_get organization_map id
                 end)
  ∧ (∀ url response w1 organization_map,
       truthy url = true →
       Zendesk.fetch api url w = (Ok response, w1) →
       Py.contains "organizations" response = Ok false →
       Zendesk.organizations_loop api (S fuel) url organization_map w =
         Some (Ok organization_map, w1)).
Proof.
  split; [|split; [|split]].
  - intros mappings Hf Hm. unfold Zendesk._load_organizations_if_needed. by rewrite Hf, Hm.
  - intros mappings r w' Hf Hm. unfold Zendesk._load_organizations_if_needed.
    rewrite Hf, Hm. destruct (Zendesk.format_url api _) as [url|e]; [|done].
    destruct (Zendesk.organizations_loop api fuel url [] w) as [[[m|e] w1]|] eqn:E;
      try done.
    intros [= <- <-]. by eexists _, _.
  - intros url response w1 listed organizations m m' next_page Hurl Hfetch Hc Hl Hi Hs Hn.
    split; [|by apply store_organizations_names].
    simpl. by rewrite Hurl, Hfetch, Hc, Hl, Hi, Hs, Hn.
  - intros url response w1 m Hurl Hfetch Hc. simpl. rewrite Hurl, Hfetch, Hc.
    by destruct fuel.
Qed.

Lemma emit_users_unnamed users : ∀ w,
  Zendesk.emit_users deliver VNone users w =
    (users, None, fold_left (λ w' user, deliver user w') users w).
Proof.
  induction users as [|user rest IH]; intros w; simpl; [done|]. by rewrite IH.
Qed.

(** X21: one pass of the loop over the users, with no organization map.  A
    page that has the key [users] yields its users in order and the loop
    goes on with [next_page]; when such a page has no [next_page] key the
    [KeyError] is raised after its users were yielded; a page without the
    key [users] ends the stream without an exception. *)
Theorem users_page (fuel : nat) (url response : value) (w w1 : W) :
  truthy url = true →
  Zendesk.fetch api url w = (Ok response, w1) →
  (∀ listed users next_page,
     Py.contains "users" response = Ok true →
     Py.getitem response "users" = Ok listed →
     Py.iter listed = Ok users →
     Py.getitem response "next_page" = Ok next_page →
     Zendesk.users_loop api deliver (S fuel) VNone url w =
       match Zendesk.users_loop api deliver fuel VNone next_page
               (fold_left (λ w' user, deliver user w') users w1) with
       | Some (ys, e, w2) => Some (users ++ ys, e, w2)
       | None => None
       end)
  ∧ (∀ listed users d,
       response = VDict d →
       dict_get d "users" = Some listed →
       Py.iter listed = Ok users →
       dict_get d "next_page" = None →
       Zendesk.users_loop api deliver (S fuel) VNone url w =
         Some (users, Some (Exn KeyError (VStr "next_page")),
               fold_left (λ w' user, deliver user w') users w1))
  ∧ (Py.contains "users" response = Ok false →
     Zendesk.users_loop api deliver (S fuel) VNone url w = Some ([], None, w1)).
Proof.
  intros Hurl Hfetch. split; [|split].
  - intros listed users next_page Hc Hl Hi Hn. simpl.
    by rewrite Hurl, Hfetch, Hc, Hl, Hi, emit_users_unnamed, Hn.
  - intros listed users d -> Hl Hi Hn. simpl.
    rewrite Hurl, Hfetch. simpl. rewrite Hl, Hi, emit_users_unnamed, Hn. done.
  - intros Hc. simpl. rewrite Hurl, Hfetch, Hc. by destruct fuel.
Qed.

End ZendeskFacts.

(** ** The further properties at work *)

Lemma failure_is_classified_by_iteration_witness :
  let X := Scenario.externals Scenario.shim_after_one in
  let self := Scenario.connector Scenario.plain_list (VDict []) in
  outcome (get_list_of_items X self Scenario.taking VNone false (Scenario.start []))
    = Some (Exn ManagedConnectorListGetInMiddleException (VStr "upstream is down")).
Proof.
  intros X self.
  pose (pages := full_pages X self Scenario.taking Scenario.plain_controls VNone 1 0
                   (start_context (Scenario.start []))).
  pose (s1 := default (Scenario.start []) (snd <$> pages)).
  assert (pages = Some ([VInt 1], s1)) as E by (vm_compute; reflexivity).
  assert (fetch_page X self Scenario.plain_controls VNone s1
          = (Raise (Exn HTTPError (VStr "upstream is down")),
             snd (fetch_page X self Scenario.plain_controls VNone s1))) as F
    by (vm_compute; reflexivity).
  rewrite (failure_is_classified_by_iteration X self Scenario.taking VNone false
             (Scenario.start []) Scenario.plain_controls 1 _ _ _ _ eq_refl E
             ltac:(unfold MAX_ITERATIONS; lia) F eq_refl).
  reflexivity.
Defined.

Lemma result_that_is_no_sequence_witness :
  let X := Scenario.externals Scenario.always_one in
  let self := Scenario.connector Fixture.number_result (VDict []) in
  ∃ error,
    outcome (get_list_of_items X self Scenario.taking VNone false (Scenario.start []))
      = Some (Exn ManagedConnectorListGetInBeginningException error).
Proof.
  intros X self.
  pose (s0 := start_context (Scenario.start [])).
  assert (fetch_page X self Fixture.number_controls VNone s0
          = (Ok (Page (VInt 5)),
             snd (fetch_page X self Fixture.number_controls VNone s0))) as F
    by (vm_compute; reflexivity).
  destruct (result_that_is_no_sequence X self Scenario.taking VNone false
              (Scenario.start []) Fixture.number_controls 0 [] s0 (VInt 5) _
              eq_refl eq_refl ltac:(unfold MAX_ITERATIONS; lia) F eq_refl
              ltac:(discriminate) ltac:(discriminate) ltac:(discriminate))
    as [error ->].
  eexists. reflexivity.
Defined.

Lemma break_early_after_pages_witness :
  let X := Scenario.externals Scenario.two_then_nothing in
  let self := Scenario.connector Fixture.breaking_after_a_page (VDict []) in
  emitted (get_list_of_items X self Scenario.taking VNone false (Scenario.start []))
    = [VInt 1; VInt 2]
  ∧ outcome (get_list_of_items X self Scenario.taking VNone false (Scenario.start []))
      = None.
Proof.
  intros X self.
  pose (pages := full_pages X self Scenario.taking Fixture.breaking_controls VNone 1 0
                   (start_context (Scenario.start []))).
  pose (s1 := default (Scenario.start []) (snd <$> pages)).
  assert (pages = Some ([VInt 1; VInt 2], s1)) as E by (vm_compute; reflexivity).
  assert (fetch_page X self Fixture.breaking_controls VNone s1 = (Ok BreakEarly, s1)) as F
    by (vm_compute; reflexivity).
  rewrite (break_early_after_pages X self Scenario.taking VNone false
             (Scenario.start []) Fixture.breaking_controls 1 _ _ _ eq_refl E
             ltac:(unfold MAX_ITERATIONS; lia) F).
  split; reflexivity.
Defined.

Lemma shim_marker_witness :
  shim_error (VDict [("shim_error_message", VStr "upstream is down")]) (Scenario.start [])
    = (Raise (Exn HTTPError (VStr "upstream is down")), Scenario.start []).
Proof.
  destruct (shim_marker (VDict [("shim_error_message", VStr "upstream is down")])
              (Scenario.start [])) as (_ & H & _).
  apply (H [("shim_error_message", VStr "upstream is down")]); reflexivity.
Defined.



Lemma static_authorization_round_trip_witness :
  ∃ c',
    saas_authorization_loader Scenario.decode
      (Scenario.with_saas (VDict [("headers", VDict [("Authorization", VStr "Bearer abc")])]))
      = (None, c')
    ∧ attach_saas_authorization (Scenario.externals Scenario.nothing) c' Scenario.blank
        (Scenario.start [])
      = (Ok (VDict [("Authorization", VStr "Bearer abc")], VDict [], VNone),
         Scenario.start []).
Proof.
  destruct (static_authorization_round_trip (Scenario.externals Scenario.nothing)
              Scenario.decode
              (Scenario.with_saas
                 (VDict [("headers", VDict [("Authorization", VStr "Bearer abc")])]))
              [("headers", VDict [("Authorization", VStr "Bearer abc")])])
    as (c' & Hl & Ha).
  - left. reflexivity.
  - reflexivity.
  - unfold is_session. discriminate.
  - left. eexists. split; [reflexivity|discriminate].
  - reflexivity.
  - exists c'. split; [exact Hl|]. apply Ha.
Defined.


Lemma failed_session_secret_keeps_response_witness :
  let X := Scenario.externals Scenario.session_answer in
  let run := generate_session_based_secret X Fixture.broken_session_connector
               (Scenario.start []) in
  fst run = Raise (Exn KeyError (VStr "result"))
  ∧ rendering_context (snd run) !! "response" = Some (VStr "secret-of-the-session").
Proof.
  intros X run.
  assert (run = (Raise (Exn KeyError (VStr "result")), snd run)) as E
    by (vm_compute; reflexivity).
  split; [by rewrite E|].
  assert (rendering_context (snd run) !! "response"
          = Some (VStr "secret-of-the-session")) as Hv by (vm_compute; reflexivity).
  destruct (failed_session_secret_keeps_response X Fixture.broken_session_connector
              _ _ _ E) as [H|(response & response_headers & _ & Hr & _)].
  - rewrite H in Hv. vm_compute in Hv. discriminate Hv.
  - exact Hv.
Defined.

Lemma enrichment_keeps_pagination_state_witness :
  let X := Scenario.externals Scenario.five_and_six in
  let self := Scenario.connector Scenario.plain_list Scenario.detail_failing_on_5 in
  let s := start_context (Scenario.start []) in
  let run := emit (handing_over X self collecting) [VInt 5; VInt 6] s in
  rendering_context (snd run) !! "iteration" = Some (VInt 0).
Proof.
  intros X self s run.
  rewrite (enrichment_keeps_pagination_state X self collecting [VInt 5; VInt 6]
             (λ _ _, eq_refl) s (fst (fst run)) (snd (fst run)) (snd run) "iteration").
  - reflexivity.
  - subst run. by destruct (emit _ _ s) as [[? ?] ?].
  - solve_keys.
Defined.

Lemma page_is_rendered_with_its_iteration_witness :
  let X := Scenario.externals Scenario.two_then_nothing in
  let self := Scenario.connector Scenario.plain_list (VDict []) in
  ∃ s1, full_pages X self Scenario.taking Scenario.plain_controls VNone 1 0
          (start_context (Scenario.start [])) = Some ([VInt 1; VInt 2], s1)
        ∧ rendering_context
            (snd (fetch_page X self Scenario.plain_controls VNone s1)) !! "iteration"
          = Some (VInt 1).
Proof.
  intros X self.
  pose (pages := full_pages X self Scenario.taking Scenario.plain_controls VNone 1 0
                   (start_context (Scenario.start []))).
  pose (s1 := default (Scenario.start []) (snd <$> pages)).
  assert (pages = Some ([VInt 1; VInt 2], s1)) as E by (vm_compute; reflexivity).
  exists s1. split; [exact E|].
  destruct (fetch_page X self Scenario.plain_controls VNone s1) as [r s2] eqn:F.
  exact (proj1 (page_is_rendered_with_its_iteration X self Scenario.taking
                  Scenario.plain_controls VNone 1 _ _ _ _ _ E F)).
Defined.

Lemma load_list_without_enrichment_witness :
  let X := Scenario.externals Scenario.two_then_nothing in
  let self := Scenario.connector Scenario.plain_list (VDict []) in
  emitted (_load_list X self collecting VNone false (Scenario.start []))
    = [YRecord (VInt 1); YRecord (VInt 2)].
Proof.
  intros X self.
  rewrite (load_list_without_enrichment X self collecting VNone false (Scenario.start [])
             eq_refl eq_refl eq_refl).
  vm_compute. reflexivity.
Defined.

Lemma saas_block_is_attached_witness :
  ∃ item' s',
    _add_saas_information (Scenario.externals Scenario.nothing)
      Scenario.software_connector false (VDict [("id", VInt 1)]) (Scenario.start [])
      = (Ok (VDict item'), s')
    ∧ dict_get item' "saas"
      = Some (VDict [("sync_key", VStr "k"); ("name", VStr "Slack")]).
Proof.
  destruct (saas_block_is_attached (Scenario.externals Scenario.nothing)
              Scenario.software_connector false
              [("enabled", VBool true); ("sync_key", VStr "k"); ("name", VStr "Slack")]
              (Scenario.start []) eq_refl eq_refl eq_refl) as (H & _).
  destruct (H [("id", VInt 1)]) as (item' & s' & Hrun & _ & Hsaas & _).
  exists item', s'. split; [exact Hrun|exact Hsaas].
Defined.

Lemma software_list_shape_witness :
  let X := Scenario.externals Scenario.nothing in
  ∃ entries,
    fst (_build_list_of_software X Scenario.software_connector
           (VDict [("vim", VStr "9.1"); ("git", VStr "2.4")]) (Scenario.start []))
      = Ok (VList entries)
    ∧ length entries = 2
    ∧ Forall software_entry_shape entries.
Proof.
  intros X.
  destruct (_build_list_of_software X Scenario.software_connector
              (VDict [("vim", VStr "9.1"); ("git", VStr "2.4")]) (Scenario.start []))
    as [[v|e] s'] eqn:E; [|vm_compute in E; discriminate].
  destruct (software_list_shape X Scenario.software_connector _ _ _ _ E)
    as (control & result & items & entries & Hc & Hr & Hi & -> & Hlen & _ & Hall).
  exists entries. split; [reflexivity|]. split; [|exact Hall].
  rewrite Hlen. vm_compute in Hc. injection Hc as <-.
  vm_compute in Hr. injection Hr as <-. vm_compute in Hi. injection Hi as <-.
  reflexivity.
Defined.

Lemma software_without_endpoint_witness :
  let X := Scenario.externals Scenario.nothing in
  world (snd (_add_desktop_software X Scenario.software_connector
                (VDict [("vim", VStr "9.1")]) (Scenario.start [])))
    = world (Scenario.start []).
Proof.
  intros X.
  destruct (software_without_endpoint X Scenario.software_connector
              (VDict [("vim", VStr "9.1")]) (Scenario.start []) eq_refl) as [_ H].
  destruct (_add_desktop_software X Scenario.software_connector _ _) as [r s'] eqn:E.
  exact (H r s' eq_refl).
Defined.

Lemma failed_rotation_witness :
  let X := Scenario.externals Fixture.always_shim in
  let s := Scenario.start [VDict [("role", VStr "audit")]] in
  (outcome <$> _load_iam_list X Scenario.iam_connector collecting 2 s)
    = Some (Some (Exn ManagedConnectorListGetInBeginningException
                    (VStr "upstream is down"))).
Proof.
  intros X s.
  pose (passes := rotating_passes X Scenario.iam_connector collecting 2 s).
  pose (s1 := default s ((λ p, snd p) <$> passes)).
  assert (passes = Some ([], Raise (Exn ManagedConnectorListGetInBeginningException
                                      (VStr "upstream is down")), 0, s1)) as E
    by (vm_compute; reflexivity).
  destruct (failed_rotation X Scenario.iam_connector collecting 2 s _ _ _ _ E)
    as (_ & _ & ->).
  reflexivity.
Defined.

Lemma only_list_phase_exceptions_witness :
  let X := Scenario.externals Scenario.nothing in
  let self := Scenario.connector Scenario.plain_list (VDict []) in
  list_phase empty_in_beginning = true.
Proof.
  intros X self.
  apply (proj1 (only_list_phase_exceptions X self collecting) VNone false
           (Scenario.start [])).
  vm_compute. reflexivity.
Defined.

Lemma platform_token_after_loading_witness :
  ∃ c',
    oomnitza_authorization_loader (VStr "platform-token")
      (Scenario.with_oomnitza (VDict [("token_id", VInt 12)])) = (None, c')
    ∧ get_oomnitza_auth_for_sync Fixture.platform c' (Scenario.start [])
      = (Ok (VStr "token-of-the-id"), Scenario.start []).
Proof.
  eexists. split; [reflexivity|].
  destruct (platform_token_after_loading Fixture.platform (VStr "platform-token")
              (Scenario.with_oomnitza (VDict [("token_id", VInt 12)])) _
              eq_refl eq_refl) as [[H _]|(t & Ht & _ & H)].
  - discriminate H.
  - rewrite H. injection Ht as <-. reflexivity.
Defined.

Lemma local_inputs_override_cloud_inputs_witness :
  let X := Scenario.externals Scenario.nothing in
  let self := Scenario.connector Scenario.plain_list (VDict []) in
  let run := prepare_sync X Fixture.platform self Scenario.decode Fixture.settings
               (Scenario.start []) in
  rendering_context (snd run) !! "inputs"
    = Some (VDict [("region", VStr "eu"); ("team", VStr "ops")]).
Proof.
  intros X self run.
  assert (run = (Ok tt, snd run)) as E by (vm_compute; reflexivity).
  destruct (local_inputs_override_cloud_inputs X Fixture.platform self Scenario.decode
              Fixture.settings _ _ E) as (d & cloud & local & Hd & Hc & Hl & Hi & _).
  rewrite Hi. injection Hd as <-. injection Hl as <-.
  vm_compute in Hc. injection Hc as <-. reflexivity.
Defined.


Lemma organizations_by_id_witness :
  Zendesk._load_organizations_if_needed Fixture.zendesk Fixture.organization_is_mapped 3 0
    = Some (Ok (Some [(VInt 1, VStr "Acme")]), 1).
Proof.
  destruct (organizations_by_id Fixture.zendesk Fixture.organization_is_mapped 3 0)
    as (_ & H & _).
  destruct (Zendesk._load_organizations_if_needed Fixture.zendesk
              Fixture.organization_is_mapped 3 0) as [[[r|e] w']|] eqn:E;
    [|vm_compute in E; discriminate|vm_compute in E; discriminate].
  destruct (H _ r w' eq_refl ltac:(vm_compute; reflexivity) eq_refl)
    as (url & m & Hurl & Hloop & ->).
  injection Hurl as <-. vm_compute in Hloop. by injection Hloop as <- <-.
Defined.

Lemma users_page_witness :
  Zendesk.users_loop Fixture.zendesk Fixture.counting 2 VNone (VStr "v2/users.json") 1
  = Some ([VDict [("name", VStr "ann"); ("organization_id", VInt 1)]], None, 2).
Proof.
  destruct (users_page Fixture.zendesk Fixture.counting 1 (VStr "v2/users.json")
              (Fixture.zendesk_page 1) 1 2 eq_refl eq_refl) as (H & _).
  rewrite (H _ _ VNone eq_refl eq_refl eq_refl eq_refl). reflexivity.
Defined.
